(** * Tempo activity catalogue and smart-wallet decision engine

    A shallow embedding of the Python reference implementation
    ([utils/reference/auto.py] and [utils/reference/smart.py]): the activity
    recipes, the inlined approve-if-needed block, the per-wallet sweep of
    [run_auto_mode] and [SmartWallet.decide_next_action].

    The recipes talk to an RPC node.  The node is modelled as a state
    (what the read calls answer), a fault script (which RPC call raises, and
    with which message) and a transition function for mined transactions.
    Every RPC call, broadcast and sleep is written to an event list, so that
    "no transaction is submitted" and "no chain read happens" are statements
    about that list.  Console output is not modelled. *)

From Stdlib Require Import ZArith QArith String Ascii List Lia Bool.
From stdpp Require Import base gmap strings list.

Local Open Scope Z_scope.

(** ** Python values used by the recipes *)

Module Py.

(** The outcome of evaluating a Python expression: a value, or a raised
    exception carrying [str(e)]. *)
Inductive result (A : Type) : Type :=
| Ok (a : A)
| Raise (e : string).
Arguments Ok {A} a.
Arguments Raise {A} e.

(** What a recipe returns: [None] or a [str] (a transaction hash, a token
    address, ['faucet'] or a ["skipped: ..."] sentinel). *)
Definition value := option string.

(** Truthiness of [None] and of a [str], as tested by [if x:] and
    [if not x:]. *)
Definition truthy (v : value) : bool :=
  match v with
  | None => false
  | Some s => negb (String.eqb s "")
  end.

(** [c.lower()] on an ASCII character. *)
Definition lower_ascii (c : ascii) : ascii :=
  let n := nat_of_ascii c in
  if ((65 <=? n) && (n <=? 90))%nat then ascii_of_nat (n + 32) else c.

(** [s.lower()]; messages are taken to be ASCII. *)
Fixpoint lower (s : string) : string :=
  match s with
  | EmptyString => EmptyString
  | String c s' => String (lower_ascii c) (lower s')
  end.

(** [x in s] for two strings. *)
Fixpoint contains (x s : string) : bool :=
  String.prefix x s ||
  match s with
  | EmptyString => false
  | String _ s' => contains x s'
  end.

(** [any(x in s for x in xs)]. *)
Definition any_in (xs : list string) (s : string) : bool :=
  existsb (fun x => contains x s) xs.

(** [await v] where [v] is [None] or a [str]: neither is awaitable, so the
    expression raises [TypeError]. *)
Definition await (v : value) : result value :=
  match v with
  | None => Raise "object NoneType can't be used in 'await' expression"
  | Some _ => Raise "object str can't be used in 'await' expression"
  end.

(** [max(a, b)] and [min(a, b)] on ints. *)
Definition max (a b : Z) : Z := if a <? b then b else a.
Definition min (a b : Z) : Z := if b <? a then b else a.

End Py.

Import Py.

(** ** The RPC node *)

Definition address := string.

(** Read-only calls ([.call()], [get_balance], [get_transaction_count],
    [gas_price]).  Booleans are answered as 0 / 1.  A role is named by the
    text whose keccak hash the source passes. *)
Inductive Query : Type :=
| Allowance (token owner spender : address)
| BalanceOf (token owner : address)
| GetBalance (owner : address)
| HasRole (token : address) (role : string) (account : address)
| QuoteSwapExactAmountIn (tokenIn tokenOut : address) (amountIn : Z)
| GetPoolId (token1 token2 : address)
| LiquidityBalances (pool : Z) (owner : address)
| GetTransactionCount (owner : address)
| GasPrice.

(** State-changing contract calls placed in a transaction. *)
Inductive Call : Type :=
| Approve (token spender : address) (amount : Z)
| SwapExactAmountIn (tokenIn tokenOut : address) (amountIn minOut : Z)
| CreateToken (name symbol currency : string) (quoteToken admin : address)
| Mint (token to : address) (amount : Z)
| Burn (token : address) (amount : Z)
| GrantRole (token : address) (role : string) (account : address)
| MintWithValidatorToken (validatorToken feeToken : address) (amount : Z)
                         (recipient : address)
| FeeManagerBurn (token1 token2 : address) (amount : Z) (recipient : address).

(** The dict handed to [build_transaction], with the call it wraps. *)
Record TxIntent : Type := {
  tx_from : address;
  tx_nonce : Z;
  tx_gas : Z;
  tx_gasPrice : Z;
  tx_chainId : Z;
  tx_call : Call
}.

Record Log : Type := {
  log_address : address;
  log_topics : list string;
  log_data : string
}.

Record Receipt : Type := {
  transactionHash : string;
  status : bool;
  logs : list Log;
  contractAddress : option address
}.

(** What the chain answers to each read. *)
Definition Chain : Type := Query -> Z.

(** The behaviour of the network that the recipes do not control: how a
    broadcast transaction changes the chain and which receipt it gets, and
    what the faucet RPC does. *)
Record Node : Type := {
  mine : Chain -> TxIntent -> Chain * Receipt;
  fund : Chain -> address -> Chain
}.

Inductive Event : Type :=
| EvRead (q : Query) (r : result Z)
| EvSend (tx : TxIntent) (r : result string)
| EvWait (h : string)
| EvFaucet (a : address) (r : result unit)
| EvSleep (secs : Q).

(** [faults]: one entry is consumed by each RPC call, [Some msg] makes that
    call raise an exception whose text is [msg]; when the script is used up
    the calls succeed.  [rand_floats] feeds [random.random()], [rand_ints]
    feeds [random.choice], [random.randint] and [random.shuffle]. *)
Record World : Type := {
  chain : Chain;
  faults : list (option string);
  receipts : list Receipt;
  rand_floats : list Q;
  rand_ints : list nat
}.

(** ** A state, exception and event-log monad *)

Section Monad.
Context {S : Type}.

Record outcome (A : Type) : Type := Outcome {
  res : result A;
  post : S;
  events : list Event
}.
Arguments Outcome {A} res post events.
Arguments res {A} o.
Arguments post {A} o.
Arguments events {A} o.

Definition M (A : Type) : Type := S -> outcome A.

Definition ret {A} (a : A) : M A := fun s => Outcome (Ok a) s [].

Definition raise {A} (e : string) : M A := fun s => Outcome (Raise e) s [].

Definition bind {A B} (m : M A) (k : A -> M B) : M B := fun s =>
  let o := m s in
  match res o with
  | Ok a => let o' := k a (post o) in
            Outcome (res o') (post o') (events o ++ events o')
  | Raise e => Outcome (Raise e) (post o) (events o)
  end.

(** [try: m  except Exception as e: h e].  State changes and events of the
    part of [m] that ran are kept. *)
Definition try_catch {A} (m : M A) (h : string -> M A) : M A := fun s =>
  let o := m s in
  match res o with
  | Ok a => o
  | Raise e => let o' := h e (post o) in
               Outcome (res o') (post o') (events o ++ events o')
  end.

Definition get : M S := fun s => Outcome (Ok s) s [].
Definition put (s' : S) : M unit := fun _ => Outcome (Ok tt) s' [].
Definition emit (ev : Event) : M unit := fun s => Outcome (Ok tt) s [ev].

Definition of_result {A} (r : result A) : M A :=
  match r with Ok a => ret a | Raise e => raise e end.

End Monad.

Arguments outcome S A : clear implicits.
Arguments M S A : clear implicits.
Arguments Outcome {S A} res post events.
Arguments res {S A} o.
Arguments post {S A} o.
Arguments events {S A} o.

Notation "x <- m ;; k" := (bind m (fun x => k))
  (at level 100, m at next level, right associativity).
Notation "m ;;; k" := (bind m (fun _ => k))
  (at level 100, right associativity).

(** ** Collaborators that are not part of the two source files *)

(** [CONFIG], [SYSTEM_CONTRACTS] and the factory ABI come from the [config]
    module.  [TOKENS] keeps the dict's key order.  [process_log] stands for
    [factory.events.TokenCreated().process_log]: the token address of a log
    that decodes as a [TokenCreated] event, [None] where decoding raises. *)
Record Config : Type := {
  TOKENS : list (string * address);
  CHAIN_ID : Z;
  STABLECOIN_DEX : address;
  FEE_MANAGER : address;
  TIP20_FACTORY : address;
  process_log : Log -> option address
}.

(** The two binary64 computations of the code: [a / b] on ints (the value of
    the resulting float, as a rational) and [int(n * (p / 100))].  Both are
    kept abstract. *)
Record Float64 : Type := {
  truediv : Z -> Z -> Q;
  scale_percent : Z -> Z -> Z
}.

(** ** RPC primitives *)

Module Rpc.
Section Rpc.
Variable node : Node.

Definition set_faults (fs : list (option string)) (w : World) : World :=
  {| chain := chain w; faults := fs; receipts := receipts w;
     rand_floats := rand_floats w; rand_ints := rand_ints w |}.

Definition set_rand_floats (rs : list Q) (w : World) : World :=
  {| chain := chain w; faults := faults w; receipts := receipts w;
     rand_floats := rs; rand_ints := rand_ints w |}.

Definition set_rand_ints (ks : list nat) (w : World) : World :=
  {| chain := chain w; faults := faults w; receipts := receipts w;
     rand_floats := rand_floats w; rand_ints := ks |}.

(** The next entry of the fault script. *)
Definition next_fault (w : World) : option string :=
  match faults w with
  | Some msg :: _ => Some msg
  | _ => None
  end.

Definition drop_fault (w : World) : World := set_faults (tail (faults w)) w.

(** A read call: [contract.functions.f(...).call()],
    [web3.eth.get_balance], [get_transaction_count(a, 'pending')],
    [web3.eth.gas_price]. *)
Definition eth_call (q : Query) : M World Z := fun w =>
  match next_fault w with
  | Some msg => Outcome (Raise msg) (drop_fault w) [EvRead q (Raise msg)]
  | None => Outcome (Ok (chain w q)) (drop_fault w) [EvRead q (Ok (chain w q))]
  end.

(** [web3.eth.send_raw_transaction]: on success the node mines the
    transaction and the hash of its receipt is returned. *)
Definition send_raw_transaction (tx : TxIntent) : M World string := fun w =>
  match next_fault w with
  | Some msg => Outcome (Raise msg) (drop_fault w) [EvSend tx (Raise msg)]
  | None =>
      let cr := mine node (chain w) tx in
      let w' := drop_fault w in
      Outcome (Ok (transactionHash (snd cr)))
              {| chain := fst cr; faults := faults w';
                 receipts := snd cr :: receipts w';
                 rand_floats := rand_floats w'; rand_ints := rand_ints w' |}
              [EvSend tx (Ok (transactionHash (snd cr)))]
  end.

(** Modelled from the spec: [sync_wait_for_tx_with_retry] of
    [utils.helpers] is not among the sources.  Following section 4.1 step 5
    it polls for the receipt of a hash and either returns it or gives up
    with an exception. *)
Definition sync_wait_for_tx_with_retry (h : string) : M World Receipt := fun w =>
  match next_fault w with
  | Some msg => Outcome (Raise msg) (drop_fault w) [EvWait h]
  | None =>
      match List.find (fun rc => String.eqb (transactionHash rc) h) (receipts w) with
      | Some rc => Outcome (Ok rc) (drop_fault w) [EvWait h]
      | None => Outcome (Raise "transaction not found") (drop_fault w) [EvWait h]
      end
  end.

(** [web3.manager.request_blocking('tempo_fundAddress', [a])]. *)
Definition tempo_fundAddress (a : address) : M World unit := fun w =>
  match next_fault w with
  | Some msg => Outcome (Raise msg) (drop_fault w) [EvFaucet a (Raise msg)]
  | None =>
      let w' := drop_fault w in
      Outcome (Ok tt)
              {| chain := fund node (chain w) a; faults := faults w';
                 receipts := receipts w';
                 rand_floats := rand_floats w'; rand_ints := rand_ints w' |}
              [EvFaucet a (Ok tt)]
  end.

(** [time.sleep(secs)]. *)
Definition sleep (secs : Q) : M World unit := emit (EvSleep secs).

(** [random.random()]. *)
Definition random_random : M World Q := fun w =>
  match rand_floats w with
  | [] => Outcome (Ok 0%Q) w []
  | r :: rs => Outcome (Ok r) (set_rand_floats rs w) []
  end.

(** An index below [n], for the draws of [choice], [choices], [randint]
    and [shuffle]. *)
Definition randbelow (n : nat) : M World nat := fun w =>
  match rand_ints w with
  | [] => Outcome (Ok O) w []
  | k :: ks => Outcome (Ok (k mod n)%nat) (set_rand_ints ks w) []
  end.

(** [random.choice(l)]. *)
Definition random_choice {A} (l : list A) : M World A :=
  match l with
  | [] => raise "Cannot choose from an empty sequence"
  | d :: _ => k <- randbelow (length l) ;; ret (nth k l d)
  end.

(** [random.randint(a, b)]. *)
Definition random_randint (a b : Z) : M World Z :=
  if b <? a then raise "empty range for randrange()"
  else k <- randbelow (Z.to_nat (b - a + 1)) ;; ret (a + Z.of_nat k).

(** [x[i], x[j] = x[j], x[i]]. *)
Definition swap {A} (i j : nat) (x : list A) : list A :=
  match x !! i, x !! j with
  | Some a, Some b => <[i:=b]> (<[j:=a]> x)
  | _, _ => x
  end.

(** [random.shuffle(x)]: for [i] from [len(x) - 1] down to 1, swap [x[i]]
    with [x[j]], [j] drawn below [i + 1]. *)
Fixpoint shuffle_from {A} (i : nat) (x : list A) : M World (list A) :=
  match i with
  | O => ret x
  | Datatypes.S i' => j <- randbelow (Datatypes.S i) ;; shuffle_from i' (swap i j x)
  end.

Definition random_shuffle {A} (x : list A) : M World (list A) :=
  shuffle_from (length x - 1)%nat x.

End Rpc.
End Rpc.

Import Rpc.

(** ** auto.py: the activity recipes *)

Module Auto.
Section Auto.
Variable node : Node.
Variable cfg : Config.
Variable f64 : Float64.

(** The account the recipe runs for: [Web3.to_checksum_address(wallet.address)]. *)
Variable wallet : address.

Fixpoint assoc (k : string) (l : list (string * address)) : option address :=
  match l with
  | [] => None
  | (k', a) :: l' => if String.eqb k k' then Some a else assoc k l'
  end.

(** [CONFIG['TOKENS'][name]], a [KeyError] when the name is missing. *)
Definition token (name : string) : M World address :=
  match assoc name (TOKENS cfg) with
  | Some a => ret a
  | None => raise ("'" +:+ name +:+ "'")
  end.

Definition max_uint256 : Z := 2 ^ 256 - 1.

(** The block every recipe repeats to get a call mined: read the pending
    nonce and the gas price, build and sign the transaction with the fixed
    gas limit, broadcast it, wait for the receipt.  Returns
    [tx_hash.hex()] and the receipt. *)
Definition submit (call : Call) (gas : Z) : M World (string * Receipt) :=
  nonce <- eth_call (GetTransactionCount wallet) ;;
  gasPrice <- eth_call GasPrice ;;
  let tx := {| tx_from := wallet; tx_nonce := nonce; tx_gas := gas;
               tx_gasPrice := gasPrice; tx_chainId := CHAIN_ID cfg;
               tx_call := call |} in
  tx_hash <- send_raw_transaction node tx ;;
  receipt <- sync_wait_for_tx_with_retry tx_hash ;;
  ret (tx_hash, receipt).

(** The approve-if-needed block, written out in [activity5_swap] (lines
    295-312), [activity6_add_liquidity] (363-382), [activity11_limit_order]
    and [activity17_batch_operations] with the same text; the owner is
    always the wallet. *)
Definition ensure_allowance (tok spender : address) (amount : Z) : M World unit :=
  allowance <- eth_call (Allowance tok wallet spender) ;;
  if allowance <? amount then
    _ <- submit (Approve tok spender max_uint256) 100000 ;;
    ret tt
  else ret tt.

Definition retryable_markers : list string :=
  ["timeout"; "connection"; "refused"; "502"; "503";
   "bad gateway"; "timed out"; "read timed out"].

(** [is_retryable] for the exception text [e]: one of the markers occurs
    in [str(e).lower()]. *)
Definition is_retryable (e : string) : bool :=
  let error_str := lower e in
  any_in retryable_markers error_str.

(** [range(n)]. *)
Definition range (n : Z) : list Z := map Z.of_nat (seq 0 (Z.to_nat n)).

(** The [for attempt in range(max_retries)] loop of [activity2_faucet]:
    the body answers [Some v] for [return v] and [None] for [continue]. *)
Fixpoint faucet_loop (max_retries : Z) (attempts : list Z) : M World value :=
  match attempts with
  | [] => ret None
  | attempt :: rest =>
      step <- try_catch
                (tempo_fundAddress node wallet ;;;
                 sleep 2 ;;;
                 ret (Some (Some "faucet")))
                (fun e =>
                   if (attempt <? max_retries - 1) && is_retryable e then
                     let wait_time := (attempt + 1) * 5 in
                     sleep (inject_Z wait_time) ;;;
                     ret None
                   else ret (Some None)) ;;
      match step with
      | Some v => ret v
      | None => faucet_loop max_retries rest
      end
  end.

Definition activity2_faucet (max_retries : Z) : M World value :=
  faucet_loop max_retries (range max_retries).

Definition suffix_alphabet : string := "ABCDEFGHIJKLMNOPQRSTUVWXYZ0123456789".

(** One character of [random.choices(ascii_uppercase + digits, k=4)]. *)
Definition random_suffix_char : M World string :=
  k <- randbelow (String.length suffix_alphabet) ;;
  ret (match String.get k suffix_alphabet with
       | Some c => String c EmptyString
       | None => EmptyString
       end).

(** The [for log in receipt.get('logs', [])] loop: the first log that
    decodes gives the result, a log that does not decode is passed over. *)
Fixpoint parse_token_created (ls : list Log) : value :=
  match ls with
  | [] => None
  | log :: ls' =>
      match process_log cfg log with
      | Some token_address => Some token_address
      | None => parse_token_created ls'
      end
  end.

(** [activity4_create_stablecoin]; the PathUSD address is looked up while
    the arguments of [createToken] are evaluated, after the nonce is read. *)
Definition activity4_create_stablecoin : M World value :=
  try_catch
    (c1 <- random_suffix_char ;; c2 <- random_suffix_char ;;
     c3 <- random_suffix_char ;; c4 <- random_suffix_char ;;
     let random_suffix := c1 +:+ c2 +:+ c3 +:+ c4 in
     let token_name := "Test Token " +:+ random_suffix in
     let token_symbol := "T" +:+ random_suffix +:+ "USD" in
     nonce <- eth_call (GetTransactionCount wallet) ;;
     path_usd <- token "PathUSD" ;;
     gasPrice <- eth_call GasPrice ;;
     let tx := {| tx_from := wallet; tx_nonce := nonce; tx_gas := 500000;
                  tx_gasPrice := gasPrice; tx_chainId := CHAIN_ID cfg;
                  tx_call := CreateToken token_name token_symbol "USD" path_usd wallet |} in
     tx_hash <- send_raw_transaction node tx ;;
     receipt <- sync_wait_for_tx_with_retry tx_hash ;;
     ret (parse_token_created (logs receipt)))
    (fun _ => ret None).

(** The part of [activity5_swap] after the quote is known.  When the quote
    is not positive the function body ends without a [return]. *)
Definition swap_on_quote (tin tout : address) (amount quote : Z) : M World value :=
  if 0 <? quote then
    let min_out := (quote * 99) / 100 in
    hr <- submit (SwapExactAmountIn tin tout amount min_out) 300000 ;;
    ret (Some (fst hr))
  else ret None.

Definition activity5_swap : M World value :=
  try_catch
    (let dex_address := STABLECOIN_DEX cfg in
     path_usd_address <- token "PathUSD" ;;
     let amount := 1 * 10 ^ 6 in
     ensure_allowance path_usd_address dex_address amount ;;;
     alpha_usd_address <- token "AlphaUSD" ;;
     quote <- eth_call (QuoteSwapExactAmountIn path_usd_address alpha_usd_address amount) ;;
     swap_on_quote path_usd_address alpha_usd_address amount quote)
    (fun _ => ret None).

(** [activity17_batch_operations]: the same approve, quote and swap with
    BetaUSD and half a token; its [else] branch returns [None]. *)
Definition activity17_batch_operations : M World value :=
  try_catch
    (let dex_address := STABLECOIN_DEX cfg in
     path_usd_address <- token "PathUSD" ;;
     let amount := 500000 in
     ensure_allowance path_usd_address dex_address amount ;;;
     beta_usd_address <- token "BetaUSD" ;;
     quote <- eth_call (QuoteSwapExactAmountIn path_usd_address beta_usd_address amount) ;;
     if 0 <? quote then
       let min_out := (quote * 99) / 100 in
       hr <- submit (SwapExactAmountIn path_usd_address beta_usd_address amount min_out) 300000 ;;
       ret (Some (fst hr))
     else ret None)
    (fun _ => ret None).

(** [token_names[0]] and [token_names[1]] after the shuffle. *)
Definition first_two (names : list (string * address))
  : M World ((string * address) * (string * address)) :=
  match names with
  | t1 :: t2 :: _ => ret (t1, t2)
  | _ => raise "list index out of range"
  end.

Definition activity6_add_liquidity : M World value :=
  try_catch
    (let fee_manager_address := FEE_MANAGER cfg in
     token_names <- random_shuffle (TOKENS cfg) ;;
     t12 <- first_two token_names ;;
     let token1_address := snd (fst t12) in
     let token2_address := snd (snd t12) in
     k <- random_randint 5 10 ;;
     let amount := k * 10 ^ 6 in
     ensure_allowance token1_address fee_manager_address amount ;;;
     hr <- submit (MintWithValidatorToken token1_address token2_address amount wallet) 500000 ;;
     ret (Some (fst hr)))
    (fun _ => ret None).

Definition ISSUER_ROLE : string := "ISSUER_ROLE".
Definition PAUSE_ROLE : string := "PAUSE_ROLE".

(** [if not token_address: return None] guards the three token recipes;
    past the guard the address is the string inside. *)
Definition address_of (token_address : value) : address :=
  match token_address with Some a => a | None => "" end.

Definition activity8_mint_tokens (token_address : value) : M World value :=
  if negb (truthy token_address) then ret None
  else
    let tok := address_of token_address in
    try_catch
      (needs_role <- try_catch
                       (has_role <- eth_call (HasRole tok ISSUER_ROLE wallet) ;;
                        ret (has_role =? 0))
                       (fun _ => ret true) ;;
       (if needs_role : bool then
          try_catch
            (_ <- submit (GrantRole tok ISSUER_ROLE wallet) 150000 ;;
             sleep 2)
            (fun _ => ret tt)
        else ret tt) ;;;
       let mint_amount := 1000 * 10 ^ 6 in
       hr <- submit (Mint tok wallet mint_amount) 200000 ;;
       ret (Some (fst hr)))
      (fun _ => ret None).

Definition burn_threshold : Z := 10 * 10 ^ 6.

Definition activity9_burn_tokens (token_address : value) : M World value :=
  if negb (truthy token_address) then ret None
  else
    let tok := address_of token_address in
    try_catch
      (balance <- eth_call (BalanceOf tok wallet) ;;
       if burn_threshold <=? balance then
         let burn_amount := 10 * 10 ^ 6 in
         hr <- submit (Burn tok burn_amount) 150000 ;;
         ret (Some (fst hr))
       else ret (Some "skipped: low balance"))
      (fun _ => ret None).

Definition activity13_grant_role (token_address : value) : M World value :=
  if negb (truthy token_address) then ret None
  else
    let tok := address_of token_address in
    try_catch
      (has_role <- eth_call (HasRole tok PAUSE_ROLE wallet) ;;
       if has_role =? 0 then
         hr <- submit (GrantRole tok PAUSE_ROLE wallet) 150000 ;;
         ret (Some (fst hr))
       else ret None)
      (fun _ => ret None).

(** An entry of [pools_with_balance]. *)
Record Pool : Type := {
  token1_name : string;
  token2_name : string;
  token1_addr : address;
  token2_addr : address;
  lp_balance : Z
}.

(** The index pairs [i < j] of the two nested [for] loops, in loop order. *)
Fixpoint pairs {A} (l : list A) : list (A * A) :=
  match l with
  | [] => []
  | x :: xs => map (pair x) xs ++ pairs xs
  end.

(** The body of the nested loops of [activity12_remove_liquidity] over the
    remaining pairs: a pool whose reads raise is passed over. *)
Fixpoint scan_pools (ps : list ((string * address) * (string * address)))
                    (pools_with_balance : list Pool) : M World (list Pool) :=
  match ps with
  | [] => ret pools_with_balance
  | (t1, t2) :: rest =>
      pools <- try_catch
                 (pool_id <- eth_call (GetPoolId (snd t1) (snd t2)) ;;
                  lp <- eth_call (LiquidityBalances pool_id wallet) ;;
                  if 0 <? lp then
                    ret (pools_with_balance ++
                         [{| token1_name := fst t1; token2_name := fst t2;
                             token1_addr := snd t1; token2_addr := snd t2;
                             lp_balance := lp |}])
                  else ret pools_with_balance)
                 (fun _ => ret pools_with_balance) ;;
      scan_pools rest pools
  end.

Definition min_withdraw : Z := 100000.

(** The amount withdrawn from a position: the scaled balance, raised to
    the minimum, capped by the balance. *)
Definition withdraw_amount (lp percent : Z) : Z :=
  Py.min (Py.max (scale_percent f64 lp percent) min_withdraw) lp.

Definition activity12_remove_liquidity : M World value :=
  try_catch
    (pools_with_balance <- scan_pools (pairs (TOKENS cfg)) [] ;;
     match pools_with_balance with
     | [] => ret (Some "skipped: no lp")
     | _ :: _ =>
         selected_pool <- random_choice pools_with_balance ;;
         let lp := lp_balance selected_pool in
         if lp <? min_withdraw then ret (Some "skipped: low balance")
         else
           percent <- random_randint 20 50 ;;
           hr <- submit (FeeManagerBurn (token1_addr selected_pool)
                                        (token2_addr selected_pool)
                                        (withdraw_amount lp percent) wallet) 500000 ;;
           ret (Some (fst hr))
     end)
    (fun _ => ret None).

(** ** auto.py: the per-wallet sweep of [run_auto_mode] *)

(** An entry of the [activities] list; [fn] is the closure. *)
Record activity : Type := {
  id : Z;
  name : string;
  fn : M World value
}.

(** Lines 1053-1081: what the sweep does with the value bound to
    [created_token]. *)
Definition after_create (created_token : value) : M World unit :=
  if truthy created_token then ret tt
  else
    sleep 3 ;;;
    mint_result <- activity8_mint_tokens created_token ;;
    sleep 2 ;;;
    burn_result <- activity9_burn_tokens created_token ;;
    sleep 2 ;;;
    role_result <- activity13_grant_role created_token ;;
    ret tt.

Definition member (x : Z) (l : list Z) : bool := existsb (Z.eqb x) l.

(** One iteration of [for j in range(len(shuffled))]. *)
Definition sweep_step (act : activity) : M World unit :=
  try_catch
    ((if id act =? 4 then
        r <- fn act ;;
        created_token <- of_result (await r) ;;
        after_create created_token
      else if member (id act) [8; 9; 13] then ret tt
      else if member (id act) [15; 18] then ret tt
      else
        result <- fn act ;;
        ret tt) ;;;
     delay <- random_randint 2000 5000 ;;
     sleep (truediv f64 delay 1000))
    (fun _ => ret tt).

Fixpoint sweep_loop (shuffled : list activity) : M World unit :=
  match shuffled with
  | [] => ret tt
  | act :: rest => sweep_step act ;;; sweep_loop rest
  end.

(** [shuffle_array] followed by the loop over the shuffled list. *)
Definition sweep (activities : list activity) : M World unit :=
  shuffled <- random_shuffle activities ;;
  sweep_loop shuffled.

(** The entry with id 4 of the [activities] list. *)
Definition create_stablecoin_entry : activity :=
  {| id := 4; name := "Create stablecoin"; fn := activity4_create_stablecoin |}.

End Auto.
End Auto.

Arguments Auto.max_uint256 : simpl never.

(** ** smart.py: the decision engine of [SmartWallet] *)

Module Smart.

(** The closure stored under ['fn'] in the dict that
    [decide_next_action] returns. *)
Inductive Fn : Type :=
| FnFaucet
| FnWrapCreateToken
| FnSwap
| FnInfinityName
| FnAddLiquidity
| FnTip403Policies (my_tokens : list (string * string))
| FnAnalytics
| FnMintTokens (token : string)
| FnBurnTokens (token : string)
| FnDeploy
| FnNft
| FnSendTokens
| FnLimitOrder
| FnRetrieverNft
| FnBatchOperations.

(** The ['reason'] entry; the two formatted reasons keep the number that
    the f-string prints. *)
Inductive Reason : Type :=
| Text (s : string)
| LowEth (eth : Q)
| BalancingPortfolio (path : Q).

Record Action : Type := {
  name : string;
  fn : Fn;
  reason : Reason
}.

(** The fields of [self] that the decision reads or writes, with the world
    behind [self.web3]. *)
Record SmartWallet : Type := {
  address_ : address;
  balances : gmap string Q;
  created_tokens : list string;
  should_recover_faucet : bool;
  world : World
}.

Definition set_world (w : World) (self : SmartWallet) : SmartWallet :=
  {| address_ := address_ self; balances := balances self;
     created_tokens := created_tokens self;
     should_recover_faucet := should_recover_faucet self; world := w |}.

Definition set_balance (k : string) (v : Q) (self : SmartWallet) : SmartWallet :=
  {| address_ := address_ self; balances := <[k:=v]> (balances self);
     created_tokens := created_tokens self;
     should_recover_faucet := should_recover_faucet self; world := world self |}.

Definition set_should_recover_faucet (b : bool) (self : SmartWallet) : SmartWallet :=
  {| address_ := address_ self; balances := balances self;
     created_tokens := created_tokens self;
     should_recover_faucet := b; world := world self |}.

(** Run a node operation on [self.web3]. *)
Definition lift {A} (m : M World A) : M SmartWallet A := fun self =>
  let o := m (world self) in
  Outcome (res o) (set_world (post o) self) (events o).

(** Float literals of the decision rules, as the exact values of their
    binary64 representations. *)
Definition f2_0 : Q := 2.
Definition f0_15 : Q := 5404319552844595 # 36028797018963968.
Definition f0_1 : Q := 3602879701896397 # 36028797018963968.
Definition f0_3 : Q := 5404319552844595 # 18014398509481984.
Definition f0_05 : Q := 3602879701896397 # 72057594037927936.
Definition f0_4 : Q := 3602879701896397 # 9007199254740992.
Definition f0_6 : Q := 5404319552844595 # 9007199254740992.

(** [a < b] on numbers. *)
Definition Qltb (a b : Q) : bool := negb (Qle_bool b a).

Section Smart.
Variable cfg : Config.
Variable f64 : Float64.

(** Modelled from the spec: [load_created_tokens] of [utils.wallet] is not
    among the sources.  Following sections 3 and 6 it reads the
    created-asset record, rows of (token address, symbol) keyed by owning
    account; an account without rows has the empty list. *)
Variable load_created_tokens : address -> list (string * string).

Definition stable_symbols : list string :=
  ["PathUSD"; "AlphaUSD"; "BetaUSD"; "ThetaUSD"].

(** The [for symbol in [...]] loop of [update_balances]. *)
Fixpoint update_token_balances (symbols : list string) : M SmartWallet unit :=
  match symbols with
  | [] => ret tt
  | symbol :: rest =>
      self <- get ;;
      (match Auto.assoc symbol (TOKENS cfg) with
       | Some token_addr =>
           if truthy (Some token_addr) then
             bal <- lift (eth_call (BalanceOf token_addr (address_ self))) ;;
             self' <- get ;;
             put (set_balance symbol (truediv f64 bal (10 ^ 6)) self')
           else ret tt
       | None => ret tt
       end) ;;;
      update_token_balances rest
  end.

Definition update_balances : M SmartWallet unit :=
  try_catch
    (self <- get ;;
     eth_balance <- lift (eth_call (GetBalance (address_ self))) ;;
     self' <- get ;;
     put (set_balance "ETH" (truediv f64 eth_balance (10 ^ 18)) self') ;;;
     update_token_balances stable_symbols)
    (fun _ =>
       self <- get ;;
       put (set_balance "ETH" 0%Q self)).

(** [self.balances.get(k, 0)]. *)
Definition balance (self : SmartWallet) (k : string) : Q :=
  default 0%Q (balances self !! k).

(** [c and random.random() < p]: the draw happens only when [c] holds. *)
Definition and_random_lt (c : bool) (p : Q) : M SmartWallet bool :=
  if c then r <- lift random_random ;; ret (Qltb r p) else ret false.

Definition fallback_options : list Action :=
  [ {| name := "Deploy Contract"; fn := FnDeploy; reason := Text "Random activity" |};
    {| name := "NFT Mint"; fn := FnNft; reason := Text "Random activity" |};
    {| name := "Send Dust"; fn := FnSendTokens; reason := Text "Random activity" |};
    {| name := "Limit Order"; fn := FnLimitOrder; reason := Text "Random activity" |};
    {| name := "Retriever NFT"; fn := FnRetrieverNft; reason := Text "Random activity" |};
    {| name := "Batch Operations"; fn := FnBatchOperations; reason := Text "Random activity" |} ].

Definition faucet_recovery : Action :=
  {| name := "Faucet Claim (Recovery)"; fn := FnFaucet;
     reason := Text "Recovering from Insufficient Funds" |}.

Definition swap_action (path : Q) : Action :=
  {| name := "Swap PathUSD -> Stable"; fn := FnSwap;
     reason := BalancingPortfolio path |}.

(** The rules of [decide_next_action] from priority 2 on. *)
Definition rules_after_faucet (path alpha beta : Q) : M SmartWallet Action :=
  create <- and_random_lt true f0_15 ;;
  if create : bool then
    ret {| name := "Deploy New Token"; fn := FnWrapCreateToken;
           reason := Text "Building portfolio" |}
  else if Qltb 10 path && (Qltb alpha 5 || Qltb beta 5) then
    ret (swap_action path)
  else
  infinity <- and_random_lt (Qltb 1000 path) f0_1 ;;
  if infinity : bool then
    ret {| name := "Infinity Name Register"; fn := FnInfinityName;
           reason := Text "Domain registration" |}
  else
  add <- and_random_lt (Qltb 5 path && Qltb 5 alpha) f0_3 ;;
  if add : bool then
    ret {| name := "Add Liquidity"; fn := FnAddLiquidity;
           reason := Text "Capital efficiency" |}
  else
  self <- get ;;
  let my_tokens := load_created_tokens (address_ self) in
  policy <- and_random_lt (negb (Nat.eqb (length my_tokens) 0)) f0_1 ;;
  if policy : bool then
    ret {| name := "TIP-403 Policy"; fn := FnTip403Policies my_tokens;
           reason := Text "Security policy" |}
  else
  analytics <- and_random_lt true f0_05 ;;
  if analytics : bool then
    ret {| name := "Analytics & Stats"; fn := FnAnalytics;
           reason := Text "Monitoring" |}
  else
  own <- and_random_lt (negb (Nat.eqb (length (created_tokens self)) 0)) f0_4 ;;
  if own : bool then
    tok <- lift (random_choice (created_tokens self)) ;;
    r <- lift random_random ;;
    let is_mint := Qltb r f0_6 in
    if is_mint then
      ret {| name := "Mint Own Token"; fn := FnMintTokens tok;
             reason := Text "Managing own asset" |}
    else
      ret {| name := "Burn Own Token"; fn := FnBurnTokens tok;
             reason := Text "Burning supply" |}
  else
  lift (random_choice fallback_options).

Definition decide_next_action : M SmartWallet Action :=
  self <- get ;;
  if should_recover_faucet self then
    put (set_should_recover_faucet false self) ;;;
    ret faucet_recovery
  else
    update_balances ;;;
    self <- get ;;
    let eth := balance self "ETH" in
    let path := balance self "PathUSD" in
    let alpha := balance self "AlphaUSD" in
    let beta := balance self "BetaUSD" in
    if Qltb eth f2_0 then
      ret {| name := "Faucet Claim (Low Balance)"; fn := FnFaucet;
             reason := LowEth eth |}
    else rules_after_faucet path alpha beta.

End Smart.
End Smart.

(** ** Observations on event lists *)

(** The calls of the transactions the recipe tried to broadcast, in order. *)
Fixpoint sent_calls (evs : list Event) : list Call :=
  match evs with
  | [] => []
  | EvSend tx _ :: evs' => tx_call tx :: sent_calls evs'
  | _ :: evs' => sent_calls evs'
  end.

Definition is_approve (c : Call) : bool :=
  match c with Approve _ _ _ => true | _ => false end.

(** The approvals among the broadcast transactions. *)
Definition approvals (evs : list Event) : list Call :=
  List.filter is_approve (sent_calls evs).

(** The durations of the sleeps, in order. *)
Fixpoint sleeps (evs : list Event) : list Q :=
  match evs with
  | [] => []
  | EvSleep s :: evs' => s :: sleeps evs'
  | _ :: evs' => sleeps evs'
  end.

(** The number of faucet requests made. *)
Fixpoint faucet_requests (evs : list Event) : nat :=
  match evs with
  | [] => O
  | EvFaucet _ _ :: evs' => Datatypes.S (faucet_requests evs')
  | _ :: evs' => faucet_requests evs'
  end.

(** The token contract honours [approve]: once an approval is mined with
    success status, the allowance of (owner, spender) reads as the approved
    amount. *)
Definition honours_approve (node : Node) : Prop :=
  forall (c : Chain) (tx : TxIntent) (tok spender : address) (amount : Z),
    tx_call tx = Approve tok spender amount ->
    status (snd (mine node c tx)) = true ->
    fst (mine node c tx) (Allowance tok (tx_from tx) spender) = amount.

(** Every transaction broadcast during a run that started on chain [c] was
    mined with success status. *)
Definition mined_ok {A} (node : Node) (c : Chain) (o : outcome World A) : Prop :=
  forall tx h, In (EvSend tx (Ok h)) (events o) ->
               status (snd (mine node c tx)) = true.

(** No RPC call of the run raises. *)
Definition calm (w : World) : Prop := faults w = [].

(** ** A small test network *)

Module Demo.

Definition path_usd : address := "0x20c0000000000000000000000000000000000000".
Definition alpha_usd : address := "0x20c0000000000000000000000000000000000001".
Definition beta_usd : address := "0x20c0000000000000000000000000000000000002".
Definition theta_usd : address := "0x20c0000000000000000000000000000000000003".
Definition dex : address := "0xdec0000000000000000000000000000000000000".
Definition fee_manager : address := "0xfeec000000000000000000000000000000000000".
Definition factory : address := "0x20fc000000000000000000000000000000000000".
Definition new_token : address := "0x20c0000000000000000000000000000000000abc".
Definition alice : address := "0xa11ce00000000000000000000000000000000000".

Definition cfg : Config :=
  {| TOKENS := [("PathUSD", path_usd); ("AlphaUSD", alpha_usd);
                ("BetaUSD", beta_usd); ("ThetaUSD", theta_usd)];
     CHAIN_ID := 42429;
     STABLECOIN_DEX := dex;
     FEE_MANAGER := fee_manager;
     TIP20_FACTORY := factory;
     process_log := fun log =>
       match log_topics log with
       | "TokenCreated" :: tok :: _ => Some tok
       | _ => None
       end |}.

(** Exact arithmetic in place of the binary64 operations. *)
Definition f64 : Float64 :=
  {| truediv := fun a b => Qmake a (Z.to_pos b);
     scale_percent := fun n p => n * p / 100 |}.

Definition receipt_of (h : string) (ls : list Log) : Receipt :=
  {| transactionHash := h; status := true; logs := ls; contractAddress := None |}.

Definition set_allowance (c : Chain) (tok owner spender : address) (v : Z) : Chain :=
  fun q =>
    match q with
    | Allowance t o s =>
        if String.eqb t tok && String.eqb o owner && String.eqb s spender
        then v else c q
    | _ => c q
    end.

Definition token_created_log : Log :=
  {| log_address := factory; log_topics := ["TokenCreated"; new_token];
     log_data := "" |}.

Definition transfer_log : Log :=
  {| log_address := path_usd; log_topics := ["Transfer"]; log_data := "" |}.

(** A node whose factory emits the creation event. *)
Definition node : Node :=
  {| mine := fun c tx =>
       match tx_call tx with
       | Approve tok spender amount =>
           (set_allowance c tok (tx_from tx) spender amount, receipt_of "0xa99" [])
       | CreateToken _ _ _ _ _ =>
           (c, receipt_of "0xc4ea" [transfer_log; token_created_log])
       | _ => (c, receipt_of "0x7e57" [])
       end;
     fund := fun c _ => c |}.

(** A node whose factory receipt carries no creation event. *)
Definition node_without_event : Node :=
  {| mine := fun c tx => (c, receipt_of "0x7e57" [transfer_log]);
     fund := fun c _ => c |}.

(** 5 native units, 20 PathUSD, 1 of every other token, no allowance, a
    quote of 0.99 for one unit, a position of 3 LP in the first pool. *)
Definition chain0 : Chain := fun q =>
  match q with
  | GetBalance _ => 5 * 10 ^ 18
  | BalanceOf tok _ => if String.eqb tok path_usd then 20 * 10 ^ 6 else 1 * 10 ^ 6
  | QuoteSwapExactAmountIn _ _ a => a * 99 / 100
  | GetPoolId t1 t2 => if String.eqb t1 path_usd && String.eqb t2 alpha_usd then 1 else 2
  | LiquidityBalances pool _ => if pool =? 1 then 3 * 10 ^ 6 else 0
  | GetTransactionCount _ => 7
  | GasPrice => 1000
  | _ => 0
  end.

(** The same chain with an empty order book: every quote is zero. *)
Definition chain_no_liquidity : Chain := fun q =>
  match q with
  | QuoteSwapExactAmountIn _ _ _ => 0
  | Allowance _ _ _ => 2 ^ 256 - 1
  | _ => chain0 q
  end.

Definition world_of (c : Chain) (fs : list (option string))
                    (rs : list Q) (ks : list nat) : World :=
  {| chain := c; faults := fs; receipts := [];
     rand_floats := rs; rand_ints := ks |}.

Definition world0 : World := world_of chain0 [] [] [].

(** Three gateway time-outs in a row. *)
Definition world_timeouts : World :=
  world_of chain0 [Some "504 Gateway Timeout"; Some "Read timed out.";
                   Some "HTTPConnectionPool: connection refused"] [] [].

Definition wallet_of (w : World) (flag : bool) : Smart.SmartWallet :=
  {| Smart.address_ := alice; Smart.balances := ∅;
     Smart.created_tokens := []; Smart.should_recover_faucet := flag;
     Smart.world := w |}.

Definition no_tokens : address -> list (string * string) := fun _ => [].

End Demo.

(** ** auto.py: wallet selection *)

From stdpp Require Import sorting.

Local Open Scope Z_scope.

Module Selection.

(** The [ValueError]s of [parse_wallet_selection]: from [int(s)], and from
    unpacking the pieces of a range into [start, end]. *)
Inductive ValueError : Type :=
| InvalidLiteral (s : string)
| TooManyValues
| NotEnoughValues.

Inductive parsed (A : Type) : Type :=
| Parsed (a : A)
| Failed (e : ValueError).
Arguments Parsed {A} a.
Arguments Failed {A} e.

(** [c.isspace()] for an ASCII character. *)
Definition is_space (c : ascii) : bool :=
  let n := nat_of_ascii c in
  (((9 <=? n) && (n <=? 13)) || ((28 <=? n) && (n <=? 32)))%nat.

(** [s.lstrip()], [s.rstrip()] and [s.strip()]; input is taken to be ASCII. *)
Fixpoint lstrip (s : string) : string :=
  match s with
  | EmptyString => EmptyString
  | String c s' => if is_space c then lstrip s' else s
  end.

Fixpoint rstrip (s : string) : string :=
  match s with
  | EmptyString => EmptyString
  | String c s' =>
      match rstrip s' with
      | EmptyString => if is_space c then EmptyString else String c EmptyString
      | r => String c r
      end
  end.

Definition strip (s : string) : string := lstrip (rstrip s).

(** [s.replace(' ', '')]. *)
Fixpoint remove_spaces (s : string) : string :=
  match s with
  | EmptyString => EmptyString
  | String c s' => if Ascii.eqb c " " then remove_spaces s' else String c (remove_spaces s')
  end.

(** [s.split(sep)] for a one-character separator. *)
Fixpoint split (sep : ascii) (s : string) : list string :=
  match s with
  | EmptyString => [EmptyString]
  | String c s' =>
      if Ascii.eqb c sep then EmptyString :: split sep s'
      else match split sep s' with
           | h :: t => String c h :: t
           | [] => [String c EmptyString]
           end
  end.

Section Selection.

(** [int(s)], the builtin: [None] where it raises [ValueError].  Kept
    abstract. *)
Variable int : string -> option Z.

Definition int_or_fail (s : string) : parsed Z :=
  match int s with
  | Some n => Parsed n
  | None => Failed (InvalidLiteral s)
  end.

(** [start, end = map(int, part.split('-'))]: the pieces are converted one
    by one while the two targets are filled, and one more is asked for to
    see that none is left. *)
Definition unpack_range (pieces : list string) : parsed (Z * Z) :=
  match pieces with
  | [] => Failed NotEnoughValues
  | a :: rest =>
      match int_or_fail a with
      | Failed e => Failed e
      | Parsed start =>
          match rest with
          | [] => Failed NotEnoughValues
          | b :: rest' =>
              match int_or_fail b with
              | Failed e => Failed e
              | Parsed end_ =>
                  match rest' with
                  | [] => Parsed (start, end_)
                  | c :: _ =>
                      match int_or_fail c with
                      | Failed e => Failed e
                      | Parsed _ => Failed TooManyValues
                      end
                  end
              end
          end
      end
  end.

(** The [for part in parts] loop; [selected] is the set built so far. *)
Fixpoint select_parts (total_wallets : Z) (parts : list string)
                      (selected : gset Z) : parsed (gset Z) :=
  match parts with
  | [] => Parsed selected
  | part :: rest =>
      if contains "-" part then
        match unpack_range (split "-" part) with
        | Failed e => Failed e
        | Parsed (start, end_) =>
            if (start <? 1) || (total_wallets <? end_) || (end_ <? start) then
              select_parts total_wallets rest selected
            else
              select_parts total_wallets rest
                (selected ∪ list_to_set (seqZ start (end_ + 1 - start)))
        end
      else
        match int part with
        | Some num =>
            if (num <? 1) || (total_wallets <? num) then
              select_parts total_wallets rest selected
            else select_parts total_wallets rest (selected ∪ {[ num ]})
        | None => select_parts total_wallets rest selected
        end
  end.

(** [sorted([n - 1 for n in selected])]. *)
Definition zero_based_sorted (selected : gset Z) : list Z :=
  merge_sort Z.le ((fun n => n - 1) <$> elements selected).

Definition parts_of (input_str : string) : list string :=
  split "," (remove_spaces (strip input_str)).

Definition parse_wallet_selection (input_str : string) (total_wallets : Z)
  : parsed (list Z) :=
  match select_parts total_wallets (parts_of input_str) ∅ with
  | Parsed selected => Parsed (zero_based_sorted selected)
  | Failed e => Failed e
  end.

(** The choice of [selected_indices] in [run_auto_mode]: ['all'] selects
    [range(len(private_keys))], anything else is parsed. *)
Definition selected_indices (selection : string) (total_wallets : Z)
  : parsed (list Z) :=
  if String.eqb (strip (lower selection)) "all" then Parsed (Auto.range total_wallets)
  else parse_wallet_selection selection total_wallets.

(** What one part of the selection stands for: the wallet numbers it
    names, when it is well formed and within bounds. *)
Definition names (total_wallets : Z) (part : string) (n : Z) : Prop :=
  if contains "-" part then
    exists start end_,
      unpack_range (split "-" part) = Parsed (start, end_) /\
      1 <= start /\ start <= n /\ n <= end_ /\ end_ <= total_wallets
  else int part = Some n /\ 1 <= n <= total_wallets.

End Selection.
End Selection.

(** ** smart.py: the create-token wrapper *)

Module SmartRecipes.
Section SmartRecipes.
Variable node : Node.
Variable cfg : Config.

(** Modelled from the spec: [save_created_token] of [utils.wallet] is not
    among the sources.  Following sections 3 and 6 it appends a row (owner,
    token address, symbol) to the created-asset record; it may fail. *)
Variable save_created_token : address -> string -> string -> M World unit.

Definition set_created_tokens (l : list string) (self : Smart.SmartWallet)
  : Smart.SmartWallet :=
  {| Smart.address_ := Smart.address_ self; Smart.balances := Smart.balances self;
     Smart.created_tokens := l;
     Smart.should_recover_faucet := Smart.should_recover_faucet self;
     Smart.world := Smart.world self |}.

(** [SmartWallet._wrap_create_token]. *)
Definition wrap_create_token : M Smart.SmartWallet value :=
  self <- get ;;
  token <- Smart.lift (Auto.activity4_create_stablecoin node cfg (Smart.address_ self)) ;;
  if truthy token then
    self' <- get ;;
    put (set_created_tokens (Smart.created_tokens self' ++ [Auto.address_of token]) self') ;;;
    Smart.lift (save_created_token (Smart.address_ self) (Auto.address_of token) "TUSD-GEN") ;;;
    ret token
  else ret token.

End SmartRecipes.
End SmartRecipes.

(** ** Observations on the decision engine *)

(** Nothing but read calls: no broadcast, no faucet request, no sleep. *)
Definition reads_only (evs : list Event) : Prop :=
  Forall (fun ev => match ev with EvRead _ _ => True | _ => False end) evs.

(** [self'] is [self] after reads and balance updates only: same account,
    same history, same recovery flag, same chain, same receipts and same
    pending random draws.  The cached balances and the fault script may
    differ. *)
Definition refreshed_from (self self' : Smart.SmartWallet) : Prop :=
  Smart.address_ self' = Smart.address_ self /\
  Smart.created_tokens self' = Smart.created_tokens self /\
  Smart.should_recover_faucet self' = Smart.should_recover_faucet self /\
  chain (Smart.world self') = chain (Smart.world self) /\
  receipts (Smart.world self') = receipts (Smart.world self) /\
  rand_floats (Smart.world self') = rand_floats (Smart.world self) /\
  rand_ints (Smart.world self') = rand_ints (Smart.world self).

(** [self'] is [self] after random draws only: nothing differs but the
    pending draws. *)
Definition drew_from (self self' : Smart.SmartWallet) : Prop :=
  Smart.address_ self' = Smart.address_ self /\
  Smart.balances self' = Smart.balances self /\
  Smart.created_tokens self' = Smart.created_tokens self /\
  Smart.should_recover_faucet self' = Smart.should_recover_faucet self /\
  chain (Smart.world self') = chain (Smart.world self) /\
  faults (Smart.world self') = faults (Smart.world self) /\
  receipts (Smart.world self') = receipts (Smart.world self).

(** What must hold of the balances [path], [alpha], [beta] and of the
    wallet for the rules from priority 2 on to have chosen [act]. *)
Definition guard_holds (load_created_tokens : address -> list (string * string))
           (path alpha beta : Q) (self : Smart.SmartWallet) (act : Smart.Action) : Prop :=
  match Smart.fn act with
  | Smart.FnFaucet => False
  | Smart.FnSwap => (10 < path)%Q /\ ((alpha < 5)%Q \/ (beta < 5)%Q)
  | Smart.FnInfinityName => (1000 < path)%Q /\ (5 <= alpha)%Q /\ (5 <= beta)%Q
  | Smart.FnAddLiquidity => (5 < path)%Q /\ (5 < alpha)%Q
  | Smart.FnTip403Policies my_tokens =>
      my_tokens = load_created_tokens (Smart.address_ self) /\ my_tokens <> []
  | Smart.FnMintTokens tok | Smart.FnBurnTokens tok => In tok (Smart.created_tokens self)
  | _ => True
  end.

(** ** More of the test network *)

Module Samples.

(** Decimal digits only, in place of [int]. *)
Fixpoint digits (s : string) (acc : Z) : option Z :=
  match s with
  | EmptyString => Some acc
  | String c s' =>
      let n := nat_of_ascii c in
      if ((48 <=? n) && (n <=? 57))%nat then digits s' (acc * 10 + Z.of_nat (n - 48))
      else None
  end.

Definition int (s : string) : option Z :=
  match s with
  | EmptyString => None
  | _ => digits s 0
  end.

(** A record store that accepts every row. *)
Definition save_ok : address -> string -> string -> M World unit :=
  fun _ _ _ => ret tt.

(** The issuer role is held, the pause role is not. *)
Definition chain_issuer : Chain := fun q =>
  match q with
  | HasRole _ role _ => if String.eqb role "ISSUER_ROLE" then 1 else 0
  | _ => Demo.chain0 q
  end.

(** Positions of 0.05 LP everywhere: below the minimum withdrawal. *)
Definition chain_dust : Chain := fun q =>
  match q with
  | LiquidityBalances _ _ => 50000
  | _ => Demo.chain0 q
  end.

(** 1.5 native units and no stablecoins. *)
Definition chain_low_native : Chain := fun q =>
  match q with
  | GetBalance _ => 15 * 10 ^ 17
  | BalanceOf _ _ => 0
  | _ => Demo.chain0 q
  end.

Definition deploy_entry (recipe : M World value) : Auto.activity :=
  {| Auto.id := 1; Auto.name := "Deploy contract"; Auto.fn := recipe |}.

End Samples.

(** * Properties *)

(** ** Facts about the monad *)

Section MonadFacts.
Context {S : Type}.

Lemma events_bind {A B} (m : M S A) (k : A -> M S B) (s : S) :
  events (bind m k s) =
  events (m s) ++ match res (m s) with
                  | Ok a => events (k a (post (m s)))
                  | Raise _ => []
                  end.
Proof.
  unfold bind. destruct (res (m s)); cbn; [reflexivity|].
  now rewrite app_nil_r.
Qed.

Lemma events_try_catch {A} (m : M S A) (h : string -> M S A) (s : S) :
  events (try_catch m h s) =
  events (m s) ++ match res (m s) with
                  | Ok _ => []
                  | Raise e => events (h e (post (m s)))
                  end.
Proof.
  unfold try_catch. destruct (res (m s)); cbn; [|reflexivity].
  now rewrite app_nil_r.
Qed.

Lemma in_events_bind {A B} (m : M S A) (k : A -> M S B) (s : S) (ev : Event) :
  In ev (events (bind m k s)) ->
  In ev (events (m s)) \/
  exists a, res (m s) = Ok a /\ In ev (events (k a (post (m s)))).
Proof.
  rewrite events_bind. intros H. apply in_app_or in H as [H|H]; [now left|].
  destruct (res (m s)) as [a|e]; [right; eauto | destruct H].
Qed.

Lemma in_events_try_catch {A} (m : M S A) (h : string -> M S A) (s : S) (ev : Event) :
  In ev (events (try_catch m h s)) ->
  In ev (events (m s)) \/
  exists e, res (m s) = Raise e /\ In ev (events (h e (post (m s)))).
Proof.
  rewrite events_try_catch. intros H. apply in_app_or in H as [H|H]; [now left|].
  destruct (res (m s)) as [a|e]; [destruct H | right; eauto].
Qed.

Lemma res_bind {A B} (m : M S A) (k : A -> M S B) (s : S) :
  res (bind m k s) = match res (m s) with
                     | Ok a => res (k a (post (m s)))
                     | Raise e => Raise e
                     end.
Proof. unfold bind. now destruct (res (m s)). Qed.

Lemma post_bind {A B} (m : M S A) (k : A -> M S B) (s : S) :
  post (bind m k s) = match res (m s) with
                      | Ok a => post (k a (post (m s)))
                      | Raise e => post (m s)
                      end.
Proof. unfold bind. now destruct (res (m s)). Qed.

Lemma res_try_catch {A} (m : M S A) (h : string -> M S A) (s : S) :
  res (try_catch m h s) = match res (m s) with
                          | Ok a => Ok a
                          | Raise e => res (h e (post (m s)))
                          end.
Proof. unfold try_catch. now destruct (res (m s)) eqn:E. Qed.

Lemma events_try_catch_ret {A} (m : M S A) (a : A) (s : S) :
  events (try_catch m (fun _ => ret a) s) = events (m s).
Proof.
  rewrite events_try_catch. destruct (res (m s)); cbn; now rewrite app_nil_r.
Qed.

Lemma res_try_catch_ret {A} (m : M S A) (a : A) (s : S) :
  res (try_catch m (fun _ => ret a) s) =
  match res (m s) with Ok x => Ok x | Raise _ => Ok a end.
Proof. rewrite res_try_catch. now destruct (res (m s)). Qed.

Lemma bind_get {A} (k : S -> M S A) (s : S) :
  bind get k s = Outcome (res (k s s)) (post (k s s)) (events (k s s)).
Proof. reflexivity. Qed.

(** A [try] whose handler returns a value never raises. *)
Lemma try_catch_returns {A} (m : M S A) (h : string -> M S A) (s : S) :
  (forall e s', exists a, res (h e s') = Ok a) ->
  exists a, res (try_catch m h s) = Ok a.
Proof.
  intros Hh. rewrite res_try_catch. destruct (res (m s)); eauto.
Qed.

End MonadFacts.

(** ** Facts about the RPC primitives *)

Section RpcFacts.
Variable node : Node.
Variable cfg : Config.
Variable wallet : address.

Lemma in_events_eth_call q w ev :
  In ev (events (eth_call q w)) -> exists r, ev = EvRead q r.
Proof.
  unfold eth_call. destruct (next_fault w); cbn; intros [<-|[]]; eauto.
Qed.

Lemma events_token name w : events (Auto.token cfg name w) = [].
Proof. unfold Auto.token. now destruct (Auto.assoc _ _). Qed.

Lemma post_token name w : post (Auto.token cfg name w) = w.
Proof. unfold Auto.token. now destruct (Auto.assoc _ _). Qed.

Lemma sent_calls_eth_call q w : sent_calls (events (eth_call q w)) = [].
Proof. unfold eth_call. now destruct (next_fault w). Qed.

(** A transaction broadcast by [submit] carries the call it was given and
    is sent from the wallet; the other events are reads and the wait. *)
Lemma in_events_submit call gas w ev :
  In ev (events (Auto.submit node cfg wallet call gas w)) ->
  match ev with
  | EvSend tx _ => tx_call tx = call /\ tx_from tx = wallet
  | EvRead q _ => q = GetTransactionCount wallet \/ q = GasPrice
  | EvWait _ => True
  | _ => False
  end.
Proof.
  destruct w as [c fs rcs rf ri].
  destruct fs as [|[e1|] [|[e2|] [|[e3|] [|[e4|] fs]]]];
    cbv -[String.eqb In]; rewrite ?String.eqb_refl; cbn [In];
    intuition (subst; auto).
Qed.

Lemma sent_calls_app evs evs' :
  sent_calls (evs ++ evs') = sent_calls evs ++ sent_calls evs'.
Proof.
  induction evs as [|[] evs IH]; cbn; rewrite ?IH; reflexivity.
Qed.

Lemma in_sent_calls evs c :
  In c (sent_calls evs) <-> exists tx r, In (EvSend tx r) evs /\ tx_call tx = c.
Proof.
  induction evs as [|ev evs IH]; cbn.
  - split; [tauto | intros (?&?&[]&_)].
  - destruct ev; cbn; rewrite ?IH; split.
    all: try (intros (tx'&r'&H&E); exists tx', r'; split; [now right | exact E]).
    all: try (intros (tx'&r'&[H|H]&E); [discriminate H | exists tx', r'; split; assumption]).
    + intros [E|(tx'&r'&H&E)];
        [exists tx, r; split; [now left | exact E]
        | exists tx', r'; split; [now right | exact E]].
    + intros (tx'&r'&[H|H]&E);
        [injection H as -> ->; now left | right; eauto].
Qed.

End RpcFacts.

(** ** The recipes of auto.py *)

Section AutoFacts.
Variable node : Node.
Variable cfg : Config.
Variable wallet : address.

Lemma eth_call_ok q w v :
  res (eth_call q w) = Ok v -> events (eth_call q w) = [EvRead q (Ok v)].
Proof.
  unfold eth_call. destruct (next_fault w); cbn; [discriminate|].
  now intros [= ->].
Qed.

Lemma eth_call_calm q w :
  calm w ->
  eth_call q w = Outcome (Ok (chain w q)) w [EvRead q (Ok (chain w q))].
Proof.
  destruct w as [c fs rcs rf ri]. unfold calm. cbn. intros ->. reflexivity.
Qed.

(** With no RPC fault, [submit] reads nonce and gas price, broadcasts one
    transaction and returns the hash and receipt the node gives it. *)
Lemma submit_calm call gas w :
  calm w ->
  let tx := {| tx_from := wallet;
               tx_nonce := chain w (GetTransactionCount wallet);
               tx_gas := gas; tx_gasPrice := chain w GasPrice;
               tx_chainId := CHAIN_ID cfg; tx_call := call |} in
  let cr := mine node (chain w) tx in
  Auto.submit node cfg wallet call gas w =
  Outcome (Ok (transactionHash (snd cr), snd cr))
          {| chain := fst cr; faults := []; receipts := snd cr :: receipts w;
             rand_floats := rand_floats w; rand_ints := rand_ints w |}
          [EvRead (GetTransactionCount wallet) (Ok (chain w (GetTransactionCount wallet)));
           EvRead GasPrice (Ok (chain w GasPrice));
           EvSend tx (Ok (transactionHash (snd cr)));
           EvWait (transactionHash (snd cr))].
Proof.
  destruct w as [c fs rcs rf ri]. unfold calm. cbn [faults]. intros ->.
  cbv -[String.eqb]. rewrite String.eqb_refl. reflexivity.
Qed.

Lemma sent_calls_submit call gas w c :
  In c (sent_calls (events (Auto.submit node cfg wallet call gas w))) -> c = call.
Proof.
  intros H. apply in_sent_calls in H as (tx & r & H & <-).
  apply in_events_submit in H. now destruct H.
Qed.

Lemma sent_calls_ensure_allowance tok spender amount w c :
  In c (sent_calls (events (Auto.ensure_allowance node cfg wallet tok spender amount w))) ->
  c = Approve tok spender Auto.max_uint256.
Proof.
  intros H. apply in_sent_calls in H as (tx & r & H & <-).
  unfold Auto.ensure_allowance in H.
  apply in_events_bind in H as [H|(a & Ha & H)].
  - apply in_events_eth_call in H as [? [=]].
  - cbv beta in H. destruct (a <? amount); [|destruct H].
    apply in_events_bind in H as [H|(hr & _ & [])].
    apply in_events_submit in H. now destruct H.
Qed.

(** C10: handed a missing token address ([None], or any falsy value), the
    mint, burn and grant-role recipes each return [None] at once: the
    world is untouched and nothing is read, built or broadcast. *)
Theorem token_recipes_return_none_without_address (token_address : value) (w : World) :
  truthy token_address = false ->
  Auto.activity8_mint_tokens node cfg wallet token_address w = Outcome (Ok None) w [] /\
  Auto.activity9_burn_tokens node cfg wallet token_address w = Outcome (Ok None) w [] /\
  Auto.activity13_grant_role node cfg wallet token_address w = Outcome (Ok None) w [].
Proof.
  intros H.
  unfold Auto.activity8_mint_tokens, Auto.activity9_burn_tokens,
    Auto.activity13_grant_role.
  rewrite H. cbn. auto.
Qed.

(** C8: the burn threshold is 10 tokens of 6 decimals.  With a balance
    below it the burn recipe broadcasts nothing and, the balance read
    having succeeded, returns the sentinel ["skipped: low balance"], which
    is not the [None] of a failure.  With a balance at or above it every
    transaction the recipe broadcasts is a burn of exactly the threshold
    amount, and when no RPC call fails exactly one such burn is broadcast
    and its hash returned. *)
Theorem burn_skips_below_threshold (tok : address) (w : World) :
  truthy (Some tok) = true ->
  let balance := chain w (BalanceOf tok wallet) in
  let o := Auto.activity9_burn_tokens node cfg wallet (Some tok) w in
  Auto.burn_threshold = 10 * 10 ^ 6 /\
  (balance < Auto.burn_threshold ->
     sent_calls (events o) = [] /\
     (next_fault w = None ->
        res o = Ok (Some "skipped: low balance") /\ res o <> Ok None)) /\
  (Auto.burn_threshold <= balance ->
     (forall c, In c (sent_calls (events o)) -> c = Burn tok (10 * 10 ^ 6)) /\
     (calm w -> exists h, sent_calls (events o) = [Burn tok (10 * 10 ^ 6)] /\
                          res o = Ok (Some h))).
Proof.
  intros Ht balance o. split; [reflexivity|]. subst o.
  unfold Auto.activity9_burn_tokens. rewrite Ht. cbn [negb Auto.address_of].
  split.
  - intros Hlt. split.
    + unfold try_catch, bind, eth_call.
      destruct (next_fault w); cbn; [reflexivity|].
      fold balance. destruct (Z.leb_spec Auto.burn_threshold balance); [lia|].
      reflexivity.
    + intros Hf. unfold try_catch, bind, eth_call. rewrite Hf. cbn.
      fold balance. destruct (Z.leb_spec Auto.burn_threshold balance); [lia|].
      cbn. split; [reflexivity | discriminate].
  - intros Hge. split.
    + intros c H. apply in_sent_calls in H as (tx & r & H & <-).
      apply in_events_try_catch in H as [H|(e & _ & [])].
      apply in_events_bind in H as [H|(b & _ & H)].
      * apply in_events_eth_call in H as [? [=]].
      * cbv beta in H. destruct (Auto.burn_threshold <=? b); [|destruct H].
        apply in_events_bind in H as [H|(hr & _ & [])].
        apply in_events_submit in H. now destruct H.
    + intros Hc. unfold try_catch, bind. rewrite (eth_call_calm _ _ Hc). cbn.
      fold balance. destruct (Z.leb_spec Auto.burn_threshold balance); [|lia].
      rewrite (submit_calm _ _ _ Hc). cbn. eauto.
Qed.

(** The approve, quote and swap sequence shared by [activity5_swap] and
    [activity17_batch_operations]: a swap that is broadcast follows the
    quote just read for the same pair and amount, the quote is positive
    and [minOut] is [floor(quote * 99 / 100)], never more than the quote. *)
Lemma swap_sequence_min_out (name_out : string) (amount : Z) (w : World)
      (tin tout : address) (a m : Z) :
  let o := try_catch
             (path_usd_address <- Auto.token cfg "PathUSD" ;;
              Auto.ensure_allowance node cfg wallet path_usd_address
                                    (STABLECOIN_DEX cfg) amount ;;;
              out_address <- Auto.token cfg name_out ;;
              quote <- eth_call (QuoteSwapExactAmountIn path_usd_address out_address amount) ;;
              Auto.swap_on_quote node cfg wallet path_usd_address out_address amount quote)
             (fun _ => ret None) w in
  In (SwapExactAmountIn tin tout a m) (sent_calls (events o)) ->
  exists q, In (EvRead (QuoteSwapExactAmountIn tin tout a) (Ok q)) (events o) /\
            0 < q /\ m = q * 99 / 100 /\ m <= q.
Proof.
  intros o. subst o. rewrite events_try_catch_ret.
  rewrite events_bind, events_token, post_token. cbn [app].
  destruct (res (Auto.token cfg "PathUSD" w)) as [p|]; [|intros []].
  rewrite events_bind.
  set (ea := events (Auto.ensure_allowance node cfg wallet p (STABLECOIN_DEX cfg) amount w)).
  assert (Hea : forall c, In c (sent_calls ea) ->
                          c = Approve p (STABLECOIN_DEX cfg) Auto.max_uint256)
    by (intros c; apply sent_calls_ensure_allowance).
  destruct (res (Auto.ensure_allowance node cfg wallet p (STABLECOIN_DEX cfg) amount w)) as [u|].
  2:{ rewrite app_nil_r. intros H. apply Hea in H. discriminate. }
  set (w2 := post _).
  rewrite events_bind, events_token, post_token. cbn [app].
  destruct (res (Auto.token cfg name_out w2)) as [al|].
  2:{ rewrite app_nil_r. intros H. apply Hea in H. discriminate. }
  rewrite events_bind.
  destruct (res (eth_call (QuoteSwapExactAmountIn p al amount) w2)) as [q|] eqn:Eq.
  2:{ rewrite app_nil_r, sent_calls_app, sent_calls_eth_call, app_nil_r.
      intros H. apply Hea in H. discriminate. }
  rewrite (eth_call_ok _ _ _ Eq).
  rewrite !sent_calls_app. cbn [sent_calls app]. intros H.
  apply in_app_or in H as [H|H]; [apply Hea in H; discriminate|].
  unfold Auto.swap_on_quote in H |- *.
  destruct (Z.ltb_spec 0 q) as [Hq|Hq]; [|destruct H].
  rewrite events_bind, sent_calls_app in H.
  apply in_app_or in H as [H|H].
  - apply sent_calls_submit in H. injection H as -> -> -> ->.
    exists q. split; [|split; [exact Hq | split; [reflexivity|]]].
    + apply in_or_app. right. now left.
    + apply Z.div_le_upper_bound; lia.
  - destruct (res (Auto.submit _ _ _ _ _ _)); destruct H.
Qed.

Lemma token_some name a w :
  Auto.assoc name (TOKENS cfg) = Some a ->
  Auto.token cfg name w = Outcome (Ok a) w [].
Proof. unfold Auto.token. now intros ->. Qed.

Lemma reads_ensure_allowance tok spender amount w q r :
  In (EvRead q r) (events (Auto.ensure_allowance node cfg wallet tok spender amount w)) ->
  q = Allowance tok wallet spender \/ q = GetTransactionCount wallet \/ q = GasPrice.
Proof.
  unfold Auto.ensure_allowance. intros H.
  apply in_events_bind in H as [H|(a & Ha & H)].
  - apply in_events_eth_call in H as [? [= -> _]]. now left.
  - cbv beta in H. destruct (a <? amount); [|destruct H].
    apply in_events_bind in H as [H|(hr & _ & [])].
    apply in_events_submit in H. tauto.
Qed.

(** With no RPC fault the approve-if-needed block returns normally and
    leaves the fault script empty. *)
Lemma ensure_allowance_calm tok spender amount w :
  calm w ->
  res (Auto.ensure_allowance node cfg wallet tok spender amount w) = Ok tt /\
  calm (post (Auto.ensure_allowance node cfg wallet tok spender amount w)).
Proof.
  intros Hc. unfold Auto.ensure_allowance, bind.
  rewrite (eth_call_calm _ _ Hc). cbn.
  destruct (_ <? amount); cbn; [|now split].
  rewrite (submit_calm _ _ _ Hc). cbn. now split.
Qed.

(** With no RPC fault and both tokens configured, a positive quote is
    followed by the broadcast of the swap with [minOut = floor(quote * 99 /
    100)], whose hash is returned. *)
Lemma swap_sequence_submits (name_out : string) (amount : Z) (w : World)
      (p al : address) (q : Z) :
  calm w ->
  Auto.assoc "PathUSD" (TOKENS cfg) = Some p ->
  Auto.assoc name_out (TOKENS cfg) = Some al ->
  let o := try_catch
             (path_usd_address <- Auto.token cfg "PathUSD" ;;
              Auto.ensure_allowance node cfg wallet path_usd_address
                                    (STABLECOIN_DEX cfg) amount ;;;
              out_address <- Auto.token cfg name_out ;;
              quote <- eth_call (QuoteSwapExactAmountIn path_usd_address out_address amount) ;;
              Auto.swap_on_quote node cfg wallet path_usd_address out_address amount quote)
             (fun _ => ret None) w in
  In (EvRead (QuoteSwapExactAmountIn p al amount) (Ok q)) (events o) ->
  0 < q ->
  In (SwapExactAmountIn p al amount (q * 99 / 100)) (sent_calls (events o)) /\
  exists h, res o = Ok (Some h).
Proof.
  intros Hc Hp Hal o. subst o.
  rewrite events_try_catch_ret, res_try_catch_ret.
  destruct (ensure_allowance_calm p (STABLECOIN_DEX cfg) amount w Hc) as [Hr Hc2].
  pose proof (reads_ensure_allowance p (STABLECOIN_DEX cfg) amount w) as Hreads.
  rewrite events_bind, res_bind, (token_some _ _ _ Hp). cbn [res post events app].
  rewrite events_bind, res_bind, Hr.
  set (w2 := post _) in *.
  rewrite events_bind, res_bind, (token_some _ _ _ Hal). cbn [res post events app].
  rewrite events_bind, res_bind, (eth_call_calm _ _ Hc2). cbn [res post events app].
  set (q0 := chain w2 _).
  intros Hin Hq.
  assert (q = q0) as ->.
  { apply in_app_or in Hin as [Hin|Hin].
    - apply Hreads in Hin as [H|[H|H]]; discriminate H.
    - destruct Hin as [Hin|Hin]; [now injection Hin as ->|].
      unfold Auto.swap_on_quote in Hin. destruct (0 <? q0); [|destruct Hin].
      apply in_events_bind in Hin as [Hin|(hr & _ & [])].
      apply in_events_submit in Hin as [H|H]; discriminate H. }
  unfold Auto.swap_on_quote.
  destruct (Z.ltb_spec 0 q0); [|lia].
  unfold bind at 1 2. rewrite (submit_calm _ _ _ Hc2). cbn [res post events app].
  split; [|eauto].
  rewrite !sent_calls_app. apply in_or_app. right. cbn. now left.
Qed.

(** C3: in [activity5_swap] and in [activity17_batch_operations] every
    swap that is broadcast carries [minOut = floor(quote * 99 / 100)] for
    the positive quote the DEX just returned, so [minOut <= quote]; and
    when no RPC call fails a positive quote is always followed by that
    swap. *)
Theorem swap_min_out_is_99_percent (w : World) :
  let o5 := Auto.activity5_swap node cfg wallet w in
  let o17 := Auto.activity17_batch_operations node cfg wallet w in
  (forall tin tout a m,
      In (SwapExactAmountIn tin tout a m) (sent_calls (events o5)) ->
      exists q, In (EvRead (QuoteSwapExactAmountIn tin tout a) (Ok q)) (events o5) /\
                0 < q /\ m = q * 99 / 100 /\ m <= q) /\
  (forall tin tout a m,
      In (SwapExactAmountIn tin tout a m) (sent_calls (events o17)) ->
      exists q, In (EvRead (QuoteSwapExactAmountIn tin tout a) (Ok q)) (events o17) /\
                0 < q /\ m = q * 99 / 100 /\ m <= q) /\
  (forall p al q,
      calm w ->
      Auto.assoc "PathUSD" (TOKENS cfg) = Some p ->
      Auto.assoc "AlphaUSD" (TOKENS cfg) = Some al ->
      In (EvRead (QuoteSwapExactAmountIn p al (1 * 10 ^ 6)) (Ok q)) (events o5) ->
      0 < q ->
      In (SwapExactAmountIn p al (1 * 10 ^ 6) (q * 99 / 100)) (sent_calls (events o5))) /\
  (forall p be q,
      calm w ->
      Auto.assoc "PathUSD" (TOKENS cfg) = Some p ->
      Auto.assoc "BetaUSD" (TOKENS cfg) = Some be ->
      In (EvRead (QuoteSwapExactAmountIn p be 500000) (Ok q)) (events o17) ->
      0 < q ->
      In (SwapExactAmountIn p be 500000 (q * 99 / 100)) (sent_calls (events o17))).
Proof.
  intros o5 o17. repeat split.
  - intros tin tout a m. apply (swap_sequence_min_out "AlphaUSD" (1 * 10 ^ 6)).
  - intros tin tout a m. apply (swap_sequence_min_out "BetaUSD" 500000).
  - intros p al q Hc Hp Hal Hin Hq.
    apply (swap_sequence_submits "AlphaUSD" (1 * 10 ^ 6) w p al q Hc Hp Hal Hin Hq).
  - intros p be q Hc Hp Hbe Hin Hq.
    apply (swap_sequence_submits "BetaUSD" 500000 w p be q Hc Hp Hbe Hin Hq).
Qed.

Lemma ensure_allowance_sufficient tok spender amount w :
  amount <= chain w (Allowance tok wallet spender) ->
  sent_calls (events (Auto.ensure_allowance node cfg wallet tok spender amount w)) = [].
Proof.
  intros Hge. unfold Auto.ensure_allowance, bind, eth_call.
  destruct (next_fault w); cbn; [reflexivity|].
  destruct (Z.ltb_spec (chain w (Allowance tok wallet spender)) amount); [lia|].
  reflexivity.
Qed.

Lemma eth_call_cases q w :
  (next_fault w = None /\
   eth_call q w = Outcome (Ok (chain w q)) (drop_fault w) [EvRead q (Ok (chain w q))]) \/
  (exists e, next_fault w = Some e /\
             eth_call q w = Outcome (Raise e) (drop_fault w) [EvRead q (Raise e)]).
Proof. unfold eth_call. destruct (next_fault w); eauto. Qed.

(** When [submit] returns, exactly one transaction was broadcast: the
    given call with the nonce and gas price read from the chain, and the
    chain is the one the node produced by mining it. *)
Lemma submit_ok call gas w hr :
  res (Auto.submit node cfg wallet call gas w) = Ok hr ->
  let tx := {| tx_from := wallet;
               tx_nonce := chain w (GetTransactionCount wallet);
               tx_gas := gas; tx_gasPrice := chain w GasPrice;
               tx_chainId := CHAIN_ID cfg; tx_call := call |} in
  let cr := mine node (chain w) tx in
  hr = (transactionHash (snd cr), snd cr) /\
  chain (post (Auto.submit node cfg wallet call gas w)) = fst cr /\
  In (EvSend tx (Ok (transactionHash (snd cr))))
     (events (Auto.submit node cfg wallet call gas w)) /\
  sent_calls (events (Auto.submit node cfg wallet call gas w)) = [call].
Proof.
  destruct w as [c fs rcs rf ri].
  destruct fs as [|[e1|] [|[e2|] [|[e3|] [|[e4|] fs]]]];
    cbv -[String.eqb In]; try discriminate;
    rewrite ?String.eqb_refl; intros [= <-]; cbn; auto 10.
Qed.

(** What a normally returning approve-if-needed block did: either the
    allowance was sufficient and nothing was broadcast, or one approval of
    [2^256 - 1] was broadcast and mined. *)
Lemma ensure_allowance_ok tok spender amount w :
  let o := Auto.ensure_allowance node cfg wallet tok spender amount w in
  res o = Ok tt ->
  (amount <= chain w (Allowance tok wallet spender) /\
   chain (post o) = chain w /\ sent_calls (events o) = []) \/
  (exists tx h,
      tx_call tx = Approve tok spender Auto.max_uint256 /\
      tx_from tx = wallet /\
      In (EvSend tx (Ok h)) (events o) /\
      chain (post o) = fst (mine node (chain w) tx) /\
      sent_calls (events o) = [Approve tok spender Auto.max_uint256]).
Proof.
  intros o. subst o. unfold Auto.ensure_allowance.
  rewrite res_bind, post_bind, events_bind.
  destruct (eth_call_cases (Allowance tok wallet spender) w)
    as [(Hf & ->)|(e & Hf & ->)]; cbn [res post events]; [|discriminate].
  destruct (Z.ltb_spec (chain w (Allowance tok wallet spender)) amount) as [Hlt|Hge].
  - rewrite res_bind, post_bind, events_bind.
    destruct (res (Auto.submit _ _ _ _ _ _)) as [hr|] eqn:E; [|discriminate].
    intros _. right.
    apply submit_ok in E. cbv zeta in E. destruct E as (_ & Hch & Hin & Hs).
    eexists _, _. split; [|split; [|split; [|split]]].
    4: { cbn [post ret]. exact Hch. }
    3: { cbn [app]. right. apply in_or_app. left. exact Hin. }
    1-2: reflexivity.
    cbn [app sent_calls]. rewrite sent_calls_app, Hs. reflexivity.
  - intros _. left. cbn. auto.
Qed.

(** C4: the approve-if-needed block broadcasts nothing when the allowance
    already covers the required amount; whatever it broadcasts is an
    approval of [2^256 - 1]; and when a first invocation returned normally
    with its approval mined successfully, a second invocation with the
    same token, owner, spender and amount broadcasts nothing, so that the
    two together issue at most one approval. *)
Theorem ensure_allowance_idempotent (tok spender : address) (amount : Z) (w : World) :
  honours_approve node ->
  amount <= Auto.max_uint256 ->
  let o1 := Auto.ensure_allowance node cfg wallet tok spender amount w in
  let o2 := Auto.ensure_allowance node cfg wallet tok spender amount (post o1) in
  Auto.max_uint256 = 2 ^ 256 - 1 /\
  (amount <= chain w (Allowance tok wallet spender) -> sent_calls (events o1) = []) /\
  (forall c, In c (sent_calls (events o1)) -> c = Approve tok spender Auto.max_uint256) /\
  (res o1 = Ok tt -> mined_ok node (chain w) o1 ->
     sent_calls (events o2) = [] /\
     (length (approvals (events o1 ++ events o2)) <= 1)%nat).
Proof.
  intros Hnode Hmax o1 o2. split; [reflexivity|].
  split; [apply ensure_allowance_sufficient|].
  split; [intros c; apply sent_calls_ensure_allowance|].
  intros Hres Hok.
  destruct (ensure_allowance_ok tok spender amount w Hres)
    as [(Hge & Hch & Hs)|(tx & h & Hcall & Hfrom & Hin & Hch & Hs)];
    fold o1 in Hch, Hs.
  - assert (H2 : sent_calls (events o2) = []).
    { subst o2. apply ensure_allowance_sufficient. now rewrite Hch. }
    split; [exact H2|].
    unfold approvals. rewrite sent_calls_app, H2, Hs. cbn. lia.
  - fold o1 in Hin.
    assert (H2 : sent_calls (events o2) = []).
    { subst o2. apply ensure_allowance_sufficient. rewrite Hch, <- Hfrom.
      rewrite (Hnode (chain w) tx tok spender Auto.max_uint256 Hcall); [exact Hmax|].
      exact (Hok tx h Hin). }
    split; [exact H2|].
    unfold approvals. rewrite sent_calls_app, H2, Hs. cbn. lia.
Qed.

(** *** Remove liquidity *)

Variable f64 : Float64.

Lemma withdraw_amount_bounds lp percent :
  Auto.min_withdraw <= lp ->
  Auto.min_withdraw <= Auto.withdraw_amount f64 lp percent <= lp.
Proof.
  intros H. unfold Auto.withdraw_amount, Py.min, Py.max.
  destruct (Z.ltb_spec (scale_percent f64 lp percent) Auto.min_withdraw);
    match goal with |- context [?a <? ?b] => destruct (Z.ltb_spec a b) end; lia.
Qed.

Lemma randbelow_spec n w :
  exists k, res (randbelow n w) = Ok k /\ events (randbelow n w) = [] /\
            chain (post (randbelow n w)) = chain w /\
            (n <> O -> (k < n)%nat).
Proof.
  unfold randbelow. destruct (rand_ints w) as [|k ks]; cbn.
  - exists O. repeat split; auto. lia.
  - exists (k mod n)%nat. repeat split; auto.
    intros Hn. now apply Nat.mod_upper_bound.
Qed.

Lemma random_choice_spec {A} (l : list A) w :
  l <> [] ->
  exists x, res (random_choice l w) = Ok x /\ In x l /\
            events (random_choice l w) = [].
Proof.
  destruct l as [|d l]; [congruence|]. intros _.
  unfold random_choice. rewrite res_bind, events_bind.
  destruct (randbelow_spec (length (d :: l)) w) as (k & -> & -> & _ & Hk).
  cbn [res events ret app]. exists (nth k (d :: l) d).
  repeat split. apply nth_In. apply Hk. discriminate.
Qed.

Lemma events_random_randint a b w : events (random_randint a b w) = [].
Proof.
  unfold random_randint. destruct (b <? a); [reflexivity|].
  rewrite events_bind.
  destruct (randbelow_spec (Z.to_nat (b - a + 1)) w) as (k & -> & -> & _).
  reflexivity.
Qed.

(** One pair of the scan: the list of pools is unchanged, or extended by
    the pair with the positive balance just read. *)
Lemma scan_step_spec (t1 t2 : string * address) (acc : list Auto.Pool) w :
  let o := try_catch
             (pool_id <- eth_call (GetPoolId (snd t1) (snd t2)) ;;
              lp <- eth_call (LiquidityBalances pool_id wallet) ;;
              if 0 <? lp then
                ret (acc ++ [{| Auto.token1_name := fst t1; Auto.token2_name := fst t2;
                                Auto.token1_addr := snd t1; Auto.token2_addr := snd t2;
                                Auto.lp_balance := lp |}])
              else ret acc)
             (fun _ => ret acc) w in
  chain (post o) = chain w /\ sent_calls (events o) = [] /\
  (res o = Ok acc \/
   exists pid lp p,
     res o = Ok (acc ++ [p]) /\
     Auto.token1_addr p = snd t1 /\ Auto.token2_addr p = snd t2 /\
     Auto.lp_balance p = lp /\ 0 < lp /\
     lp = chain w (LiquidityBalances pid wallet) /\
     In (EvRead (GetPoolId (snd t1) (snd t2)) (Ok pid)) (events o) /\
     In (EvRead (LiquidityBalances pid wallet) (Ok lp)) (events o)).
Proof.
  unfold try_catch, bind.
  destruct (eth_call_cases (GetPoolId (snd t1) (snd t2)) w)
    as [(Hf & ->)|(e & Hf & ->)]; cbn [res post events]; [|cbn; auto].
  set (pid := chain w (GetPoolId (snd t1) (snd t2))).
  destruct (eth_call_cases (LiquidityBalances pid wallet) (drop_fault w))
    as [(Hf2 & ->)|(e & Hf2 & ->)]; cbn [res post events]; [|cbn; auto].
  change (chain (drop_fault w)) with (chain w).
  set (lp := chain w (LiquidityBalances pid wallet)).
  destruct (Z.ltb_spec 0 lp) as [Hlp|Hlp]; cbn; [|auto].
  split; [reflexivity|]. split; [reflexivity|]. right.
  eexists pid, lp, _. split; [reflexivity|]. cbn. repeat split; auto.
Qed.

(** The scan never raises, broadcasts nothing, leaves the chain as it
    was, and every pool it adds to the list carries a positive balance
    that was read for its pair. *)
Lemma scan_pools_spec ps : forall acc w,
  let o := Auto.scan_pools wallet ps acc w in
  exists pools,
    res o = Ok pools /\ chain (post o) = chain w /\ sent_calls (events o) = [] /\
    forall p, In p pools ->
      In p acc \/
      (0 < Auto.lp_balance p /\
       exists pid,
         Auto.lp_balance p = chain w (LiquidityBalances pid wallet) /\
         In (EvRead (GetPoolId (Auto.token1_addr p) (Auto.token2_addr p)) (Ok pid)) (events o) /\
         In (EvRead (LiquidityBalances pid wallet) (Ok (Auto.lp_balance p))) (events o)).
Proof.
  induction ps as [|[t1 t2] rest IH]; intros acc w o; subst o.
  - exists acc. cbn. auto.
  - cbn [Auto.scan_pools].
    rewrite res_bind, post_bind, events_bind.
    destruct (scan_step_spec t1 t2 acc w) as (Hch & Hs & Hstep).
    cbv zeta in Hch, Hs, Hstep.
    match type of Hch with chain (post ?x) = _ => set (o1 := x) in * end.
    destruct Hstep as [Hr|(pid & lp & p0 & Hr & H1 & H2 & H3 & Hlp & Hlpc & Hin1 & Hin2)];
      rewrite Hr.
    + destruct (IH acc (post o1)) as (pools & Hres & Hch' & Hs' & Hp).
      exists pools. rewrite Hres, Hch', Hch, sent_calls_app, Hs, Hs'.
      repeat split. intros p Hpin. destruct (Hp p Hpin) as [Ha|(Hpos & pid & He & Hi1 & Hi2)];
        [now left|right].
      split; [exact Hpos|]. exists pid. rewrite <- Hch. split; [exact He|].
      split; apply in_or_app; right; assumption.
    + destruct (IH (acc ++ [p0]) (post o1)) as (pools & Hres & Hch' & Hs' & Hp).
      exists pools. rewrite Hres, Hch', Hch, sent_calls_app, Hs, Hs'.
      repeat split. intros p Hpin. destruct (Hp p Hpin) as [Ha|(Hpos & pid' & He & Hi1 & Hi2)].
      * apply in_app_or in Ha as [Ha|[<-|[]]]; [now left|right].
        rewrite H1, H2, H3. split; [exact Hlp|]. exists pid. split; [exact Hlpc|].
        split; apply in_or_app; left; assumption.
      * right. split; [exact Hpos|]. exists pid'. rewrite <- Hch. split; [exact He|].
        split; apply in_or_app; right; assumption.
Qed.

(** C5: every transaction [activity12_remove_liquidity] broadcasts is a
    withdrawal to the wallet from a pair whose position was read as a
    positive number, of an amount between the minimum withdrawal and that
    position; and when no pool holds a position for the wallet the recipe
    broadcasts nothing and returns the sentinel ["skipped: no lp"]. *)
Theorem remove_liquidity_bounds (w : World) :
  let o := Auto.activity12_remove_liquidity node cfg f64 wallet w in
  Auto.min_withdraw = 100000 /\
  (forall c, In c (sent_calls (events o)) ->
     exists t1 t2 amount pid lp,
       c = FeeManagerBurn t1 t2 amount wallet /\
       In (EvRead (GetPoolId t1 t2) (Ok pid)) (events o) /\
       In (EvRead (LiquidityBalances pid wallet) (Ok lp)) (events o) /\
       0 < lp /\ Auto.min_withdraw <= amount <= lp) /\
  ((forall pid, chain w (LiquidityBalances pid wallet) <= 0) ->
     res o = Ok (Some "skipped: no lp") /\ sent_calls (events o) = []).
Proof.
  intros o. subst o. split; [reflexivity|].
  unfold Auto.activity12_remove_liquidity.
  rewrite events_try_catch_ret, res_try_catch_ret, events_bind, res_bind.
  destruct (scan_pools_spec (Auto.pairs (TOKENS cfg)) [] w)
    as (pools & Hres & Hch & Hs & Hp).
  cbv zeta in Hres, Hch, Hs, Hp. rewrite Hres.
  set (evs0 := events (Auto.scan_pools wallet (Auto.pairs (TOKENS cfg)) [] w)) in *.
  set (w1 := post (Auto.scan_pools wallet (Auto.pairs (TOKENS cfg)) [] w)) in *.
  destruct pools as [|p0 ps].
  { cbn [events ret res]. rewrite app_nil_r, Hs. split; [intros c []|auto]. }
  split.
  - rewrite events_bind.
    destruct (random_choice_spec (p0 :: ps) w1) as (sel & Hsel & Hin & Hev);
      [discriminate|].
    rewrite Hsel, Hev. cbn [app].
    destruct (Hp sel Hin) as [[]|(Hpos & pid & _ & Hi1 & Hi2)].
    destruct (Z.ltb_spec (Auto.lp_balance sel) Auto.min_withdraw) as [Hlt|Hge].
    { cbn [events ret]. rewrite app_nil_r, Hs. intros c []. }
    rewrite events_bind, events_random_randint. cbn [app].
    intros c Hc. rewrite sent_calls_app, Hs in Hc. cbn [app] in Hc.
    destruct (res (random_randint 20 50 _)) as [percent|]; [|destruct Hc].
    rewrite events_bind, sent_calls_app in Hc.
    apply in_app_or in Hc as [Hc|Hc];
      [|destruct (res (Auto.submit _ _ _ _ _ _)); destruct Hc].
    apply sent_calls_submit in Hc. subst c.
    eexists _, _, _, pid, (Auto.lp_balance sel). split; [reflexivity|].
    split; [apply in_or_app; left; exact Hi1|].
    split; [apply in_or_app; left; exact Hi2|].
    split; [exact Hpos|]. now apply withdraw_amount_bounds.
  - intros Hnone. exfalso.
    destruct (Hp p0 (or_introl eq_refl)) as [[]|(Hpos & pid & He & _)].
    specialize (Hnone pid). lia.
Qed.

(** *** Faucet claim *)

Lemma faucet_loop_success max_retries attempt rest w :
  next_fault w = None ->
  res (Auto.faucet_loop node wallet max_retries (attempt :: rest) w) = Ok (Some "faucet") /\
  events (Auto.faucet_loop node wallet max_retries (attempt :: rest) w) =
    [EvFaucet wallet (Ok tt); EvSleep 2].
Proof.
  intros Hf. cbn [Auto.faucet_loop].
  unfold bind, try_catch, tempo_fundAddress, sleep, emit. rewrite Hf. cbn. auto.
Qed.

Lemma faucet_loop_abort max_retries attempt rest w e :
  next_fault w = Some e ->
  Auto.is_retryable e = false \/ max_retries - 1 <= attempt ->
  Auto.faucet_loop node wallet max_retries (attempt :: rest) w =
    Outcome (Ok None) (drop_fault w) [EvFaucet wallet (Raise e)].
Proof.
  intros Hf Hterm. cbn [Auto.faucet_loop].
  unfold bind, try_catch, tempo_fundAddress. rewrite Hf. cbn [res post events].
  assert ((attempt <? max_retries - 1) && Auto.is_retryable e = false) as ->.
  { destruct Hterm as [->|Hle]; [apply andb_false_r|].
    destruct (Z.ltb_spec attempt (max_retries - 1)); [lia|reflexivity]. }
  reflexivity.
Qed.

Lemma faucet_loop_retry max_retries attempt rest w e :
  next_fault w = Some e ->
  Auto.is_retryable e = true -> attempt < max_retries - 1 ->
  res (Auto.faucet_loop node wallet max_retries (attempt :: rest) w) =
    res (Auto.faucet_loop node wallet max_retries rest (drop_fault w)) /\
  events (Auto.faucet_loop node wallet max_retries (attempt :: rest) w) =
    [EvFaucet wallet (Raise e); EvSleep (inject_Z ((attempt + 1) * 5))] ++
    events (Auto.faucet_loop node wallet max_retries rest (drop_fault w)).
Proof.
  intros Hf Hr Hlt. cbn [Auto.faucet_loop].
  unfold bind, try_catch, tempo_fundAddress. rewrite Hf. cbn [res post events].
  rewrite Hr. destruct (Z.ltb_spec attempt (max_retries - 1)); [|lia].
  cbn. auto.
Qed.

(** The six runs of the faucet recipe with the default three attempts,
    by the outcome of the first, second and third request. *)
Lemma faucet_three_attempts (w : World) :
  let o := Auto.activity2_faucet node wallet 3 w in
  let w1 := drop_fault w in
  let w2 := drop_fault w1 in
  let failed e := EvFaucet wallet (Raise e) in
  let claimed := [EvFaucet wallet (Ok tt); EvSleep 2] in
  (next_fault w = None ->
     res o = Ok (Some "faucet") /\ events o = claimed) /\
  (forall e1, next_fault w = Some e1 -> Auto.is_retryable e1 = false ->
     res o = Ok None /\ events o = [failed e1]) /\
  (forall e1, next_fault w = Some e1 -> Auto.is_retryable e1 = true ->
     (next_fault w1 = None ->
        res o = Ok (Some "faucet") /\
        events o = [failed e1; EvSleep 5] ++ claimed) /\
     (forall e2, next_fault w1 = Some e2 -> Auto.is_retryable e2 = false ->
        res o = Ok None /\ events o = [failed e1; EvSleep 5; failed e2]) /\
     (forall e2, next_fault w1 = Some e2 -> Auto.is_retryable e2 = true ->
        (next_fault w2 = None ->
           res o = Ok (Some "faucet") /\
           events o = [failed e1; EvSleep 5; failed e2; EvSleep 10] ++ claimed) /\
        (forall e3, next_fault w2 = Some e3 ->
           res o = Ok None /\
           events o = [failed e1; EvSleep 5; failed e2; EvSleep 10; failed e3]))).
Proof.
  intros o w1 w2 failed claimed. subst o.
  unfold Auto.activity2_faucet.
  change (Auto.range 3) with [0; 1; 2].
  split; [intros Hf; now apply faucet_loop_success|].
  split.
  { intros e1 Hf Hr. rewrite (faucet_loop_abort 3 0 _ w e1 Hf (or_introl Hr)).
    now split. }
  intros e1 Hf1 Hr1.
  assert (Hlt0 : 0 < 3 - 1) by lia. assert (Hlt1 : 1 < 3 - 1) by lia.
  assert (Hle2 : 3 - 1 <= 2) by lia.
  destruct (faucet_loop_retry 3 0 [1; 2] w e1 Hf1 Hr1 Hlt0) as [-> ->].
  fold w1. split.
  { intros Hf. destruct (faucet_loop_success 3 1 [2] w1 Hf) as [-> ->]. now split. }
  split.
  { intros e2 Hf Hr. rewrite (faucet_loop_abort 3 1 _ w1 e2 Hf (or_introl Hr)).
    now split. }
  intros e2 Hf2 Hr2.
  destruct (faucet_loop_retry 3 1 [2] w1 e2 Hf2 Hr2 Hlt1) as [-> ->].
  fold w2. split.
  { intros Hf. destruct (faucet_loop_success 3 2 [] w2 Hf) as [-> ->]. now split. }
  intros e3 Hf3.
  rewrite (faucet_loop_abort 3 2 [] w2 e3 Hf3 (or_intror Hle2)). now split.
Qed.

Lemma listed_markers_retryable (e marker : string) :
  In marker ["timeout"; "connection"; "refused"; "502"; "503"; "bad gateway"] ->
  contains marker (lower e) = true ->
  Auto.is_retryable e = true.
Proof.
  intros Hin Hc. unfold Auto.is_retryable, any_in.
  apply existsb_exists. exists marker. split; [|exact Hc].
  unfold Auto.retryable_markers. cbn in Hin |- *. tauto.
Qed.

(** C6, as the code has it: an error text containing timeout, connection,
    refused, 502, 503 or bad gateway (in any letter case) is retryable.
    With the default of three attempts the faucet recipe makes at most
    three requests; a retryable error on the first request is followed by
    a sleep of 5 seconds and on the second by one of 10 seconds before the
    next request; an error that is not retryable on any request, and any
    error on the third, ends the recipe at once with [None], no sleep and
    no further request.  A sleep of 15 seconds never occurs. *)
Theorem faucet_retry_schedule (w : World) :
  let o := Auto.activity2_faucet node wallet 3 w in
  let w1 := drop_fault w in
  let w2 := drop_fault w1 in
  let failed e := EvFaucet wallet (Raise e) in
  let claimed := [EvFaucet wallet (Ok tt); EvSleep 2] in
  (forall e marker,
      In marker ["timeout"; "connection"; "refused"; "502"; "503"; "bad gateway"] ->
      contains marker (lower e) = true -> Auto.is_retryable e = true) /\
  (faucet_requests (events o) <= 3)%nat /\
  (forall s, In s (sleeps (events o)) -> s = 2%Q \/ s = 5%Q \/ s = 10%Q) /\
  (next_fault w = None ->
     res o = Ok (Some "faucet") /\ events o = claimed) /\
  (forall e1, next_fault w = Some e1 -> Auto.is_retryable e1 = false ->
     res o = Ok None /\ events o = [failed e1]) /\
  (forall e1, next_fault w = Some e1 -> Auto.is_retryable e1 = true ->
     (next_fault w1 = None ->
        res o = Ok (Some "faucet") /\
        events o = [failed e1; EvSleep 5] ++ claimed) /\
     (forall e2, next_fault w1 = Some e2 -> Auto.is_retryable e2 = false ->
        res o = Ok None /\ events o = [failed e1; EvSleep 5; failed e2]) /\
     (forall e2, next_fault w1 = Some e2 -> Auto.is_retryable e2 = true ->
        (next_fault w2 = None ->
           res o = Ok (Some "faucet") /\
           events o = [failed e1; EvSleep 5; failed e2; EvSleep 10] ++ claimed) /\
        (forall e3, next_fault w2 = Some e3 ->
           res o = Ok None /\
           events o = [failed e1; EvSleep 5; failed e2; EvSleep 10; failed e3]))).
Proof.
  intros o w1 w2 failed claimed.
  split; [exact listed_markers_retryable|].
  pose proof (faucet_three_attempts w) as Hall. cbv zeta in Hall.
  fold o w1 w2 in Hall.
  destruct Hall as (H0 & H1 & H2).
  assert (Hshape :
    (faucet_requests (events o) <= 3)%nat /\
    forall s, In s (sleeps (events o)) -> s = 2%Q \/ s = 5%Q \/ s = 10%Q).
  { destruct (next_fault w) as [e1|] eqn:Hf1.
    2:{ destruct (H0 eq_refl) as [_ ->]. cbn. split; [lia|].
        intros s Hs; intuition (subst; auto). }
    destruct (Auto.is_retryable e1) eqn:Hr1.
    2:{ destruct (H1 e1 eq_refl Hr1) as [_ ->]. cbn. split; [lia|].
        intros s Hs; intuition (subst; auto). }
    destruct (H2 e1 eq_refl Hr1) as (H20 & H21 & H22).
    destruct (next_fault w1) as [e2|] eqn:Hf2.
    2:{ destruct (H20 eq_refl) as [_ ->]. cbn. split; [lia|].
        intros s Hs; intuition (subst; auto). }
    destruct (Auto.is_retryable e2) eqn:Hr2.
    2:{ destruct (H21 e2 eq_refl Hr2) as [_ ->]. cbn. split; [lia|].
        intros s Hs; intuition (subst; auto). }
    destruct (H22 e2 eq_refl Hr2) as (H220 & H221).
    destruct (next_fault w2) as [e3|] eqn:Hf3.
    2:{ destruct (H220 eq_refl) as [_ ->]. cbn. split; [lia|].
        intros s Hs; intuition (subst; auto). }
    destruct (H221 e3 eq_refl) as [_ ->]. cbn. split; [lia|].
    intros s Hs; intuition (subst; auto). }
  destruct Hshape as (Hn & Hs).
  split; [exact Hn|]. split; [exact Hs|].
  split; [exact H0|]. split; [exact H1|]. exact H2.
Qed.

(** *** Create token and the sweep *)

Lemma activity4_returns w :
  exists v, res (Auto.activity4_create_stablecoin node cfg wallet w) = Ok v.
Proof.
  unfold Auto.activity4_create_stablecoin. rewrite res_try_catch_ret.
  match goal with |- context [match ?r with _ => _ end] => destruct r end; eauto.
Qed.

(** A receipt none of whose logs decodes as the creation event yields
    [None]. *)
Lemma parse_token_created_none (ls : list Log) :
  Forall (fun log => process_log cfg log = None) ls ->
  Auto.parse_token_created cfg ls = None.
Proof.
  induction 1 as [|log ls Hlog _ IH]; cbn; [reflexivity|]. now rewrite Hlog.
Qed.

(** The sweep's iteration for the create-token entry stops at the
    [await]: its events are those of the recipe alone. *)
Lemma sweep_step_create_events w :
  events (Auto.sweep_step node cfg f64 wallet
            (Auto.create_stablecoin_entry node cfg wallet) w) =
  events (Auto.activity4_create_stablecoin node cfg wallet w).
Proof.
  destruct (activity4_returns w) as [v Hv].
  unfold Auto.sweep_step.
  cbn [Auto.id Auto.fn Auto.create_stablecoin_entry].
  change (4 =? 4) with true. cbv iota.
  rewrite events_try_catch_ret, events_bind, events_bind, res_bind, Hv.
  rewrite events_bind, res_bind.
  destruct v; cbn [await of_result raise res events app]; now rewrite !app_nil_r.
Qed.

Lemma swap_on_quote_not_positive tin tout amount quote w :
  quote <= 0 ->
  Auto.swap_on_quote node cfg wallet tin tout amount quote w = Outcome (Ok None) w [].
Proof.
  intros H. unfold Auto.swap_on_quote.
  destruct (Z.ltb_spec 0 quote); [lia|reflexivity].
Qed.

(** The approve, quote and swap sequence at a quote that is not positive:
    the body ends without a swap and the result is [None]. *)
Lemma swap_sequence_zero_quote (name_out : string) (amount : Z) (w : World)
      (p al : address) (q : Z) :
  Auto.assoc "PathUSD" (TOKENS cfg) = Some p ->
  Auto.assoc name_out (TOKENS cfg) = Some al ->
  let o := try_catch
             (path_usd_address <- Auto.token cfg "PathUSD" ;;
              Auto.ensure_allowance node cfg wallet path_usd_address
                                    (STABLECOIN_DEX cfg) amount ;;;
              out_address <- Auto.token cfg name_out ;;
              quote <- eth_call (QuoteSwapExactAmountIn path_usd_address out_address amount) ;;
              Auto.swap_on_quote node cfg wallet path_usd_address out_address amount quote)
             (fun _ => ret None) w in
  In (EvRead (QuoteSwapExactAmountIn p al amount) (Ok q)) (events o) ->
  q <= 0 ->
  res o = Ok None /\
  (forall tin tout a m, ~ In (SwapExactAmountIn tin tout a m) (sent_calls (events o))) /\
  (forall c, In c (sent_calls (events o)) ->
             c = Approve p (STABLECOIN_DEX cfg) Auto.max_uint256) /\
  exists evs, events o = evs ++ [EvRead (QuoteSwapExactAmountIn p al amount) (Ok q)].
Proof.
  intros Hp Hal o. subst o.
  rewrite events_try_catch_ret, res_try_catch_ret.
  pose proof (reads_ensure_allowance p (STABLECOIN_DEX cfg) amount w) as Hreads.
  assert (Hea : forall c,
             In c (sent_calls (events (Auto.ensure_allowance node cfg wallet p
                                         (STABLECOIN_DEX cfg) amount w))) ->
             c = Approve p (STABLECOIN_DEX cfg) Auto.max_uint256)
    by (intros c; apply sent_calls_ensure_allowance).
  rewrite events_bind, res_bind, (token_some _ _ _ Hp). cbn [res post events app].
  rewrite events_bind, res_bind.
  destruct (res (Auto.ensure_allowance node cfg wallet p (STABLECOIN_DEX cfg) amount w))
    as [u|e].
  2:{ rewrite app_nil_r. intros Hin _.
      apply Hreads in Hin as [H|[H|H]]; discriminate H. }
  set (w2 := post _).
  rewrite events_bind, res_bind, (token_some _ _ _ Hal). cbn [res post events app].
  rewrite events_bind, res_bind.
  destruct (eth_call_cases (QuoteSwapExactAmountIn p al amount) w2)
    as [(_ & ->)|(e & _ & ->)]; cbn [res post events app].
  2:{ intros Hin _. apply in_app_or in Hin as [Hin|Hin].
      - apply Hreads in Hin as [H|[H|H]]; discriminate H.
      - destruct Hin as [Hin|[]]. discriminate Hin. }
  set (q0 := chain w2 _).
  intros Hin Hq.
  assert (q = q0) as ->.
  { apply in_app_or in Hin as [Hin|Hin].
    - apply Hreads in Hin as [H|[H|H]]; discriminate H.
    - destruct Hin as [Hin|Hin]; [now injection Hin as ->|].
      unfold Auto.swap_on_quote in Hin. destruct (0 <? q0); [|destruct Hin].
      apply in_events_bind in Hin as [Hin|(hr & _ & [])].
      apply in_events_submit in Hin as [H|H]; discriminate H. }
  rewrite (swap_on_quote_not_positive _ _ _ _ _ Hq). cbn [res post events].
  split; [reflexivity|].
  assert (Hsent : forall c,
             In c (sent_calls
                     (events (Auto.ensure_allowance node cfg wallet p
                                (STABLECOIN_DEX cfg) amount w) ++
                      [EvRead (QuoteSwapExactAmountIn p al amount) (Ok q0)])) ->
             c = Approve p (STABLECOIN_DEX cfg) Auto.max_uint256).
  { intros c Hc. rewrite sent_calls_app in Hc. cbn [sent_calls] in Hc.
    rewrite app_nil_r in Hc. now apply Hea. }
  split; [|split; [exact Hsent|eauto]].
  intros tin tout a m Hc. apply Hsent in Hc. discriminate Hc.
Qed.

(** C7, as the code has it: when the quote the DEX returns is zero (or
    negative), [activity5_swap] broadcasts no swap and the quote is the
    last thing it does; whatever it did broadcast is the approval of the
    DEX; and its result is [None], the value [activity17_batch_operations]
    returns from its explicit branch for the same case.  No
    ["skipped: ..."] string is returned, and the result is not told apart
    from the [None] of a failure. *)
Theorem swap_zero_quote_returns_none (w : World) (p out : address) (q : Z) :
  let o5 := Auto.activity5_swap node cfg wallet w in
  let o17 := Auto.activity17_batch_operations node cfg wallet w in
  let ends_in_none (o : outcome World value) (amount : Z) :=
    res o = Ok None /\
    (forall reason, res o <> Ok (Some reason)) /\
    (forall tin tout a m, ~ In (SwapExactAmountIn tin tout a m) (sent_calls (events o))) /\
    (forall c, In c (sent_calls (events o)) ->
               c = Approve p (STABLECOIN_DEX cfg) Auto.max_uint256) /\
    exists evs, events o = evs ++ [EvRead (QuoteSwapExactAmountIn p out amount) (Ok q)] in
  Auto.assoc "PathUSD" (TOKENS cfg) = Some p ->
  q <= 0 ->
  (Auto.assoc "AlphaUSD" (TOKENS cfg) = Some out ->
   In (EvRead (QuoteSwapExactAmountIn p out (1 * 10 ^ 6)) (Ok q)) (events o5) ->
   ends_in_none o5 (1 * 10 ^ 6)) /\
  (Auto.assoc "BetaUSD" (TOKENS cfg) = Some out ->
   In (EvRead (QuoteSwapExactAmountIn p out 500000) (Ok q)) (events o17) ->
   ends_in_none o17 500000).
Proof.
  intros o5 o17 ends_in_none Hp Hq. subst ends_in_none. cbv beta. split.
  - intros Hout Hin.
    destruct (swap_sequence_zero_quote "AlphaUSD" (1 * 10 ^ 6) w p out q Hp Hout Hin Hq)
      as (Hres & Hno & Hsent & Hlast).
    split; [exact Hres|]. split; [|split; [exact Hno|split; [exact Hsent|exact Hlast]]].
    intros reason Hr.
    assert (Hx : @Ok value (Some reason) = Ok None)
      by (transitivity (res o5); [symmetry; exact Hr|exact Hres]).
    discriminate Hx.
  - intros Hout Hin.
    destruct (swap_sequence_zero_quote "BetaUSD" 500000 w p out q Hp Hout Hin Hq)
      as (Hres & Hno & Hsent & Hlast).
    split; [exact Hres|]. split; [|split; [exact Hno|split; [exact Hsent|exact Hlast]]].
    intros reason Hr.
    assert (Hx : @Ok value (Some reason) = Ok None)
      by (transitivity (res o17); [symmetry; exact Hr|exact Hres]).
    discriminate Hx.
Qed.

End AutoFacts.

(** C1, at a receipt that carries the creation event: the recipe recovers
    the token address, yet the sweep's iteration ends with the events of the
    recipe alone, so no mint, burn or grant-role follows; the block after
    the [await] does nothing for an address and runs the three recipes only
    for [None], where each returns at once.  With a receipt that has no
    creation event the recipe returns [None] and the iteration again ends
    with the recipe's events. *)
Theorem sweep_never_runs_bonus_on_created_token :
  let created := Auto.activity4_create_stablecoin Demo.node Demo.cfg Demo.alice Demo.world0 in
  let step := Auto.sweep_step Demo.node Demo.cfg Demo.f64 Demo.alice
                (Auto.create_stablecoin_entry Demo.node Demo.cfg Demo.alice) Demo.world0 in
  let missed := Auto.activity4_create_stablecoin Demo.node_without_event Demo.cfg
                  Demo.alice Demo.world0 in
  let step' := Auto.sweep_step Demo.node_without_event Demo.cfg Demo.f64 Demo.alice
                 (Auto.create_stablecoin_entry Demo.node_without_event Demo.cfg Demo.alice)
                 Demo.world0 in
  res created = Ok (Some Demo.new_token) /\
  events step = events created /\
  sent_calls (events step) =
    [CreateToken "Test Token AAAA" "TAAAAUSD" "USD" Demo.path_usd Demo.alice] /\
  events (Auto.after_create Demo.node Demo.cfg Demo.alice (Some Demo.new_token)
            (post created)) = [] /\
  sent_calls (events (Auto.after_create Demo.node Demo.cfg Demo.alice None (post created))) = [] /\
  res missed = Ok None /\
  events step' = events missed.
Proof. vm_compute. repeat split. Qed.

(** C7 as stated, refuted: with a sufficient allowance and a quote of
    zero, [activity5_swap] broadcasts nothing and its result is [None], no
    string at all and so no ["skipped: ..."] sentinel; it is the very
    outcome value of a run in which the first RPC call fails, and of the
    batch recipe at its own zero quote, whereas the burn recipe marks its
    unmet precondition with a string. *)
Lemma swap_zero_quote_counterexample :
  let w := Demo.world_of Demo.chain_no_liquidity [] [] [] in
  let o := Auto.activity5_swap Demo.node Demo.cfg Demo.alice w in
  let failed := Auto.activity5_swap Demo.node Demo.cfg Demo.alice
                  (Demo.world_of Demo.chain_no_liquidity [Some "execution reverted"] [] []) in
  let batch := Auto.activity17_batch_operations Demo.node Demo.cfg Demo.alice w in
  let burn := Auto.activity9_burn_tokens Demo.node Demo.cfg Demo.alice
                (Some Demo.new_token) w in
  chain w (QuoteSwapExactAmountIn Demo.path_usd Demo.alpha_usd (1 * 10 ^ 6)) = 0 /\
  In (EvRead (QuoteSwapExactAmountIn Demo.path_usd Demo.alpha_usd (1 * 10 ^ 6)) (Ok 0))
     (events o) /\
  sent_calls (events o) = [] /\
  res o = Ok None /\
  (forall reason, res o <> Ok (Some reason)) /\
  res o = res failed /\
  res batch = Ok None /\
  res burn = Ok (Some "skipped: low balance").
Proof.
  intros w o failed batch burn.
  assert (Hres : res o = Ok None) by (vm_compute; reflexivity).
  split; [reflexivity|].
  split; [vm_compute; right; left; reflexivity|].
  split; [vm_compute; reflexivity|].
  split; [exact Hres|].
  split; [intros reason Hr; rewrite Hres in Hr; discriminate Hr|].
  split; [vm_compute; reflexivity|].
  split; vm_compute; reflexivity.
Qed.

(** C6 as stated, refuted: three retryable errors in a row use up the
    three attempts with sleeps of 5 and 10 seconds only; there is no third
    sleep and none of 15 seconds. *)
Lemma faucet_backoff_counterexample :
  let o := Auto.activity2_faucet Demo.node Demo.alice 3 Demo.world_timeouts in
  faucet_requests (events o) = 3%nat /\
  res o = Ok None /\
  sleeps (events o) = [5%Q; 10%Q] /\
  sleeps (events o) <> [5%Q; 10%Q; 15%Q] /\
  ~ In 15%Q (sleeps (events o)).
Proof.
  vm_compute. repeat split; try discriminate.
  intros [H|[H|[]]]; discriminate H.
Qed.

(** ** The decision engine of smart.py *)

Section SmartFacts.
Variable cfg : Config.
Variable f64 : Float64.
Variable load_created_tokens : address -> list (string * string).

Lemma res_lift {A} (m : M World A) self :
  res (Smart.lift m self) = res (m (Smart.world self)).
Proof. reflexivity. Qed.

Lemma random_random_returns w : exists r, res (random_random w) = Ok r.
Proof. unfold random_random. destruct (rand_floats w); cbn; eauto. Qed.

Lemma and_random_lt_returns c p self :
  exists b, res (Smart.and_random_lt c p self) = Ok b /\ (b = true -> c = true).
Proof.
  unfold Smart.and_random_lt.
  destruct c; [|exists false; split; [reflexivity|discriminate]].
  rewrite res_bind, res_lift.
  destruct (random_random_returns (Smart.world self)) as [r ->]. cbn. eauto.
Qed.

Lemma random_choice_returns {A} (l : list A) w :
  l <> [] -> exists x, res (random_choice l w) = Ok x.
Proof.
  destruct l as [|d l]; [congruence|]. intros _.
  unfold random_choice, bind, randbelow.
  destruct (rand_ints w); cbn; eauto.
Qed.

(** The refresh swallows every exception. *)
Lemma update_balances_returns self :
  res (Smart.update_balances cfg f64 self) = Ok tt.
Proof.
  unfold Smart.update_balances. rewrite res_try_catch.
  match goal with |- context [match ?r with _ => _ end] => destruct r as [[]|e] end;
    reflexivity.
Qed.

(** From priority 2 on, the rules always end in one action. *)
Lemma rules_after_faucet_returns path alpha beta self :
  exists act, res (Smart.rules_after_faucet load_created_tokens path alpha beta self) = Ok act.
Proof.
  unfold Smart.rules_after_faucet.
  rewrite res_bind.
  destruct (and_random_lt_returns true Smart.f0_15 self) as (b & -> & _).
  destruct b; [cbn; eauto|].
  destruct (_ && _); [cbn; eauto|].
  set (s1 := post _).
  rewrite res_bind.
  destruct (and_random_lt_returns (Smart.Qltb 1000 path) Smart.f0_1 s1) as (b & -> & _).
  destruct b; [cbn; eauto|].
  set (s2 := post _).
  rewrite res_bind.
  destruct (and_random_lt_returns (Smart.Qltb 5 path && Smart.Qltb 5 alpha) Smart.f0_3 s2)
    as (b & -> & _).
  destruct b; [cbn; eauto|].
  set (s3 := post _).
  rewrite res_bind. cbn [get res post].
  rewrite res_bind.
  match goal with |- context [Smart.and_random_lt ?c ?p ?s] =>
    destruct (and_random_lt_returns c p s) as (b & -> & _) end.
  destruct b; [cbn; eauto|].
  set (s4 := post _).
  rewrite res_bind.
  destruct (and_random_lt_returns true Smart.f0_05 s4) as (b & -> & _).
  destruct b; [cbn; eauto|].
  set (s5 := post _).
  rewrite res_bind.
  match goal with |- context [Smart.and_random_lt ?c ?p ?s] =>
    destruct (and_random_lt_returns c p s) as (b & -> & Hc) end.
  destruct b.
  - specialize (Hc eq_refl).
    assert (Hne : Smart.created_tokens s3 <> []).
    { destruct (Smart.created_tokens s3); [discriminate Hc|discriminate]. }
    set (s6 := post _).
    rewrite res_bind, res_lift.
    destruct (random_choice_returns (Smart.created_tokens s3) (Smart.world s6) Hne) as [tok ->].
    rewrite res_bind, res_lift.
    match goal with |- context [random_random ?w] =>
      destruct (random_random_returns w) as [r ->] end.
    destruct (Smart.Qltb r Smart.f0_6); cbn; eauto.
  - rewrite res_lift. apply random_choice_returns. discriminate.
Qed.

(** C2: one call of [decide_next_action] never raises and returns one
    action; when the recovery flag is set that action is the faucet claim,
    chosen before any balance is read or any random number drawn (no
    event, the world and the cached balances are untouched), and the flag
    is cleared. *)
Theorem decide_next_action_recovery_first (self : Smart.SmartWallet) :
  let o := Smart.decide_next_action cfg f64 load_created_tokens self in
  (exists act, res o = Ok act) /\
  (Smart.should_recover_faucet self = true ->
     res o = Ok Smart.faucet_recovery /\
     Smart.fn Smart.faucet_recovery = Smart.FnFaucet /\
     Smart.should_recover_faucet (post o) = false /\
     events o = [] /\
     Smart.world (post o) = Smart.world self /\
     Smart.balances (post o) = Smart.balances self).
Proof.
  intros o. subst o. unfold Smart.decide_next_action.
  rewrite bind_get. cbn [res post events].
  destruct (Smart.should_recover_faucet self) eqn:Hflag.
  - split; [cbn; eauto|]. intros _. cbn. auto 10.
  - split; [|discriminate].
    rewrite res_bind, update_balances_returns.
    rewrite res_bind. cbn [get res post].
    destruct (Smart.Qltb _ Smart.f2_0); [cbn; eauto|].
    apply rules_after_faucet_returns.
Qed.

Lemma Qltb_true a b : (a < b)%Q -> Smart.Qltb a b = true.
Proof.
  intros H. unfold Smart.Qltb. destruct (Qle_bool b a) eqn:E; [|reflexivity].
  apply Qle_bool_iff in E. exfalso. exact (Qlt_not_le _ _ H E).
Qed.

Lemma Qltb_false a b : (b <= a)%Q -> Smart.Qltb a b = false.
Proof.
  intros H. unfold Smart.Qltb. apply Qle_bool_iff in H. now rewrite H.
Qed.

Lemma and_random_lt_draw self r p :
  hd_error (rand_floats (Smart.world self)) = Some r ->
  res (Smart.and_random_lt true p self) = Ok (Smart.Qltb r p).
Proof.
  intros Hr. unfold Smart.and_random_lt. rewrite res_bind, res_lift.
  unfold random_random.
  destruct (rand_floats (Smart.world self)) as [|r0 rs]; [discriminate Hr|].
  injection Hr as ->. reflexivity.
Qed.

(** C9, as the code has it: when the recovery flag is clear and, after the
    refresh, the native balance is at least 2.0, the wallet holds 20
    PathUSD, 1 AlphaUSD and 1 BetaUSD, and the draw of the create-token
    rule is not below 0.15, [decide_next_action] selects the swap. *)
Theorem swap_rule_fires_after_earlier_rules (self : Smart.SmartWallet) (r : Q) :
  let refreshed := post (Smart.update_balances cfg f64 self) in
  Smart.should_recover_faucet self = false ->
  (Smart.f2_0 <= Smart.balance refreshed "ETH")%Q ->
  (Smart.balance refreshed "PathUSD" == 20)%Q ->
  (Smart.balance refreshed "AlphaUSD" == 1)%Q ->
  (Smart.balance refreshed "BetaUSD" == 1)%Q ->
  hd_error (rand_floats (Smart.world refreshed)) = Some r ->
  (Smart.f0_15 <= r)%Q ->
  res (Smart.decide_next_action cfg f64 load_created_tokens self) =
    Ok (Smart.swap_action (Smart.balance refreshed "PathUSD")) /\
  Smart.fn (Smart.swap_action (Smart.balance refreshed "PathUSD")) = Smart.FnSwap.
Proof.
  intros refreshed Hflag Heth Hpath Halpha Hbeta Hr Hdraw.
  split; [|reflexivity].
  unfold Smart.decide_next_action.
  rewrite bind_get. cbn [res post events]. rewrite Hflag.
  rewrite res_bind, update_balances_returns. fold refreshed.
  rewrite bind_get. cbn [res post events].
  rewrite (Qltb_false _ _ Heth).
  unfold Smart.rules_after_faucet.
  rewrite res_bind, (and_random_lt_draw _ _ Smart.f0_15 Hr).
  rewrite (Qltb_false _ _ Hdraw).
  assert (Smart.Qltb 10 (Smart.balance refreshed "PathUSD") = true) as ->.
  { apply Qltb_true. rewrite Hpath. reflexivity. }
  assert (Smart.Qltb (Smart.balance refreshed "AlphaUSD") 5 = true) as ->.
  { apply Qltb_true. rewrite Halpha. reflexivity. }
  reflexivity.
Qed.

End SmartFacts.

(** C9 as stated, refuted: a wallet with 5 native units, 20 PathUSD, 1
    AlphaUSD and 1 BetaUSD whose first draw is 0.1 is told to deploy a new
    token, and the same wallet with its recovery flag set is told to claim
    the faucet; neither is the swap. *)
Lemma swap_rule_counterexample :
  let self := Demo.wallet_of (Demo.world_of Demo.chain0 [] [(1 # 10)%Q] []) false in
  let o := Smart.decide_next_action Demo.cfg Demo.f64 Demo.no_tokens self in
  let o' := Smart.decide_next_action Demo.cfg Demo.f64 Demo.no_tokens
              (Demo.wallet_of (Demo.world_of Demo.chain0 [] [(1 # 2)%Q] []) true) in
  (Smart.balance (post o) "PathUSD" == 20)%Q /\
  (Smart.balance (post o) "AlphaUSD" == 1)%Q /\
  (Smart.balance (post o) "BetaUSD" == 1)%Q /\
  (Smart.balance (post o) "ETH" == 5)%Q /\
  (exists act, res o = Ok act /\ Smart.fn act = Smart.FnWrapCreateToken /\
               Smart.fn act <> Smart.FnSwap) /\
  (exists act, res o' = Ok act /\ Smart.fn act = Smart.FnFaucet /\
               Smart.fn act <> Smart.FnSwap).
Proof.
  vm_compute. repeat split.
  - eexists. repeat split. discriminate.
  - eexists. repeat split. discriminate.
Qed.

(** ** The theorems at work on the test network *)

(** The test node's token sets the allowance on [approve]. *)
Lemma demo_node_honours_approve : honours_approve Demo.node.
Proof.
  intros c tx tok spender amount Hcall _. unfold Demo.node. cbn [mine].
  rewrite Hcall. cbn [fst]. unfold Demo.set_allowance.
  now rewrite !String.eqb_refl.
Qed.

(** Every receipt of the test node has success status. *)
Lemma demo_node_mines_ok {A} (c : Chain) (o : outcome World A) : mined_ok Demo.node c o.
Proof.
  intros tx h _. unfold Demo.node. cbn [mine]. now destruct (tx_call tx).
Qed.

(** The three token recipes on [None]. *)
Lemma token_recipes_return_none_witness :
  truthy None = false /\
  Auto.activity8_mint_tokens Demo.node Demo.cfg Demo.alice None Demo.world0 =
    Outcome (Ok None) Demo.world0 [] /\
  Auto.activity9_burn_tokens Demo.node Demo.cfg Demo.alice None Demo.world0 =
    Outcome (Ok None) Demo.world0 [] /\
  Auto.activity13_grant_role Demo.node Demo.cfg Demo.alice None Demo.world0 =
    Outcome (Ok None) Demo.world0 [].
Proof.
  split; [reflexivity|].
  apply (token_recipes_return_none_without_address
           Demo.node Demo.cfg Demo.alice None Demo.world0).
  reflexivity.
Defined.

(** A balance of 1 token: the burn is skipped. *)
Lemma burn_skips_below_threshold_witness :
  truthy (Some Demo.new_token) = true /\
  res (Auto.activity9_burn_tokens Demo.node Demo.cfg Demo.alice
         (Some Demo.new_token) Demo.world0) = Ok (Some "skipped: low balance") /\
  sent_calls (events (Auto.activity9_burn_tokens Demo.node Demo.cfg Demo.alice
                        (Some Demo.new_token) Demo.world0)) = [].
Proof.
  split; [reflexivity|].
  destruct (burn_skips_below_threshold Demo.node Demo.cfg Demo.alice
              Demo.new_token Demo.world0 eq_refl) as (_ & Hlow & _).
  destruct Hlow as [Hsent Hres]; [vm_compute; reflexivity|].
  split; [|exact Hsent]. apply Hres. reflexivity.
Defined.

(** A quote of 990000 for one PathUSD: the swap asks for at least 980100. *)
Lemma swap_min_out_witness :
  exists q,
    In (EvRead (QuoteSwapExactAmountIn Demo.path_usd Demo.alpha_usd 1000000) (Ok q))
       (events (Auto.activity5_swap Demo.node Demo.cfg Demo.alice Demo.world0)) /\
    0 < q /\ 980100 = q * 99 / 100 /\ 980100 <= q.
Proof.
  destruct (swap_min_out_is_99_percent Demo.node Demo.cfg Demo.alice Demo.world0)
    as (H5 & _).
  apply (H5 Demo.path_usd Demo.alpha_usd 1000000 980100).
  vm_compute. right. left. reflexivity.
Defined.

(** From no allowance: the first run approves [2^256 - 1], the second
    sends nothing. *)
Lemma ensure_allowance_idempotent_witness :
  honours_approve Demo.node /\
  1000000 <= Auto.max_uint256 /\
  let o1 := Auto.ensure_allowance Demo.node Demo.cfg Demo.alice
              Demo.path_usd Demo.dex 1000000 Demo.world0 in
  let o2 := Auto.ensure_allowance Demo.node Demo.cfg Demo.alice
              Demo.path_usd Demo.dex 1000000 (post o1) in
  sent_calls (events o1) = [Approve Demo.path_usd Demo.dex (2 ^ 256 - 1)] /\
  sent_calls (events o2) = [] /\
  (length (approvals (events o1 ++ events o2)) <= 1)%nat.
Proof.
  assert (Hmax : 1000000 <= Auto.max_uint256) by (apply Z.leb_le; vm_compute; reflexivity).
  split; [exact demo_node_honours_approve|]. split; [exact Hmax|].
  intros o1 o2.
  destruct (ensure_allowance_idempotent Demo.node Demo.cfg Demo.alice
              Demo.path_usd Demo.dex 1000000 Demo.world0
              demo_node_honours_approve Hmax) as (_ & _ & _ & Htwice).
  split; [vm_compute; reflexivity|].
  apply Htwice; [vm_compute; reflexivity | apply demo_node_mines_ok].
Defined.

(** A position of 3 LP in the first pool: 0.6 LP are withdrawn. *)
Lemma remove_liquidity_bounds_witness :
  exists t1 t2 amount pid lp,
    FeeManagerBurn Demo.path_usd Demo.alpha_usd 600000 Demo.alice =
      FeeManagerBurn t1 t2 amount Demo.alice /\
    In (EvRead (GetPoolId t1 t2) (Ok pid))
       (events (Auto.activity12_remove_liquidity Demo.node Demo.cfg Demo.f64
                  Demo.alice Demo.world0)) /\
    In (EvRead (LiquidityBalances pid Demo.alice) (Ok lp))
       (events (Auto.activity12_remove_liquidity Demo.node Demo.cfg Demo.f64
                  Demo.alice Demo.world0)) /\
    0 < lp /\ Auto.min_withdraw <= amount <= lp.
Proof.
  destruct (remove_liquidity_bounds Demo.node Demo.cfg Demo.alice Demo.f64 Demo.world0)
    as (_ & Hsent & _).
  apply Hsent. vm_compute. left. reflexivity.
Defined.

(** Three retryable errors: requests at 0 s, after 5 s and after 10 s more. *)
Lemma faucet_retry_schedule_witness :
  let o := Auto.activity2_faucet Demo.node Demo.alice 3 Demo.world_timeouts in
  res o = Ok None /\
  events o = [EvFaucet Demo.alice (Raise "504 Gateway Timeout"); EvSleep 5;
              EvFaucet Demo.alice (Raise "Read timed out."); EvSleep 10;
              EvFaucet Demo.alice (Raise "HTTPConnectionPool: connection refused")].
Proof.
  destruct (faucet_retry_schedule Demo.node Demo.alice Demo.world_timeouts)
    as (_ & _ & _ & _ & _ & Hretry).
  destruct (Hretry "504 Gateway Timeout" eq_refl eq_refl) as (_ & _ & Hsecond).
  destruct (Hsecond "Read timed out." eq_refl eq_refl) as (_ & Hthird).
  apply Hthird. reflexivity.
Defined.

(** A wallet with the recovery flag set. *)
Lemma decide_next_action_recovery_witness :
  let self := Demo.wallet_of Demo.world0 true in
  let o := Smart.decide_next_action Demo.cfg Demo.f64 Demo.no_tokens self in
  Smart.should_recover_faucet self = true /\
  res o = Ok Smart.faucet_recovery /\
  Smart.should_recover_faucet (post o) = false /\
  events o = [].
Proof.
  intros self o. split; [reflexivity|].
  destruct (decide_next_action_recovery_first Demo.cfg Demo.f64 Demo.no_tokens self)
    as (_ & Hrec).
  destruct (Hrec eq_refl) as (H1 & _ & H2 & H3 & _). auto.
Defined.

(** 5 native units, 20 PathUSD, 1 AlphaUSD, 1 BetaUSD and a draw of 0.5. *)
Lemma swap_rule_fires_witness :
  let self := Demo.wallet_of (Demo.world_of Demo.chain0 [] [(1 # 2)%Q] []) false in
  let refreshed := post (Smart.update_balances Demo.cfg Demo.f64 self) in
  Smart.should_recover_faucet self = false /\
  (Smart.f2_0 <= Smart.balance refreshed "ETH")%Q /\
  (Smart.balance refreshed "PathUSD" == 20)%Q /\
  (Smart.balance refreshed "AlphaUSD" == 1)%Q /\
  (Smart.balance refreshed "BetaUSD" == 1)%Q /\
  hd_error (rand_floats (Smart.world refreshed)) = Some (1 # 2)%Q /\
  (Smart.f0_15 <= 1 # 2)%Q /\
  res (Smart.decide_next_action Demo.cfg Demo.f64 Demo.no_tokens self) =
    Ok (Smart.swap_action (Smart.balance refreshed "PathUSD")).
Proof.
  intros self refreshed.
  assert (H1 : Smart.should_recover_faucet self = false) by reflexivity.
  assert (H2 : (Smart.f2_0 <= Smart.balance refreshed "ETH")%Q)
    by (apply Qle_bool_iff; vm_compute; reflexivity).
  assert (H3 : (Smart.balance refreshed "PathUSD" == 20)%Q) by (vm_compute; reflexivity).
  assert (H4 : (Smart.balance refreshed "AlphaUSD" == 1)%Q) by (vm_compute; reflexivity).
  assert (H5 : (Smart.balance refreshed "BetaUSD" == 1)%Q) by (vm_compute; reflexivity).
  assert (H6 : hd_error (rand_floats (Smart.world refreshed)) = Some (1 # 2)%Q)
    by (vm_compute; reflexivity).
  assert (H7 : (Smart.f0_15 <= 1 # 2)%Q) by (apply Qle_bool_iff; vm_compute; reflexivity).
  repeat (split; [assumption|]).
  apply (swap_rule_fires_after_earlier_rules Demo.cfg Demo.f64 Demo.no_tokens
           self (1 # 2)%Q H1 H2 H3 H4 H5 H6 H7).
Defined.

(** ** Wallet selection *)

Section SelectionFacts.
Variable int : string -> option Z.

Lemma unpack_range_parsed pieces start end_ :
  Selection.unpack_range int pieces = Selection.Parsed (start, end_) ->
  exists a b, pieces = [a; b] /\ int a = Some start /\ int b = Some end_.
Proof.
  unfold Selection.unpack_range, Selection.int_or_fail.
  destruct pieces as [|a [|b [|c rest]]]; try discriminate.
  - destruct (int a); discriminate.
  - destruct (int a) as [s|] eqn:Ea; [|discriminate].
    destruct (int b) as [e|] eqn:Eb; [|discriminate].
    intros [= -> ->]. eauto.
  - destruct (int a) as [s|]; [|discriminate].
    destruct (int b) as [e|]; [|discriminate].
    destruct (int c); discriminate.
Qed.

(** The set built by the loop holds what it held before and the wallet
    numbers named by the parts. *)
Lemma select_parts_spec total parts : forall selected out,
  Selection.select_parts int total parts selected = Selection.Parsed out ->
  forall n, n ∈ out <->
            n ∈ selected \/ exists part, part ∈ parts /\ Selection.names int total part n.
Proof.
  induction parts as [|part rest IH]; intros selected out Hrun n.
  - cbn in Hrun. injection Hrun as <-. split; [auto|].
    intros [H|(part & Hin & _)]; [exact H|]. now apply elem_of_nil in Hin.
  - cbn [Selection.select_parts] in Hrun.
    assert (Hcons : forall P : string -> Prop,
               (exists p, p ∈ part :: rest /\ P p) <-> P part \/ exists p, p ∈ rest /\ P p).
    { intros P. split.
      - intros (p & Hin & HP). apply elem_of_cons in Hin as [->|Hin]; eauto.
      - intros [HP|(p & Hin & HP)]; [exists part|exists p]; split; auto;
          apply elem_of_cons; auto. }
    rewrite Hcons. unfold Selection.names at 1.
    destruct (contains "-" part) eqn:Hdash.
    + destruct (Selection.unpack_range int (Selection.split "-" part))
        as [[start end_]|e] eqn:Hu; [|discriminate].
      destruct ((start <? 1) || (total <? end_) || (end_ <? start)) eqn:Hguard.
      * rewrite (IH _ _ Hrun n). split; [tauto|].
        intros [H|[(s & e & [= <- <-] & Hb)|H]]; [tauto| |tauto].
        exfalso. apply orb_true_iff in Hguard as [Hguard|Hguard];
          [apply orb_true_iff in Hguard as [Hguard|Hguard]|];
          apply Z.ltb_lt in Hguard; lia.
      * apply orb_false_iff in Hguard as [Hguard H3].
        apply orb_false_iff in Hguard as [H1 H2].
        apply Z.ltb_ge in H1, H2, H3.
        rewrite (IH _ _ Hrun n), elem_of_union, elem_of_list_to_set, elem_of_seqZ.
        split.
        -- intros [[H|H]|H]; [tauto| |tauto].
           right. left. exists start, end_. split; [reflexivity|lia].
        -- intros [H|[(s & e & [= <- <-] & Hb)|H]]; [tauto| |tauto].
           left. right. lia.
    + destruct (int part) as [num|] eqn:Hint.
      * destruct ((num <? 1) || (total <? num)) eqn:Hguard.
        -- rewrite (IH _ _ Hrun n). split; [tauto|].
           intros [H|[[[= <-] Hb]|H]]; [tauto| |tauto].
           exfalso. apply orb_true_iff in Hguard as [Hguard|Hguard];
             apply Z.ltb_lt in Hguard; lia.
        -- apply orb_false_iff in Hguard as [H1 H2]. apply Z.ltb_ge in H1, H2.
           rewrite (IH _ _ Hrun n), elem_of_union, elem_of_singleton.
           split.
           ++ intros [[H|H]|H]; [tauto| |tauto]. subst. right. left. split; [reflexivity|lia].
           ++ intros [H|[[[= <-] Hb]|H]]; tauto.
      * rewrite (IH _ _ Hrun n). split; [tauto|].
        intros [H|[[[=] _]|H]]; tauto.
Qed.

Lemma elem_of_zero_based_sorted selected i :
  i ∈ Selection.zero_based_sorted selected <-> i + 1 ∈ selected.
Proof.
  unfold Selection.zero_based_sorted.
  rewrite merge_sort_Permutation, list_elem_of_fmap.
  split.
  - intros (n & -> & Hn). apply elem_of_elements in Hn.
    now replace (n - 1 + 1) with n by lia.
  - intros H. exists (i + 1). split; [lia|]. now apply elem_of_elements.
Qed.

Lemma strictly_sorted (l : list Z) :
  StronglySorted Z.le l -> NoDup l -> StronglySorted Z.lt l.
Proof.
  induction 1 as [|x l Hs IH Hall]; intros Hnd; [constructor|].
  apply NoDup_cons in Hnd as [Hx Hnd].
  constructor; [auto|].
  apply Forall_forall. intros y Hy.
  assert (x <= y) by (eapply Forall_forall in Hall; eauto).
  assert (x <> y) by (intros ->; apply Hx; now apply list_elem_of_In).
  lia.
Qed.

Lemma zero_based_sorted_strict selected :
  StronglySorted Z.lt (Selection.zero_based_sorted selected).
Proof.
  apply strictly_sorted.
  - unfold Selection.zero_based_sorted. apply StronglySorted_merge_sort; apply _.
  - unfold Selection.zero_based_sorted. rewrite merge_sort_Permutation.
    apply NoDup_fmap_2; [|apply NoDup_elements].
    intros a b Hab. lia.
Qed.

(** The loop fails exactly when it meets a part with a dash whose pieces
    do not unpack into two numbers. *)
Lemma select_parts_parsed_iff total parts : forall selected,
  (exists out, Selection.select_parts int total parts selected = Selection.Parsed out) <->
  (forall part, part ∈ parts -> contains "-" part = true ->
                exists p, Selection.unpack_range int (Selection.split "-" part) = Selection.Parsed p).
Proof.
  induction parts as [|part rest IH]; intros selected.
  - cbn. split; [|eauto]. intros _ part Hin. now apply elem_of_nil in Hin.
  - cbn [Selection.select_parts].
    assert (Hall : forall P : string -> Prop,
               (forall p, p ∈ part :: rest -> P p) <-> P part /\ forall p, p ∈ rest -> P p).
    { intros P. split.
      - intros H. split; [apply H; now left|]. intros p Hp. apply H. now right.
      - intros [H1 H2] p Hp. apply elem_of_cons in Hp as [->|Hp]; auto. }
    rewrite (Hall (fun p => contains "-" p = true -> _)).
    destruct (contains "-" part) eqn:Hdash.
    + destruct (Selection.unpack_range int (Selection.split "-" part))
        as [[start end_]|e] eqn:Hu.
      * destruct (_ || _); rewrite IH; split; intros H; try split; try tauto; eauto.
      * split; [intros [out [=]]|]. intros [H _]. destruct (H eq_refl) as [p [=]].
    + destruct (int part) as [num|]; [destruct (_ || _)|]; rewrite IH;
        split; intros H; try split; try tauto; discriminate.
Qed.

Lemma range_spec total : forall i, i ∈ Auto.range total <-> 0 <= i < total.
Proof.
  intros i. unfold Auto.range. rewrite list_elem_of_fmap. split.
  - intros (k & -> & Hk). apply elem_of_seq in Hk. lia.
  - intros H. exists (Z.to_nat i). split; [lia|]. apply elem_of_seq. lia.
Qed.

Lemma range_strictly_sorted total : StronglySorted Z.lt (Auto.range total).
Proof.
  unfold Auto.range. generalize (Z.to_nat total) as len, O as start.
  induction len as [|len IH]; intros start; cbn; constructor; [apply IH|].
  apply Forall_forall. intros y Hy.
  apply list_elem_of_fmap in Hy as (k & -> & Hk). apply elem_of_seq in Hk. lia.
Qed.

(** X1: the indices [parse_wallet_selection] returns are strictly
    increasing (sorted, none twice) and each is a valid zero-based index
    into the [total_wallets] keys. *)
Theorem parse_wallet_selection_sorted_in_range
        (input_str : string) (total_wallets : Z) (l : list Z) :
  Selection.parse_wallet_selection int input_str total_wallets = Selection.Parsed l ->
  StronglySorted Z.lt l /\ forall i, i ∈ l -> 0 <= i < total_wallets.
Proof.
  unfold Selection.parse_wallet_selection.
  destruct (Selection.select_parts int total_wallets _ ∅) as [selected|e] eqn:Hsel;
    [|discriminate].
  intros [= <-]. split; [apply zero_based_sorted_strict|].
  intros i Hi. apply elem_of_zero_based_sorted in Hi.
  apply (select_parts_spec _ _ _ _ Hsel) in Hi as [Hi|(part & _ & Hn)].
  - now apply elem_of_empty in Hi.
  - unfold Selection.names in Hn. destruct (contains "-" part).
    + destruct Hn as (s & e & _ & Hb). lia.
    + destruct Hn as [_ Hb]. lia.
Qed.

(** X2: index [i] is returned exactly when some comma-separated part of
    the cleaned input names wallet number [i + 1]: a plain number within
    [1, total_wallets] names itself, a range [a-b] with [1 <= a <= b <=
    total_wallets] names every number from [a] to [b]; a range that
    reaches out of bounds names nothing (it is dropped whole, not
    clipped). *)
Theorem parse_wallet_selection_membership
        (input_str : string) (total_wallets : Z) (l : list Z) :
  Selection.parse_wallet_selection int input_str total_wallets = Selection.Parsed l ->
  forall i, i ∈ l <->
            exists part, part ∈ Selection.parts_of input_str /\
                         Selection.names int total_wallets part (i + 1).
Proof.
  unfold Selection.parse_wallet_selection.
  destruct (Selection.select_parts int total_wallets _ ∅) as [selected|e] eqn:Hsel;
    [|discriminate].
  intros [= <-] i. rewrite elem_of_zero_based_sorted.
  rewrite (select_parts_spec _ _ _ _ Hsel). split; [|auto].
  intros [H|H]; [now apply elem_of_empty in H | exact H].
Qed.

(** X3: [parse_wallet_selection] returns a list exactly when every part
    that contains a dash splits into two pieces that [int] accepts; a plain
    part that is not a number is passed over and never makes it fail. *)
Theorem parse_wallet_selection_fails_only_on_ranges
        (input_str : string) (total_wallets : Z) :
  (exists l, Selection.parse_wallet_selection int input_str total_wallets = Selection.Parsed l) <->
  (forall part, part ∈ Selection.parts_of input_str -> contains "-" part = true ->
                exists a b start end_,
                  Selection.split "-" part = [a; b] /\
                  int a = Some start /\ int b = Some end_).
Proof.
  unfold Selection.parse_wallet_selection. split.
  - intros [l Hl] part Hin Hdash.
    destruct (Selection.select_parts int total_wallets _ ∅) as [selected|e] eqn:Hsel;
      [|discriminate].
    destruct (proj1 (select_parts_parsed_iff total_wallets _ ∅)
                (ex_intro _ selected Hsel) part Hin Hdash) as [[s e] Hp].
    apply unpack_range_parsed in Hp as (a & b & Hab & Ha & Hb). eauto 8.
  - intros H.
    destruct (proj2 (select_parts_parsed_iff total_wallets (Selection.parts_of input_str) ∅))
      as [out ->]; [|eauto].
    intros part Hin Hdash. destruct (H part Hin Hdash) as (a & b & s & e & -> & Ha & Hb).
    exists (s, e). unfold Selection.unpack_range, Selection.int_or_fail.
    now rewrite Ha, Hb.
Qed.

(** X4: a part written as a negative number, such as [-5], is read as a
    range with an empty first piece, so that [int('')] raises: the whole
    selection fails with a [ValueError] instead of reporting the index as
    out of bounds. *)
Theorem parse_wallet_selection_negative_number_raises
        (input_str : string) (total_wallets : Z) (digits : string) :
  int "" = None ->
  String "-" digits ∈ Selection.parts_of input_str ->
  exists e, Selection.parse_wallet_selection int input_str total_wallets = Selection.Failed e.
Proof.
  intros Hempty Hin.
  destruct (Selection.parse_wallet_selection int input_str total_wallets) as [l|e] eqn:Hp;
    [|eauto].
  exfalso. unfold Selection.parse_wallet_selection in Hp.
  destruct (Selection.select_parts int total_wallets _ ∅) as [selected|e] eqn:Hsel;
    [|discriminate].
  assert (Hdash : contains "-" (String "-" digits) = true)
    by (cbn; destruct digits; reflexivity).
  destruct (proj1 (select_parts_parsed_iff total_wallets _ ∅)
              (ex_intro _ selected Hsel) _ Hin Hdash) as [[s e] Hu].
  apply unpack_range_parsed in Hu as (a & b & Hab & Ha & _).
  cbn in Hab. injection Hab as <- _. congruence.
Qed.

(** X5: whichever way [run_auto_mode] obtains [selected_indices], from
    ['all'] or from a parsed selection, they are strictly increasing and
    each one is a valid index into the list of keys, so that
    [private_keys[i]] cannot be out of range. *)
Theorem selected_indices_valid
        (selection : string) (total_wallets : Z) (l : list Z) :
  Selection.selected_indices int selection total_wallets = Selection.Parsed l ->
  StronglySorted Z.lt l /\ forall i, i ∈ l -> 0 <= i < total_wallets.
Proof.
  unfold Selection.selected_indices.
  destruct (String.eqb _ "all").
  - intros [= <-]. split; [apply range_strictly_sorted|]. intros i. apply range_spec.
  - unfold Selection.parse_wallet_selection.
    destruct (Selection.select_parts int total_wallets _ ∅) as [selected|e] eqn:Hsel;
      [|discriminate].
    intros [= <-]. split; [apply zero_based_sorted_strict|].
    intros i Hi. apply elem_of_zero_based_sorted in Hi.
    apply (select_parts_spec _ _ _ _ Hsel) in Hi as [Hi|(part & _ & Hn)].
    + now apply elem_of_empty in Hi.
    + unfold Selection.names in Hn. destruct (contains "-" part).
      * destruct Hn as (s & e & _ & Hb). lia.
      * destruct Hn as [_ Hb]. lia.
Qed.

End SelectionFacts.

(** ** Shuffling and the sweep *)

Section SweepFacts.
Variable node : Node.
Variable cfg : Config.
Variable f64 : Float64.
Variable wallet : address.

Lemma swap_Permutation {A} (i j : nat) (x : list A) : Rpc.swap i j x ≡ₚ x.
Proof.
  unfold Rpc.swap.
  destruct (x !! i) as [a|] eqn:Hi; [|reflexivity].
  destruct (x !! j) as [b|] eqn:Hj; [|reflexivity].
  now apply Permutation_insert_swap.
Qed.

(** A draw changes nothing of the world but the list of draws. *)
Lemma randbelow_frame n w :
  exists k, res (randbelow n w) = Ok k /\ events (randbelow n w) = [] /\
            chain (post (randbelow n w)) = chain w /\
            faults (post (randbelow n w)) = faults w /\
            receipts (post (randbelow n w)) = receipts w /\
            (n <> O -> (k < n)%nat).
Proof.
  unfold randbelow. destruct (rand_ints w) as [|k ks]; cbn.
  - exists O. repeat split; auto. lia.
  - exists (k mod n)%nat. repeat split; auto.
    intros Hn. now apply Nat.mod_upper_bound.
Qed.

Lemma shuffle_from_spec {A} (i : nat) : forall (x : list A) w,
  exists y, res (shuffle_from i x w) = Ok y /\ y ≡ₚ x /\
            events (shuffle_from i x w) = [] /\
            chain (post (shuffle_from i x w)) = chain w /\
            faults (post (shuffle_from i x w)) = faults w /\
            receipts (post (shuffle_from i x w)) = receipts w.
Proof.
  induction i as [|i IH]; intros x w.
  - exists x. cbn. auto 10.
  - cbn [shuffle_from]. rewrite res_bind, events_bind, post_bind.
    destruct (randbelow_frame (Datatypes.S (Datatypes.S i)) w)
      as (j & -> & -> & Hc & Hf & Hr & _).
    destruct (IH (Rpc.swap (Datatypes.S i) j x) (post (randbelow (Datatypes.S (Datatypes.S i)) w)))
      as (y & -> & Hy & -> & Hc' & Hf' & Hr').
    exists y. rewrite Hc', Hf', Hr', Hc, Hf, Hr.
    repeat split; auto. rewrite Hy. apply swap_Permutation.
Qed.

(** X6: whatever the random draws, [random.shuffle] as used by
    [shuffle_array] and [activity6_add_liquidity] yields a rearrangement of
    its input (every entry once, none lost or repeated), never raises, and
    touches neither the chain nor the network. *)
Theorem random_shuffle_permutation {A} (x : list A) (w : World) :
  exists y, res (random_shuffle x w) = Ok y /\ y ≡ₚ x /\ length y = length x /\
            events (random_shuffle x w) = [] /\
            chain (post (random_shuffle x w)) = chain w /\
            faults (post (random_shuffle x w)) = faults w.
Proof.
  unfold random_shuffle.
  destruct (shuffle_from_spec (length x - 1) x w) as (y & Hr & Hy & He & Hc & Hf & _).
  exists y. repeat split; auto. now rewrite Hy.
Qed.

Lemma sweep_step_returns act w :
  res (Auto.sweep_step node cfg f64 wallet act w) = Ok tt.
Proof.
  unfold Auto.sweep_step. rewrite res_try_catch_ret.
  match goal with |- context [match ?r with _ => _ end] => destruct r as [[]|] end;
    reflexivity.
Qed.

Lemma sweep_loop_returns shuffled : forall w,
  res (Auto.sweep_loop node cfg f64 wallet shuffled w) = Ok tt.
Proof.
  induction shuffled as [|act rest IH]; intros w; [reflexivity|].
  cbn [Auto.sweep_loop]. rewrite res_bind, sweep_step_returns. apply IH.
Qed.

(** X7: a sweep over a list of activities never raises, and it is the
    run, one after the other, of the loop body on a rearrangement of the
    list: every activity of the list gets exactly one turn per sweep. *)
Theorem sweep_visits_each_activity_once (activities : list Auto.activity) (w : World) :
  res (Auto.sweep node cfg f64 wallet activities w) = Ok tt /\
  exists shuffled w',
    shuffled ≡ₚ activities /\
    chain w' = chain w /\ faults w' = faults w /\
    events (Auto.sweep node cfg f64 wallet activities w) =
      events (Auto.sweep_loop node cfg f64 wallet shuffled w').
Proof.
  unfold Auto.sweep. rewrite res_bind, events_bind.
  destruct (shuffle_from_spec (length activities - 1) activities w)
    as (y & Hr & Hy & He & Hc & Hf & _).
  unfold random_shuffle. rewrite Hr, He. cbn [app].
  split; [apply sweep_loop_returns|].
  exists y, (post (shuffle_from (length activities - 1) activities w)). auto.
Qed.

Lemma random_randint_spec a b w :
  a <= b ->
  exists k, res (random_randint a b w) = Ok k /\ a <= k <= b /\
            events (random_randint a b w) = [] /\
            chain (post (random_randint a b w)) = chain w /\
            faults (post (random_randint a b w)) = faults w.
Proof.
  intros Hab. unfold random_randint.
  destruct (Z.ltb_spec b a); [lia|].
  rewrite res_bind, events_bind, post_bind.
  destruct (randbelow_frame (Z.to_nat (b - a + 1)) w) as (k & -> & -> & Hc & Hf & _ & Hk).
  exists (a + Z.of_nat k). cbn [res post events ret app].
  assert (k < Z.to_nat (b - a + 1))%nat by (apply Hk; lia).
  repeat split; auto; lia.
Qed.

(** X8: one turn of the sweep never raises.  For an activity other than
    the token creation and the skipped ids, the recipe is run once; when it
    returns, a pacing sleep of between 2 and 5 seconds follows; when it
    raises, the exception is swallowed and the turn ends without the pacing
    sleep.  For the ids 8, 9, 13, 15 and 18 the recipe is not run at all and
    only the pacing sleep happens. *)
Theorem sweep_step_runs_once_and_paces (act : Auto.activity) (w : World) :
  let o := Auto.sweep_step node cfg f64 wallet act w in
  let paced evs := exists delay, 2000 <= delay <= 5000 /\
                                 events o = evs ++ [EvSleep (truediv f64 delay 1000)] in
  res o = Ok tt /\
  (Auto.id act <> 4 -> Auto.member (Auto.id act) [8; 9; 13; 15; 18] = false ->
     match res (Auto.fn act w) with
     | Ok _ => paced (events (Auto.fn act w))
     | Raise _ => events o = events (Auto.fn act w)
     end) /\
  (Auto.member (Auto.id act) [8; 9; 13; 15; 18] = true -> paced []).
Proof.
  intros o paced. split; [apply sweep_step_returns|].
  assert (Hdelay : forall w0, exists delay,
             2000 <= delay <= 5000 /\
             events (bind (random_randint 2000 5000)
                          (fun d => sleep (truediv f64 d 1000)) w0) =
               [EvSleep (truediv f64 delay 1000)]).
  { intros w0. rewrite events_bind.
    destruct (random_randint_spec 2000 5000 w0) as (k & -> & Hk & -> & _); [lia|].
    exists k. split; [exact Hk|reflexivity]. }
  subst o paced. unfold Auto.sweep_step. rewrite events_try_catch_ret.
  split.
  - intros Hid Hskip.
    destruct (Z.eqb_spec (Auto.id act) 4) as [|_]; [contradiction|].
    assert (Auto.member (Auto.id act) [8; 9; 13] = false) as ->.
    { unfold Auto.member in *. cbn in *. repeat (apply orb_false_iff in Hskip as [? Hskip]).
      repeat (apply orb_false_iff; split); auto. }
    assert (Auto.member (Auto.id act) [15; 18] = false) as ->.
    { unfold Auto.member in *. cbn in *. repeat (apply orb_false_iff in Hskip as [? Hskip]).
      repeat (apply orb_false_iff; split); auto. }
    rewrite events_bind.
    rewrite (events_bind (Auto.fn act)), (res_bind (Auto.fn act)), (post_bind (Auto.fn act)).
    destruct (res (Auto.fn act w)) as [v|e]; cbn [res post events ret app].
    + rewrite app_nil_r.
      destruct (Hdelay (post (Auto.fn act w))) as (delay & Hd & ->). eauto.
    + now rewrite !app_nil_r.
  - intros Hskip.
    assert ((Auto.id act =? 4) = false) as ->.
    { unfold Auto.member in Hskip. cbn in Hskip.
      destruct (Z.eqb_spec (Auto.id act) 4) as [E|]; [|reflexivity].
      rewrite E in Hskip. discriminate. }
    assert (Hcase : (if Auto.member (Auto.id act) [8; 9; 13] then @ret World unit tt
                     else if Auto.member (Auto.id act) [15; 18] then ret tt
                     else bind (Auto.fn act) (fun _ => ret tt)) = ret tt).
    { destruct (Auto.member (Auto.id act) [8; 9; 13]) eqn:E1; [reflexivity|].
      destruct (Auto.member (Auto.id act) [15; 18]) eqn:E2; [reflexivity|].
      exfalso. unfold Auto.member in *. cbn in *.
      repeat (apply orb_false_iff in E1 as [? E1]).
      repeat (apply orb_false_iff in E2 as [? E2]).
      repeat (apply orb_true_iff in Hskip as [Hskip|Hskip]); congruence. }
    rewrite Hcase, events_bind. cbn [res post events ret app].
    destruct (Hdelay w) as (delay & Hd & ->). eauto.
Qed.

End SweepFacts.

(** ** More recipes of auto.py *)

Section RecipeFacts.
Variable node : Node.
Variable cfg : Config.
Variable f64 : Float64.
Variable wallet : address.

Lemma sent_calls_in (evs : list Event) (tx : TxIntent) (r : result string) :
  In (EvSend tx r) evs -> In (tx_call tx) (sent_calls evs).
Proof. intros H. apply in_sent_calls. eauto. Qed.

(** The world [submit] leaves behind when no RPC call fails is calm again. *)
Lemma submit_calm_post call gas w :
  calm w -> calm (post (Auto.submit node cfg wallet call gas w)).
Proof. intros Hc. rewrite (submit_calm node cfg wallet call gas w Hc). reflexivity. Qed.

Lemma submit_calm_sent call gas w :
  calm w ->
  sent_calls (events (Auto.submit node cfg wallet call gas w)) = [call] /\
  exists hr, res (Auto.submit node cfg wallet call gas w) = Ok hr.
Proof. intros Hc. rewrite (submit_calm node cfg wallet call gas w Hc). cbn. eauto. Qed.

(** A failure of the nonce read ends [submit] before anything is sent. *)
Lemma submit_first_fault call gas w e :
  next_fault w = Some e ->
  Auto.submit node cfg wallet call gas w =
    Outcome (Raise e) (drop_fault w) [EvRead (GetTransactionCount wallet) (Raise e)].
Proof.
  destruct w as [c fs rcs rf ri]. unfold next_fault. cbn [faults].
  destruct fs as [|[e1|] fs]; try discriminate. intros [= ->]. reflexivity.
Qed.

(** *** Grant role *)

(** X9: [activity13_grant_role] is a no-op when the pause role is already
    held: it reads the role, broadcasts nothing and returns [None].  Every
    transaction it does broadcast grants the pause role on the given token
    to the wallet itself, and when the role is absent and no RPC call fails
    exactly one such grant is broadcast and its hash returned. *)
Theorem grant_role_only_when_absent (tok : address) (w : World) :
  truthy (Some tok) = true ->
  let o := Auto.activity13_grant_role node cfg wallet (Some tok) w in
  let held := chain w (HasRole tok Auto.PAUSE_ROLE wallet) in
  (forall c, In c (sent_calls (events o)) -> c = GrantRole tok Auto.PAUSE_ROLE wallet) /\
  (next_fault w = None -> held <> 0 ->
     res o = Ok None /\
     events o = [EvRead (HasRole tok Auto.PAUSE_ROLE wallet) (Ok held)]) /\
  (calm w -> held = 0 ->
     sent_calls (events o) = [GrantRole tok Auto.PAUSE_ROLE wallet] /\
     exists h, res o = Ok (Some h)).
Proof.
  intros Ht o held. subst o. unfold Auto.activity13_grant_role.
  rewrite Ht. cbn [negb Auto.address_of].
  rewrite events_try_catch_ret, res_try_catch_ret, events_bind, res_bind.
  split; [|split].
  - intros c Hc. rewrite sent_calls_app, sent_calls_eth_call in Hc. cbn [app] in Hc.
    destruct (res (eth_call _ w)) as [v|]; [|destruct Hc].
    destruct (v =? 0); [|destruct Hc].
    rewrite events_bind, sent_calls_app in Hc. apply in_app_or in Hc as [Hc|Hc].
    + now apply sent_calls_submit in Hc.
    + destruct (res (Auto.submit _ _ _ _ _ _)); destruct Hc.
  - intros Hf Hheld.
    destruct (eth_call_cases (HasRole tok Auto.PAUSE_ROLE wallet) w)
      as [(_ & ->)|(e & He & _)]; [|congruence].
    cbn [res post events]. fold held.
    destruct (Z.eqb_spec held 0); [contradiction|]. cbn. auto.
  - intros Hc Hheld. rewrite (eth_call_calm _ _ Hc). cbn [res post events].
    fold held. rewrite Hheld. cbn [Z.eqb].
    rewrite events_bind, res_bind.
    destruct (submit_calm_sent (GrantRole tok Auto.PAUSE_ROLE wallet) 150000 w Hc)
      as (Hs & hr & Hr).
    rewrite Hr. cbn [res events ret app sent_calls]. rewrite app_nil_r, Hs. eauto.
Qed.

(** *** Mint *)

(** The role check of the mint recipe: a failed read counts as a missing
    role. *)
Lemma issuer_check_spec (tok : address) (w : World) :
  let check := try_catch
                 (has_role <- eth_call (HasRole tok Auto.ISSUER_ROLE wallet) ;;
                  ret (has_role =? 0))
                 (fun _ => ret true) in
  sent_calls (events (check w)) = [] /\
  post (check w) = drop_fault w /\
  (next_fault w = None ->
     res (check w) = Ok (chain w (HasRole tok Auto.ISSUER_ROLE wallet) =? 0)) /\
  (forall e, next_fault w = Some e -> res (check w) = Ok true) /\
  exists needs_role, res (check w) = Ok needs_role.
Proof.
  cbv zeta. unfold try_catch, bind.
  destruct (eth_call_cases (HasRole tok Auto.ISSUER_ROLE wallet) w)
    as [(Hf & ->)|(e & Hf & ->)]; cbn; rewrite Hf.
  - repeat split; eauto. discriminate.
  - repeat split; eauto. discriminate.
Qed.

(** The grant block of the mint recipe never raises and broadcasts nothing
    but the grant of the issuer role. *)
Lemma issuer_grant_spec (tok : address) (w : World) :
  let grant := try_catch
                 (_ <- Auto.submit node cfg wallet (GrantRole tok Auto.ISSUER_ROLE wallet) 150000 ;;
                  sleep 2)
                 (fun _ => ret tt) in
  res (grant w) = Ok tt /\
  (forall c, In c (sent_calls (events (grant w))) ->
             c = GrantRole tok Auto.ISSUER_ROLE wallet) /\
  (calm w -> calm (post (grant w)) /\
             sent_calls (events (grant w)) = [GrantRole tok Auto.ISSUER_ROLE wallet]) /\
  (forall e, next_fault w = Some e ->
             sent_calls (events (grant w)) = [] /\ post (grant w) = drop_fault w).
Proof.
  cbv zeta. rewrite res_try_catch_ret, events_try_catch_ret, res_bind, events_bind.
  split; [|split; [|split]].
  - destruct (res (Auto.submit _ _ _ _ _ _)); [|reflexivity].
    unfold sleep, emit. reflexivity.
  - intros c Hc. rewrite sent_calls_app in Hc. apply in_app_or in Hc as [Hc|Hc].
    + now apply sent_calls_submit in Hc.
    + destruct (res (Auto.submit _ _ _ _ _ _)); destruct Hc.
  - intros Hc. unfold try_catch, bind.
    rewrite (submit_calm node cfg wallet _ _ w Hc). cbn. split; reflexivity.
  - intros e Hf. unfold try_catch, bind.
    rewrite (submit_first_fault _ _ w e Hf). cbn. split; reflexivity.
Qed.

(** X10: [activity8_mint_tokens] broadcasts nothing but a grant of the
    issuer role to the wallet and a mint of 1000 tokens (6 decimals) to the
    wallet.  When the role is read as held, no grant is broadcast.  When the
    role is read as absent, or the read fails, and no later RPC call fails,
    the grant is broadcast first and the mint second.  A grant that cannot
    be sent does not stop the mint. *)
Theorem mint_grants_issuer_role_first (tok : address) (w : World) :
  truthy (Some tok) = true ->
  let o := Auto.activity8_mint_tokens node cfg wallet (Some tok) w in
  let held := chain w (HasRole tok Auto.ISSUER_ROLE wallet) in
  let grant := GrantRole tok Auto.ISSUER_ROLE wallet in
  let mint := Mint tok wallet (1000 * 10 ^ 6) in
  (forall c, In c (sent_calls (events o)) -> c = grant \/ c = mint) /\
  (next_fault w = None -> held <> 0 ->
     forall c, In c (sent_calls (events o)) -> c = mint) /\
  (calm w -> held <> 0 ->
     sent_calls (events o) = [mint] /\ exists h, res o = Ok (Some h)) /\
  (calm w -> held = 0 ->
     sent_calls (events o) = [grant; mint] /\ exists h, res o = Ok (Some h)) /\
  (forall e, next_fault w = Some e -> calm (drop_fault w) ->
     sent_calls (events o) = [grant; mint] /\ exists h, res o = Ok (Some h)) /\
  (forall e, next_fault w = None -> held = 0 ->
     next_fault (drop_fault w) = Some e -> calm (drop_fault (drop_fault w)) ->
     sent_calls (events o) = [mint] /\ exists h, res o = Ok (Some h)).
Proof.
  intros Ht o held grant mint. subst o. unfold Auto.activity8_mint_tokens.
  rewrite Ht. cbn [negb Auto.address_of].
  rewrite events_try_catch_ret, res_try_catch_ret, events_bind, res_bind.
  fold held.
  destruct (issuer_check_spec tok w) as (Hcs & Hcp & Hcok & Hcfail & needs & Hcr).
  cbv zeta in Hcs, Hcp, Hcok, Hcfail, Hcr. fold held in Hcok.
  rewrite Hcp, sent_calls_app, Hcs. cbn [app].
  assert (Htail : forall (b : bool) w1,
    let rest := bind (if b
                      then try_catch
                             (_ <- Auto.submit node cfg wallet grant 150000 ;; sleep 2)
                             (fun _ => ret tt)
                      else ret tt)
                     (fun _ => hr <- Auto.submit node cfg wallet mint 200000 ;;
                               @ret World value (Some (fst hr))) in
    (forall c, In c (sent_calls (events (rest w1))) ->
               (b = true /\ c = grant) \/ c = mint) /\
    (calm w1 -> sent_calls (events (rest w1)) = (if b then [grant] else []) ++ [mint] /\
                exists h, res (rest w1) = Ok (Some h)) /\
    (forall e, b = true -> next_fault w1 = Some e -> calm (drop_fault w1) ->
               sent_calls (events (rest w1)) = [mint] /\
               exists h, res (rest w1) = Ok (Some h))).
  { intros b w1 rest. subst rest. rewrite events_bind, res_bind.
    destruct b.
    - destruct (issuer_grant_spec tok w1) as (Hgr & Hgs & Hgc & Hgf).
      cbv zeta in Hgr, Hgs, Hgc, Hgf. fold grant in Hgr, Hgs, Hgc, Hgf.
      rewrite Hgr. split; [|split].
      + intros c Hc. rewrite sent_calls_app in Hc. apply in_app_or in Hc as [Hc|Hc].
        * left. split; [reflexivity|]. now apply Hgs.
        * right. rewrite events_bind, sent_calls_app in Hc.
          apply in_app_or in Hc as [Hc|Hc]; [now apply sent_calls_submit in Hc|].
          destruct (res (Auto.submit _ _ _ _ _ _)); destruct Hc.
      + intros Hc. destruct (Hgc Hc) as [Hc' Hs].
        rewrite sent_calls_app, Hs, events_bind, res_bind, sent_calls_app.
        destruct (submit_calm_sent mint 200000 _ Hc') as (Hm & hr & Hr).
        rewrite Hm, Hr. cbn. eauto.
      + intros e _ Hf Hc. destruct (Hgf e Hf) as [Hs Hp].
        rewrite sent_calls_app, Hs, Hp, events_bind, res_bind, sent_calls_app.
        destruct (submit_calm_sent mint 200000 _ Hc) as (Hm & hr & Hr).
        rewrite Hm, Hr. cbn. eauto.
    - cbn [res post events ret app]. split; [|split].
      + intros c Hc. right. rewrite events_bind, sent_calls_app in Hc.
        apply in_app_or in Hc as [Hc|Hc]; [now apply sent_calls_submit in Hc|].
        destruct (res (Auto.submit _ _ _ _ _ _)); destruct Hc.
      + intros Hc. rewrite events_bind, res_bind, sent_calls_app.
        destruct (submit_calm_sent mint 200000 _ Hc) as (Hm & hr & Hr).
        rewrite Hm, Hr. cbn. eauto.
      + intros e [=]. }
  cbv zeta in Htail. subst grant mint. rewrite Hcr.
  assert (Hdrop : calm w -> drop_fault w = w).
  { destruct w as [c fs rcs rf ri]. unfold calm. cbn. now intros ->. }
  assert (Hnofault : calm w -> next_fault w = None).
  { intros Hc. unfold next_fault. now rewrite Hc. }
  split.
  { intros c Hc. destruct (Htail needs (drop_fault w)) as (Hall & _).
    apply Hall in Hc. tauto. }
  split.
  { intros Hf Hheld c Hc. rewrite (Hcok Hf) in Hcr. injection Hcr as <-.
    destruct (Z.eqb_spec held 0); [contradiction|].
    destruct (Htail false (drop_fault w)) as (Hall & _).
    apply Hall in Hc as [[[=] _]|Hc]. exact Hc. }
  split.
  { intros Hc Hheld. rewrite (Hcok (Hnofault Hc)) in Hcr. injection Hcr as <-.
    destruct (Z.eqb_spec held 0); [contradiction|].
    destruct (Htail false (drop_fault w)) as (_ & Hcalm & _).
    destruct Hcalm as [Hs (h & Hr)]; [now rewrite (Hdrop Hc)|].
    exact (conj Hs (ex_intro _ h (f_equal (fun r : result value => match r with Ok x => Ok x | Raise _ => Ok None end) Hr))). }
  split.
  { intros Hc Hheld. rewrite (Hcok (Hnofault Hc)) in Hcr. injection Hcr as <-.
    destruct (Z.eqb_spec held 0); [|contradiction].
    destruct (Htail true (drop_fault w)) as (_ & Hcalm & _).
    destruct Hcalm as [Hs (h & Hr)]; [now rewrite (Hdrop Hc)|].
    exact (conj Hs (ex_intro _ h (f_equal (fun r : result value => match r with Ok x => Ok x | Raise _ => Ok None end) Hr))). }
  split.
  { intros e Hf Hc. rewrite (Hcfail e Hf) in Hcr. injection Hcr as <-.
    destruct (Htail true (drop_fault w)) as (_ & Hcalm & _).
    destruct (Hcalm Hc) as [Hs (h & Hr)].
    exact (conj Hs (ex_intro _ h (f_equal (fun r : result value => match r with Ok x => Ok x | Raise _ => Ok None end) Hr))). }
  intros e Hf Hheld Hf2 Hc.
  rewrite (Hcok Hf) in Hcr. injection Hcr as <-.
  destruct (Z.eqb_spec held 0); [|contradiction].
  destruct (Htail true (drop_fault w)) as (_ & _ & Hfail).
  destruct (Hfail e eq_refl Hf2 Hc) as [Hs (h & Hr)].
  exact (conj Hs (ex_intro _ h (f_equal (fun r : result value => match r with Ok x => Ok x | Raise _ => Ok None end) Hr))).
Qed.

(** *** Remove liquidity: dust positions *)

(** X12: when every position the wallet holds is below the minimum
    withdrawal of 0.1 LP, [activity12_remove_liquidity] broadcasts nothing
    and ends in one of its two skip sentinels, never in the [None] of a
    failure. *)
Theorem remove_liquidity_skips_dust (w : World) :
  (forall pid, chain w (LiquidityBalances pid wallet) < Auto.min_withdraw) ->
  let o := Auto.activity12_remove_liquidity node cfg f64 wallet w in
  sent_calls (events o) = [] /\
  (res o = Ok (Some "skipped: no lp") \/ res o = Ok (Some "skipped: low balance")).
Proof.
  intros Hdust o. subst o. unfold Auto.activity12_remove_liquidity.
  rewrite events_try_catch_ret, res_try_catch_ret, events_bind, res_bind.
  destruct (scan_pools_spec wallet (Auto.pairs (TOKENS cfg)) [] w)
    as (pools & Hres & Hch & Hs & Hp).
  cbv zeta in Hres, Hch, Hs, Hp. rewrite Hres, sent_calls_app, Hs. cbn [app].
  destruct pools as [|p0 ps]; [cbn; auto|].
  rewrite events_bind, res_bind.
  destruct (random_choice_spec (p0 :: ps)
              (post (Auto.scan_pools wallet (Auto.pairs (TOKENS cfg)) [] w)))
    as (sel & -> & Hin & ->); [discriminate|].
  cbn [app].
  destruct (Hp sel Hin) as [[]|(_ & pid & He & _)].
  specialize (Hdust pid).
  destruct (Z.ltb_spec (Auto.lp_balance sel) Auto.min_withdraw); [|lia].
  cbn. auto.
Qed.

(** *** Create token *)

(** The loop over the receipt's logs returns the token of the first log
    that decodes as the creation event. *)
Lemma parse_token_created_first (ls : list Log) (t : address) :
  Auto.parse_token_created cfg ls = Some t <->
  exists l1 log l2,
    ls = l1 ++ log :: l2 /\
    Forall (fun l => process_log cfg l = None) l1 /\
    process_log cfg log = Some t.
Proof.
  induction ls as [|log ls IH]; cbn.
  - split; [discriminate|]. intros (l1 & l & l2 & H & _). destruct l1; discriminate.
  - destruct (process_log cfg log) as [t'|] eqn:Hlog.
    + split.
      * intros [= ->]. exists [], log, ls. repeat split; auto.
      * intros (l1 & l & l2 & H & Hnone & Hsome).
        destruct l1 as [|l0 l1]; cbn in H; injection H as -> ->; [congruence|].
        apply Forall_cons in Hnone as [Hnone _]. congruence.
    + rewrite IH. split.
      * intros (l1 & l & l2 & -> & Hnone & Hsome).
        exists (log :: l1), l, l2. repeat split; auto.
      * intros (l1 & l & l2 & H & Hnone & Hsome).
        destruct l1 as [|l0 l1]; cbn in H; injection H as -> ->; [congruence|].
        apply Forall_cons in Hnone as [_ Hnone]. eauto 6.
Qed.

Lemma get_in_range (s : string) : forall k,
  (k < String.length s)%nat -> exists c, String.get k s = Some c.
Proof.
  induction s as [|a s IH]; intros [|k]; cbn; try lia; eauto.
  intros Hlt. apply IH. lia.
Qed.

Lemma random_suffix_char_spec w :
  exists c k, res (Auto.random_suffix_char w) = Ok (String c EmptyString) /\
              String.get k Auto.suffix_alphabet = Some c /\
              events (Auto.random_suffix_char w) = [] /\
              chain (post (Auto.random_suffix_char w)) = chain w /\
              faults (post (Auto.random_suffix_char w)) = faults w.
Proof.
  unfold Auto.random_suffix_char. rewrite res_bind, events_bind, post_bind.
  destruct (randbelow_frame (String.length Auto.suffix_alphabet) w)
    as (k & -> & -> & Hc & Hf & _ & Hk).
  cbn [res post events ret app].
  assert (Hlt : (k < String.length Auto.suffix_alphabet)%nat) by (apply Hk; discriminate).
  destruct (get_in_range _ _ Hlt) as [c Hget]. rewrite Hget.
  exists c, k. auto.
Qed.

(** The part of the create-token recipe after the name is chosen. *)
Lemma create_tail_spec (token_name token_symbol : string) (w : World) :
  let tail :=
    (nonce <- eth_call (GetTransactionCount wallet) ;;
     path_usd <- Auto.token cfg "PathUSD" ;;
     gasPrice <- eth_call GasPrice ;;
     let tx := {| tx_from := wallet; tx_nonce := nonce; tx_gas := 500000;
                  tx_gasPrice := gasPrice; tx_chainId := CHAIN_ID cfg;
                  tx_call := CreateToken token_name token_symbol "USD" path_usd wallet |} in
     tx_hash <- send_raw_transaction node tx ;;
     receipt <- sync_wait_for_tx_with_retry tx_hash ;;
     @ret World value (Auto.parse_token_created cfg (logs receipt))) in
  match Auto.assoc "PathUSD" (TOKENS cfg) with
  | None => sent_calls (events (tail w)) = [] /\ exists e, res (tail w) = Raise e
  | Some path =>
      let call := CreateToken token_name token_symbol "USD" path wallet in
      let tx := {| tx_from := wallet; tx_nonce := chain w (GetTransactionCount wallet);
                   tx_gas := 500000; tx_gasPrice := chain w GasPrice;
                   tx_chainId := CHAIN_ID cfg; tx_call := call |} in
      (sent_calls (events (tail w)) = [] \/ sent_calls (events (tail w)) = [call]) /\
      (calm w ->
         sent_calls (events (tail w)) = [call] /\
         res (tail w) = Ok (Auto.parse_token_created cfg (logs (snd (mine node (chain w) tx)))))
  end.
Proof.
  cbv zeta. unfold Auto.token.
  destruct (Auto.assoc "PathUSD" (TOKENS cfg)) as [path|].
  - destruct w as [c fs rcs rf ri].
    destruct fs as [|[e1|] [|[e2|] [|[e3|] [|[e4|] fs]]]];
      cbv -[String.eqb Auto.parse_token_created]; rewrite ?String.eqb_refl;
      (split; [auto|]); try discriminate; intros _; split; reflexivity.
  - unfold bind. destruct (eth_call_cases (GetTransactionCount wallet) w)
      as [(_ & ->)|(e & _ & ->)]; cbn; eauto.
Qed.

(** X13: [activity4_create_stablecoin] broadcasts at most one transaction,
    a [createToken] whose name is "Test Token " and whose symbol is "T" ...
    "USD" around one and the same four characters drawn from the upper-case
    letters and digits, quoted in PathUSD with the wallet as admin.  Without
    a PathUSD entry in the configuration nothing is sent and the result is
    [None].  When no RPC call fails the result is what the loop over the
    logs of that transaction's receipt finds, and that loop returns the
    token of the first log that decodes as the creation event. *)
Theorem create_token_transaction_shape (w : World) :
  let o := Auto.activity4_create_stablecoin node cfg wallet w in
  (forall c, In c (sent_calls (events o)) ->
     exists c1 c2 c3 c4 path,
       let suffix := String c1 (String c2 (String c3 (String c4 EmptyString))) in
       Forall (fun ch => exists k, String.get k Auto.suffix_alphabet = Some ch)
              [c1; c2; c3; c4] /\
       Auto.assoc "PathUSD" (TOKENS cfg) = Some path /\
       c = CreateToken ("Test Token " +:+ suffix) ("T" +:+ suffix +:+ "USD")
                       "USD" path wallet) /\
  (length (sent_calls (events o)) <= 1)%nat /\
  (Auto.assoc "PathUSD" (TOKENS cfg) = None ->
     sent_calls (events o) = [] /\ res o = Ok None) /\
  (calm w -> forall path, Auto.assoc "PathUSD" (TOKENS cfg) = Some path ->
     exists tx, sent_calls (events o) = [tx_call tx] /\
                tx_from tx = wallet /\
                res o = Ok (Auto.parse_token_created cfg (logs (snd (mine node (chain w) tx))))) /\
  (forall ls t, Auto.parse_token_created cfg ls = Some t <->
     exists l1 log l2, ls = l1 ++ log :: l2 /\
                       Forall (fun l => process_log cfg l = None) l1 /\
                       process_log cfg log = Some t).
Proof.
  intros o. subst o. unfold Auto.activity4_create_stablecoin.
  rewrite events_try_catch_ret, res_try_catch_ret.
  rewrite events_bind, res_bind.
  destruct (random_suffix_char_spec w) as (c1 & k1 & -> & Hk1 & -> & Hc1 & Hf1).
  set (w1 := post (Auto.random_suffix_char w)) in *. cbn [app].
  rewrite events_bind, res_bind.
  destruct (random_suffix_char_spec w1) as (c2 & k2 & -> & Hk2 & -> & Hc2 & Hf2).
  set (w2 := post (Auto.random_suffix_char w1)) in *. cbn [app].
  rewrite events_bind, res_bind.
  destruct (random_suffix_char_spec w2) as (c3 & k3 & -> & Hk3 & -> & Hc3 & Hf3).
  set (w3 := post (Auto.random_suffix_char w2)) in *. cbn [app].
  rewrite events_bind, res_bind.
  destruct (random_suffix_char_spec w3) as (c4 & k4 & -> & Hk4 & -> & Hc4 & Hf4).
  set (w4 := post (Auto.random_suffix_char w3)) in *. cbn [app]. cbv zeta.
  pose proof (create_tail_spec
                ("Test Token " +:+ String c1 "" +:+ String c2 "" +:+ String c3 "" +:+ String c4 "")
                ("T" +:+ (String c1 "" +:+ String c2 "" +:+ String c3 "" +:+ String c4 "") +:+ "USD")
                w4) as Htail.
  cbv zeta in Htail.
  assert (Hchain : chain w4 = chain w) by congruence.
  assert (Hcalm : calm w -> calm w4) by (unfold calm; congruence).
  split; [|split; [|split; [|split]]].
  - intros c Hc. destruct (Auto.assoc "PathUSD" (TOKENS cfg)) as [path|].
    + destruct Htail as [[Hs|Hs] _]; rewrite Hs in Hc; [destruct Hc|destruct Hc as [<-|[]]].
      exists c1, c2, c3, c4, path. split; [|split; reflexivity].
      repeat constructor; eauto.
    + destruct Htail as [Hs _]. rewrite Hs in Hc. destruct Hc.
  - destruct (Auto.assoc "PathUSD" (TOKENS cfg)) as [path|].
    + destruct Htail as [[Hs|Hs] _]; rewrite Hs; cbn; lia.
    + destruct Htail as [Hs _]. rewrite Hs. cbn. lia.
  - intros Hnone. rewrite Hnone in Htail. destruct Htail as [Hs [e He]].
    split; [exact Hs|]. now rewrite He.
  - intros Hc path Hpath. rewrite Hpath in Htail. destruct Htail as [_ Hrun].
    destruct (Hrun (Hcalm Hc)) as [Hs Hr]. rewrite Hchain in Hr.
    match type of Hr with context [mine node _ ?t] => exists t end.
    split; [exact Hs|]. split; [reflexivity|].
    exact (f_equal (fun r : result value =>
                      match r with Ok x => Ok x | Raise _ => Ok None end) Hr).
  - apply parse_token_created_first.
Qed.

(** *** No exception leaves a recipe *)

Lemma faucet_loop_returns max_retries attempts : forall w,
  exists v, res (Auto.faucet_loop node wallet max_retries attempts w) = Ok v.
Proof.
  induction attempts as [|attempt rest IH]; intros w; [cbn; eauto|].
  cbn [Auto.faucet_loop]. rewrite res_bind, res_try_catch.
  match goal with |- context [res ?m] => destruct (res m) as [step|e] eqn:Hbody end.
  - destruct step as [v|]; [cbn; eauto|apply IH].
  - destruct ((attempt <? max_retries - 1) && Auto.is_retryable e).
    + rewrite res_bind. unfold sleep, emit. cbn [res post ret]. apply IH.
    + cbn; eauto.
Qed.

Lemma guarded_try_returns (token_address : value) (body : M World value) (w : World) :
  exists v, res ((if negb (truthy token_address) then ret None
                  else try_catch body (fun _ => ret None)) w) = Ok v.
Proof.
  destruct (negb (truthy token_address)); [cbn; eauto|].
  rewrite res_try_catch_ret.
  match goal with |- context [match ?r with _ => _ end] => destruct r end; eauto.
Qed.

Lemma try_none_returns (body : M World value) (w : World) :
  exists v, res (try_catch body (fun _ => ret None) w) = Ok v.
Proof.
  rewrite res_try_catch_ret.
  match goal with |- context [match ?r with _ => _ end] => destruct r end; eauto.
Qed.

(** X14: whatever the node answers and whichever RPC calls fail, each of
    the recipes returns a value ([None], a hash, a token address or a
    sentinel): no exception leaves the faucet claim, token creation, swap,
    add liquidity, mint, burn, remove liquidity, grant role or batch
    recipe. *)
Theorem recipes_never_raise (w : World) (token_address : value) (max_retries : Z) :
  (exists v, res (Auto.activity2_faucet node wallet max_retries w) = Ok v) /\
  (exists v, res (Auto.activity4_create_stablecoin node cfg wallet w) = Ok v) /\
  (exists v, res (Auto.activity5_swap node cfg wallet w) = Ok v) /\
  (exists v, res (Auto.activity6_add_liquidity node cfg wallet w) = Ok v) /\
  (exists v, res (Auto.activity8_mint_tokens node cfg wallet token_address w) = Ok v) /\
  (exists v, res (Auto.activity9_burn_tokens node cfg wallet token_address w) = Ok v) /\
  (exists v, res (Auto.activity12_remove_liquidity node cfg f64 wallet w) = Ok v) /\
  (exists v, res (Auto.activity13_grant_role node cfg wallet token_address w) = Ok v) /\
  (exists v, res (Auto.activity17_batch_operations node cfg wallet w) = Ok v).
Proof.
  split; [apply faucet_loop_returns|].
  split; [apply try_none_returns|].
  split; [apply try_none_returns|].
  split; [apply try_none_returns|].
  split; [apply guarded_try_returns|].
  split; [apply guarded_try_returns|].
  split; [apply try_none_returns|].
  split; [apply guarded_try_returns|].
  apply try_none_returns.
Qed.

End RecipeFacts.

(** ** More on the decision engine *)

Section DecisionFacts.
Variable cfg : Config.
Variable f64 : Float64.
Variable load_created_tokens : address -> list (string * string).

Lemma refreshed_from_refl self : refreshed_from self self.
Proof. unfold refreshed_from. auto 10. Qed.

Lemma refreshed_from_trans s1 s2 s3 :
  refreshed_from s1 s2 -> refreshed_from s2 s3 -> refreshed_from s1 s3.
Proof. unfold refreshed_from. intuition congruence. Qed.

Lemma reads_only_app evs evs' :
  reads_only evs -> reads_only evs' -> reads_only (evs ++ evs').
Proof. unfold reads_only. intros. now apply Forall_app. Qed.

Lemma reads_only_sent_calls evs : reads_only evs -> sent_calls evs = [].
Proof.
  unfold reads_only. induction 1 as [|ev evs Hev _ IH]; [reflexivity|].
  destruct ev; try contradiction. exact IH.
Qed.

(** One read on behalf of the wallet: either the value, or the exception,
    with the fault script advanced and nothing else touched. *)
Lemma lift_eth_call_cases (q : Query) (self : Smart.SmartWallet) :
  let o := Smart.lift (eth_call q) self in
  post o = Smart.set_world (drop_fault (Smart.world self)) self /\
  ((res o = Ok (chain (Smart.world self) q) /\
    events o = [EvRead q (Ok (chain (Smart.world self) q))]) \/
   (exists e, res o = Raise e /\ events o = [EvRead q (Raise e)])).
Proof.
  cbv zeta. unfold Smart.lift.
  destruct (eth_call_cases q (Smart.world self)) as [(_ & ->)|(e & _ & ->)];
    cbn; eauto.
Qed.

(** The loop over the stablecoin symbols: reads of the wallet's own token
    balances only, writes under the given symbols only, and it raises as
    soon as a read raises. *)
Lemma update_token_balances_spec (symbols : list string) : forall self,
  let o := Smart.update_token_balances cfg f64 symbols self in
  refreshed_from self (post o) /\
  reads_only (events o) /\
  (forall q r, In (EvRead q r) (events o) ->
               exists tok, q = BalanceOf tok (Smart.address_ self)) /\
  (forall q e, In (EvRead q (Raise e)) (events o) -> exists e', res o = Raise e') /\
  (forall k, ~ In k symbols ->
             Smart.balances (post o) !! k = Smart.balances self !! k).
Proof.
  induction symbols as [|symbol rest IH]; intros self o; subst o.
  - cbn. split; [apply refreshed_from_refl|]. split; [constructor|].
    split; [intros ? ? []|]. split; [intros ? ? []|]. auto.
  - cbn [Smart.update_token_balances]. rewrite bind_get. cbn [res post events].
    rewrite res_bind, post_bind, events_bind.
    assert (Hblock : forall block : M Smart.SmartWallet unit,
      block = ret tt \/
      (exists tok, block =
         (bal <- Smart.lift (eth_call (BalanceOf tok (Smart.address_ self))) ;;
          self' <- get ;;
          put (Smart.set_balance symbol (truediv f64 bal (10 ^ 6)) self'))) ->
      refreshed_from self (post (block self)) /\
      reads_only (events (block self)) /\
      (forall q r, In (EvRead q r) (events (block self)) ->
                   exists tok, q = BalanceOf tok (Smart.address_ self)) /\
      (forall q e, In (EvRead q (Raise e)) (events (block self)) ->
                   exists e', res (block self) = Raise e') /\
      (forall k, k <> symbol ->
                 Smart.balances (post (block self)) !! k = Smart.balances self !! k)).
    { intros block [->|(tok & ->)].
      - cbn. split; [apply refreshed_from_refl|]. split; [constructor|].
        split; [intros ? ? []|]. split; [intros ? ? []|]. auto.
      - set (q0 := BalanceOf tok (Smart.address_ self)).
        match goal with |- context [res (?b self)] => set (blk := b) end.
        set (s1 := Smart.set_world (drop_fault (Smart.world self)) self).
        assert (Hb :
          (res (blk self) = Ok tt /\
           post (blk self) =
             Smart.set_balance symbol
               (truediv f64 (chain (Smart.world self) q0) (10 ^ 6)) s1 /\
           events (blk self) = [EvRead q0 (Ok (chain (Smart.world self) q0))]) \/
          (exists e, res (blk self) = Raise e /\ post (blk self) = s1 /\
                     events (blk self) = [EvRead q0 (Raise e)])).
        { subst blk. rewrite res_bind, post_bind, events_bind.
          destruct (lift_eth_call_cases q0 self)
            as (Hp & [(Hr & He)|(e & Hr & He)]); cbv zeta in Hp, Hr, He;
            rewrite Hr, He, Hp; [left|right; exists e];
            cbn; auto. }
        destruct Hb as [(Hr & Hp & He)|(e & Hr & Hp & He)]; rewrite Hr, Hp, He.
        + split; [unfold refreshed_from; cbn; auto 10|].
          split; [repeat constructor|].
          split; [intros q r [[= <- _]|[]]; subst q0; eauto|].
          split; [intros q e [[=]|[]]|].
          intros k Hk. cbn. now rewrite lookup_insert_ne.
        + split; [unfold refreshed_from; cbn; auto 10|].
          split; [repeat constructor|].
          split; [intros q r [[= <- _]|[]]; subst q0; eauto|].
          split; [eauto|].
          intros k Hk. reflexivity. }
    match goal with |- context [res (?b self)] => set (block := b) end.
    destruct (Hblock block) as (Hrf & Hro & Hq & Hraise & Hbal).
    { subst block. destruct (Auto.assoc symbol (TOKENS cfg)) as [a|]; [|now left].
      destruct (truthy (Some a)); [right; eauto|now left]. }
    destruct (res (block self)) as [[]|e] eqn:Hres.
    + destruct (IH (post (block self))) as (Hrf' & Hro' & Hq' & Hraise' & Hbal').
      cbv zeta in Hrf', Hro', Hq', Hraise', Hbal'.
      split; [eapply refreshed_from_trans; eauto|].
      split; [now apply reads_only_app|].
      split.
      { intros q r Hin. apply in_app_or in Hin as [Hin|Hin]; [eauto|].
        destruct (Hq' q r Hin) as [tok ->]. exists tok.
        destruct Hrf as (-> & _). reflexivity. }
      split.
      { intros q e Hin. apply in_app_or in Hin as [Hin|Hin]; [|eauto].
        destruct (Hraise q e Hin) as [e' [=]]. }
      intros k Hk. rewrite Hbal', Hbal; auto.
      * intros ->. apply Hk. now left.
      * intros Hin. apply Hk. now right.
    + rewrite app_nil_r. split; [exact Hrf|]. split; [exact Hro|].
      split; [exact Hq|]. split; [eauto|].
      intros k Hk. apply Hbal. intros ->. apply Hk. now left.
Qed.

Lemma post_try_catch {S A} (m : M S A) (h : string -> M S A) (s : S) :
  post (try_catch m h s) = match res (m s) with
                           | Ok _ => post (m s)
                           | Raise e => post (h e (post (m s)))
                           end.
Proof. unfold try_catch. now destruct (res (m s)). Qed.

(** The refresh: never raises, only reads the wallet's own native and
    token balances, writes only under ETH and the four stablecoin symbols,
    and puts 0 under ETH when a read raised. *)
Lemma update_balances_spec (self : Smart.SmartWallet) :
  let o := Smart.update_balances cfg f64 self in
  res o = Ok tt /\
  refreshed_from self (post o) /\
  reads_only (events o) /\
  (forall q r, In (EvRead q r) (events o) ->
     q = GetBalance (Smart.address_ self) \/
     exists tok, q = BalanceOf tok (Smart.address_ self)) /\
  (forall q e, In (EvRead q (Raise e)) (events o) ->
     Smart.balances (post o) !! "ETH" = Some 0%Q) /\
  (forall k, ~ In k ("ETH" :: Smart.stable_symbols) ->
     Smart.balances (post o) !! k = Smart.balances self !! k).
Proof.
  intros o. split; [apply update_balances_returns|]. subst o.
  unfold Smart.update_balances.
  rewrite post_try_catch, events_try_catch.
  rewrite !bind_get. cbn [res post events].
  rewrite res_bind, post_bind, events_bind.
  set (q0 := GetBalance (Smart.address_ self)).
  destruct (lift_eth_call_cases q0 self) as (Hp & [(Hr & He)|(e & Hr & He)]);
    cbv zeta in Hp, Hr, He; rewrite Hr, He, Hp.
  - rewrite !bind_get. cbn [res post events].
    rewrite res_bind, post_bind, events_bind. cbn [put res post events app].
    set (s2 := Smart.set_balance "ETH" _ _).
    destruct (update_token_balances_spec Smart.stable_symbols s2)
      as (Hrf & Hro & Hq & Hraise & Hbal).
    cbv zeta in Hrf, Hro, Hq, Hraise, Hbal.
    assert (Hrf2 : refreshed_from self s2) by (unfold refreshed_from; cbn; auto 10).
    destruct (res (Smart.update_token_balances cfg f64 Smart.stable_symbols s2))
      as [[]|e] eqn:Hloop.
    + rewrite app_nil_r.
      split; [eapply refreshed_from_trans; eauto|].
      split; [apply (reads_only_app [_]); [repeat constructor|exact Hro]|].
      split.
      { intros q r [[= <- _]|Hin]; [now left|]. right. exact (Hq q r Hin). }
      split.
      { intros q e [[=]|Hin]. destruct (Hraise q e Hin) as [e' [=]]. }
      intros k Hk. rewrite Hbal by (intros Hin; apply Hk; now right).
      subst s2. cbn. rewrite lookup_insert_ne; [reflexivity|].
      intros <-. apply Hk. now left.
    + cbn [res post events app]. rewrite app_nil_r.
      split.
      { eapply refreshed_from_trans; [eapply refreshed_from_trans; eauto|].
        unfold refreshed_from. cbn. auto 10. }
      split; [apply (reads_only_app [_]); [repeat constructor|exact Hro]|].
      split.
      { intros q r [[= <- _]|Hin]; [now left|]. right. exact (Hq q r Hin). }
      split; [intros _ _ _; cbn; apply lookup_insert_eq|].
      intros k Hk. cbn. rewrite lookup_insert_ne by (intros <-; apply Hk; now left).
      rewrite Hbal by (intros Hin; apply Hk; now right).
      subst s2. cbn. rewrite lookup_insert_ne; [reflexivity|].
      intros <-. apply Hk. now left.
  - cbn [res post events app get put bind].
    split; [unfold refreshed_from; cbn; auto 10|].
    split; [repeat constructor|].
    split; [intros q r [[= <- _]|[]]; now left|].
    split; [intros _ _ _; cbn; apply lookup_insert_eq|].
    intros k Hk. cbn. rewrite lookup_insert_ne; [reflexivity|].
    intros <-. apply Hk. now left.
Qed.

Lemma drew_from_refl self : drew_from self self.
Proof. unfold drew_from. auto 10. Qed.

Lemma drew_from_trans s1 s2 s3 : drew_from s1 s2 -> drew_from s2 s3 -> drew_from s1 s3.
Proof. unfold drew_from. intuition congruence. Qed.

Lemma Qltb_lt a b : Smart.Qltb a b = true -> (a < b)%Q.
Proof.
  unfold Smart.Qltb. intros H. apply negb_true_iff in H.
  apply Qnot_le_lt. intros Hle. apply Qle_bool_iff in Hle. congruence.
Qed.

Lemma Qltb_ge a b : Smart.Qltb a b = false -> (b <= a)%Q.
Proof.
  unfold Smart.Qltb. intros H. apply negb_false_iff in H. now apply Qle_bool_iff.
Qed.

Lemma lift_random_random_spec self :
  exists r, res (Smart.lift random_random self) = Ok r /\
            events (Smart.lift random_random self) = [] /\
            drew_from self (post (Smart.lift random_random self)).
Proof.
  unfold Smart.lift, random_random.
  destruct (rand_floats (Smart.world self)); cbn; eexists; repeat split.
Qed.

Lemma lift_random_choice_spec {A} (l : list A) self :
  l <> [] ->
  exists x, res (Smart.lift (random_choice l) self) = Ok x /\ In x l /\
            events (Smart.lift (random_choice l) self) = [] /\
            drew_from self (post (Smart.lift (random_choice l) self)).
Proof.
  destruct l as [|d l]; [congruence|]. intros _.
  unfold Smart.lift, random_choice. rewrite res_bind, events_bind, post_bind.
  destruct (randbelow_frame (length (d :: l)) (Smart.world self))
    as (k & -> & -> & Hc & Hf & Hr & Hk).
  cbn [res post events ret app]. exists (nth k (d :: l) d).
  split; [reflexivity|]. split; [apply nth_In, Hk; discriminate|].
  split; [reflexivity|]. unfold drew_from. cbn. auto 10.
Qed.

Lemma and_random_lt_spec c p self :
  exists b, res (Smart.and_random_lt c p self) = Ok b /\
            events (Smart.and_random_lt c p self) = [] /\
            drew_from self (post (Smart.and_random_lt c p self)) /\
            (b = true -> c = true).
Proof.
  unfold Smart.and_random_lt. destruct c.
  - rewrite res_bind, events_bind, post_bind.
    destruct (lift_random_random_spec self) as (r & -> & -> & Hd).
    cbn. eauto.
  - exists false. cbn. split; [reflexivity|]. split; [reflexivity|].
    split; [apply drew_from_refl|discriminate].
Qed.

(** The rules from priority 2 on: one action, chosen with random draws
    only, whose own precondition holds. *)
Lemma rules_after_faucet_spec path alpha beta self :
  let o := Smart.rules_after_faucet load_created_tokens path alpha beta self in
  exists act, res o = Ok act /\ events o = [] /\ drew_from self (post o) /\
              guard_holds load_created_tokens path alpha beta self act.
Proof.
  cbv zeta. unfold Smart.rules_after_faucet.
  (* priority 2 *)
  rewrite res_bind, events_bind, post_bind.
  destruct (and_random_lt_spec true Smart.f0_15 self) as (b & -> & -> & D1 & _).
  set (s1 := post (Smart.and_random_lt true Smart.f0_15 self)) in *. cbn [app].
  destruct b;
    [eexists; cbn; (split; [reflexivity|]); (split; [reflexivity|]); split;
     [exact D1|exact I]|].
  (* priority 3 *)
  destruct (Smart.Qltb 10 path && (Smart.Qltb alpha 5 || Smart.Qltb beta 5)) eqn:Hswap.
  { eexists. cbn. split; [reflexivity|]. split; [reflexivity|]. split; [exact D1|].
    unfold guard_holds. cbn [Smart.fn Smart.swap_action].
    apply andb_true_iff in Hswap as [H1 H2]. split; [now apply Qltb_lt|].
    apply orb_true_iff in H2 as [H|H]; [left|right]; now apply Qltb_lt. }
  (* priority 4 *)
  rewrite res_bind, events_bind, post_bind.
  destruct (and_random_lt_spec (Smart.Qltb 1000 path) Smart.f0_1 s1) as (b & -> & -> & D2 & Hb).
  set (s2 := post (Smart.and_random_lt (Smart.Qltb 1000 path) Smart.f0_1 s1)) in *.
  cbn [app].
  assert (D2' : drew_from self s2) by (eapply drew_from_trans; eauto).
  destruct b.
  { eexists. cbn. split; [reflexivity|]. split; [reflexivity|]. split; [exact D2'|].
    unfold guard_holds. cbn [Smart.fn]. specialize (Hb eq_refl).
    assert (Hp : (1000 < path)%Q) by now apply Qltb_lt.
    split; [exact Hp|].
    assert (Smart.Qltb 10 path = true) as H10.
    { apply Qltb_true. eapply Qlt_trans; [|exact Hp]. reflexivity. }
    rewrite H10 in Hswap. cbn in Hswap. apply orb_false_iff in Hswap as [Ha Hbeta].
    split; now apply Qltb_ge. }
  (* priority 5 *)
  rewrite res_bind, events_bind, post_bind.
  destruct (and_random_lt_spec (Smart.Qltb 5 path && Smart.Qltb 5 alpha) Smart.f0_3 s2)
    as (b & -> & -> & D3 & Hb3).
  set (s3 := post (Smart.and_random_lt (Smart.Qltb 5 path && Smart.Qltb 5 alpha) Smart.f0_3 s2)) in *.
  cbn [app].
  assert (D3' : drew_from self s3) by (eapply drew_from_trans; eauto).
  destruct b.
  { eexists. cbn. split; [reflexivity|]. split; [reflexivity|]. split; [exact D3'|].
    unfold guard_holds. cbn [Smart.fn]. specialize (Hb3 eq_refl).
    apply andb_true_iff in Hb3 as [H1 H2]. split; now apply Qltb_lt. }
  (* priority 6 *)
  rewrite bind_get. cbn [res post events].
  assert (Haddr : Smart.address_ s3 = Smart.address_ self) by apply D3'.
  assert (Htok : Smart.created_tokens s3 = Smart.created_tokens self) by apply D3'.
  rewrite res_bind, events_bind, post_bind.
  match goal with |- context [Smart.and_random_lt ?c ?p s3] =>
    destruct (and_random_lt_spec c p s3) as (b & -> & -> & D4 & Hb4);
    set (s4 := post (Smart.and_random_lt c p s3)) in * end.
  cbn [app].
  assert (D4' : drew_from self s4) by (eapply drew_from_trans; eauto).
  destruct b.
  { eexists. cbn. split; [reflexivity|]. split; [reflexivity|]. split; [exact D4'|].
    unfold guard_holds. cbn [Smart.fn]. specialize (Hb4 eq_refl).
    rewrite Haddr in *. split; [reflexivity|].
    destruct (load_created_tokens (Smart.address_ self)); [discriminate Hb4|discriminate]. }
  (* priority 7 *)
  rewrite res_bind, events_bind, post_bind.
  destruct (and_random_lt_spec true Smart.f0_05 s4) as (b & -> & -> & D5 & _).
  set (s5 := post (Smart.and_random_lt true Smart.f0_05 s4)) in *. cbn [app].
  assert (D5' : drew_from self s5) by (eapply drew_from_trans; eauto).
  destruct b;
    [eexists; cbn; (split; [reflexivity|]); (split; [reflexivity|]); split;
     [exact D5'|exact I]|].
  (* priority 8 *)
  rewrite res_bind, events_bind, post_bind.
  match goal with |- context [Smart.and_random_lt ?c ?p s5] =>
    destruct (and_random_lt_spec c p s5) as (b & -> & -> & D6 & Hb6);
    set (s6 := post (Smart.and_random_lt c p s5)) in * end.
  cbn [app].
  assert (D6' : drew_from self s6) by (eapply drew_from_trans; eauto).
  destruct b.
  - specialize (Hb6 eq_refl).
    assert (Hne : Smart.created_tokens s3 <> []).
    { destruct (Smart.created_tokens s3); [discriminate Hb6|discriminate]. }
    rewrite res_bind, events_bind, post_bind.
    destruct (lift_random_choice_spec (Smart.created_tokens s3) s6 Hne)
      as (tok & -> & Hin & -> & D7).
    set (s7 := post (Smart.lift (random_choice (Smart.created_tokens s3)) s6)) in *.
    cbn [app].
    rewrite res_bind, events_bind, post_bind.
    destruct (lift_random_random_spec s7) as (r & -> & -> & D8).
    cbn [app].
    assert (D8' : drew_from self (post (Smart.lift random_random s7))).
    { eapply drew_from_trans; [|exact D8]. eapply drew_from_trans; eauto. }
    rewrite Htok in Hin.
    destruct (Smart.Qltb r Smart.f0_6); eexists; cbn;
      (split; [reflexivity|]); (split; [reflexivity|]); (split; [exact D8'|]);
      exact Hin.
  - (* fallback *)
    destruct (lift_random_choice_spec Smart.fallback_options s6) as (act & Hr & Hin & He & D7);
      [discriminate|].
    exists act. split; [exact Hr|]. split; [exact He|].
    split; [eapply drew_from_trans; eauto|].
    unfold guard_holds.
    cbn in Hin. destruct Hin as [<-|[<-|[<-|[<-|[<-|[<-|[]]]]]]]; exact I.
Qed.

(** With the recovery flag clear, [decide_next_action] is the refresh
    followed by the faucet rule or by the later rules. *)
Lemma decide_after_refresh (self : Smart.SmartWallet) :
  Smart.should_recover_faucet self = false ->
  let refreshed := post (Smart.update_balances cfg f64 self) in
  let eth := Smart.balance refreshed "ETH" in
  let rest :=
    if Smart.Qltb eth Smart.f2_0
    then ret {| Smart.name := "Faucet Claim (Low Balance)"; Smart.fn := Smart.FnFaucet;
                Smart.reason := Smart.LowEth eth |}
    else Smart.rules_after_faucet load_created_tokens
           (Smart.balance refreshed "PathUSD") (Smart.balance refreshed "AlphaUSD")
           (Smart.balance refreshed "BetaUSD") in
  let o := Smart.decide_next_action cfg f64 load_created_tokens self in
  res o = res (rest refreshed) /\
  post o = post (rest refreshed) /\
  events o = events (Smart.update_balances cfg f64 self) ++ events (rest refreshed).
Proof.
  intros Hflag refreshed eth rest o. subst o. unfold Smart.decide_next_action.
  rewrite bind_get. cbn [res post events]. rewrite Hflag.
  rewrite res_bind, post_bind, events_bind, update_balances_returns.
  fold refreshed. rewrite bind_get. cbn [res post events]. auto.
Qed.

(** X15: with the recovery flag clear, a refreshed native balance below
    2.0 always selects the faucet claim (for instance 1.5 with no
    stablecoins), before any random number is drawn: the state after the
    decision is the state after the refresh, and the only events are
    the refresh's reads. *)
Theorem low_native_balance_selects_faucet (self : Smart.SmartWallet) :
  let refreshed := post (Smart.update_balances cfg f64 self) in
  let eth := Smart.balance refreshed "ETH" in
  let o := Smart.decide_next_action cfg f64 load_created_tokens self in
  Smart.should_recover_faucet self = false ->
  (eth < Smart.f2_0)%Q ->
  res o = Ok {| Smart.name := "Faucet Claim (Low Balance)"; Smart.fn := Smart.FnFaucet;
                Smart.reason := Smart.LowEth eth |} /\
  post o = refreshed /\
  events o = events (Smart.update_balances cfg f64 self).
Proof.
  intros refreshed eth o Hflag Hlow.
  destruct (decide_after_refresh self Hflag) as (Hr & Hp & He).
  cbv zeta in Hr, Hp, He. fold refreshed eth o in Hr, Hp, He.
  rewrite (Qltb_true _ _ Hlow) in Hr, Hp, He.
  rewrite Hr, Hp, He. cbn. now rewrite app_nil_r.
Qed.

(** X16: when a read of the refresh raises, the cached native balance is
    set to 0, so that (the recovery flag being clear) the decision is the
    faucet claim for low balance whatever the wallet really holds. *)
Theorem failed_refresh_selects_faucet (self : Smart.SmartWallet) (q : Query) (e : string) :
  let refreshed := post (Smart.update_balances cfg f64 self) in
  let o := Smart.decide_next_action cfg f64 load_created_tokens self in
  In (EvRead q (Raise e)) (events (Smart.update_balances cfg f64 self)) ->
  Smart.balance refreshed "ETH" = 0%Q /\
  (Smart.should_recover_faucet self = false ->
   res o = Ok {| Smart.name := "Faucet Claim (Low Balance)"; Smart.fn := Smart.FnFaucet;
                 Smart.reason := Smart.LowEth 0 |}).
Proof.
  intros refreshed o Hin.
  destruct (update_balances_spec self) as (_ & _ & _ & _ & Hzero & _).
  cbv zeta in Hzero. specialize (Hzero q e Hin). fold refreshed in Hzero.
  assert (Heth : Smart.balance refreshed "ETH" = 0%Q).
  { unfold Smart.balance. now rewrite Hzero. }
  split; [exact Heth|]. intros Hflag.
  destruct (decide_after_refresh self Hflag) as (Hr & _).
  cbv zeta in Hr. fold refreshed o in Hr. rewrite Heth in Hr.
  exact Hr.
Qed.

(** X17: [decide_next_action] only looks: it broadcasts nothing, makes
    no faucet request and does not sleep; its reads are the native balance
    and the token balances of the wallet's own address; it leaves the
    account, the history of created tokens, the chain and the receipts as
    they were; and it always returns with the recovery flag cleared. *)
Theorem decide_next_action_read_only (self : Smart.SmartWallet) :
  let o := Smart.decide_next_action cfg f64 load_created_tokens self in
  reads_only (events o) /\
  sent_calls (events o) = [] /\
  (forall q r, In (EvRead q r) (events o) ->
     q = GetBalance (Smart.address_ self) \/
     exists tok, q = BalanceOf tok (Smart.address_ self)) /\
  Smart.address_ (post o) = Smart.address_ self /\
  Smart.created_tokens (post o) = Smart.created_tokens self /\
  Smart.should_recover_faucet (post o) = false /\
  chain (Smart.world (post o)) = chain (Smart.world self) /\
  receipts (Smart.world (post o)) = receipts (Smart.world self).
Proof.
  intros o.
  assert (H : reads_only (events o) /\
              (forall q r, In (EvRead q r) (events o) ->
                 q = GetBalance (Smart.address_ self) \/
                 exists tok, q = BalanceOf tok (Smart.address_ self)) /\
              Smart.address_ (post o) = Smart.address_ self /\
              Smart.created_tokens (post o) = Smart.created_tokens self /\
              Smart.should_recover_faucet (post o) = false /\
              chain (Smart.world (post o)) = chain (Smart.world self) /\
              receipts (Smart.world (post o)) = receipts (Smart.world self)).
  { destruct (Smart.should_recover_faucet self) eqn:Hflag.
    - subst o. unfold Smart.decide_next_action. rewrite bind_get.
      cbn [res post events]. rewrite Hflag. cbn.
      split; [constructor|]. split; [intros ? ? []|]. auto 10.
    - destruct (decide_after_refresh self Hflag) as (_ & Hp & He).
      cbv zeta in Hp, He. fold o in Hp, He.
      destruct (update_balances_spec self) as (_ & Hrf & Hro & Hq & _).
      cbv zeta in Hrf, Hro, Hq.
      set (refreshed := post (Smart.update_balances cfg f64 self)) in *.
      assert (Hrest : events o = events (Smart.update_balances cfg f64 self) /\
                      drew_from refreshed (post o)).
      { rewrite He, Hp. destruct (Smart.Qltb _ Smart.f2_0).
        - cbn. rewrite app_nil_r. split; [reflexivity|apply drew_from_refl].
        - destruct (rules_after_faucet_spec
                      (Smart.balance refreshed "PathUSD") (Smart.balance refreshed "AlphaUSD")
                      (Smart.balance refreshed "BetaUSD") refreshed)
            as (act & _ & Hev & Hd & _).
          cbv zeta in Hev, Hd. rewrite Hev, app_nil_r. auto. }
      destruct Hrest as [Hev Hd]. rewrite Hev.
      split; [exact Hro|]. split; [exact Hq|].
      unfold refreshed_from, drew_from in *. intuition congruence. }
  destruct H as (Hro & Hq & Hrest).
  split; [exact Hro|]. split; [now apply reads_only_sent_calls|]. split; [exact Hq|].
  exact Hrest.
Qed.

Lemma guard_holds_same_wallet path alpha beta s s' act :
  Smart.address_ s' = Smart.address_ s ->
  Smart.created_tokens s' = Smart.created_tokens s ->
  guard_holds load_created_tokens path alpha beta s' act ->
  guard_holds load_created_tokens path alpha beta s act.
Proof.
  unfold guard_holds. intros -> ->. auto.
Qed.

(** X18: with the recovery flag clear, whatever the random draws, the
    action returned was allowed by its own rule.  The faucet claim is
    returned exactly when the refreshed native balance is below 2.0.
    Otherwise: a swap only with more than 10 PathUSD and less than 5
    AlphaUSD or BetaUSD; the name registration only with more than 1000
    PathUSD and at least 5 of both AlphaUSD and BetaUSD; add liquidity only
    with more than 5 PathUSD and more than 5 AlphaUSD; a transfer policy
    only for a non-empty list of recorded tokens; mint and burn only on a
    token of the wallet's own history. *)
Theorem decision_respects_rule_guards (self : Smart.SmartWallet) (act : Smart.Action) :
  let refreshed := post (Smart.update_balances cfg f64 self) in
  let eth := Smart.balance refreshed "ETH" in
  let path := Smart.balance refreshed "PathUSD" in
  let alpha := Smart.balance refreshed "AlphaUSD" in
  let beta := Smart.balance refreshed "BetaUSD" in
  Smart.should_recover_faucet self = false ->
  res (Smart.decide_next_action cfg f64 load_created_tokens self) = Ok act ->
  ((eth < Smart.f2_0)%Q /\ Smart.fn act = Smart.FnFaucet) \/
  ((Smart.f2_0 <= eth)%Q /\ Smart.fn act <> Smart.FnFaucet /\
   guard_holds load_created_tokens path alpha beta self act).
Proof.
  intros refreshed eth path alpha beta Hflag Hact.
  destruct (decide_after_refresh self Hflag) as (Hr & _).
  cbv zeta in Hr. fold refreshed eth path alpha beta in Hr. rewrite Hact in Hr.
  destruct (Smart.Qltb eth Smart.f2_0) eqn:Hlow.
  - left. split; [now apply Qltb_lt|]. cbn in Hr. now injection Hr as ->.
  - right. split; [now apply Qltb_ge|].
    destruct (rules_after_faucet_spec path alpha beta refreshed) as (act' & Hr' & _ & _ & Hg).
    cbv zeta in Hr'. rewrite Hr' in Hr. injection Hr as ->.
    destruct (update_balances_spec self) as (_ & Hrf & _).
    cbv zeta in Hrf. fold refreshed in Hrf.
    assert (Hg' : guard_holds load_created_tokens path alpha beta self act').
    { apply (guard_holds_same_wallet path alpha beta self refreshed); [apply Hrf..|exact Hg]. }
    split; [|exact Hg'].
    intros Hfn. unfold guard_holds in Hg'. now rewrite Hfn in Hg'.
Qed.

End DecisionFacts.

(** ** Recording a created token *)

Section WrapFacts.
Variable node : Node.
Variable cfg : Config.
Variable save_created_token : address -> string -> string -> M World unit.

Lemma create_stablecoin_returns (wallet : address) (w : World) :
  exists v, res (Auto.activity4_create_stablecoin node cfg wallet w) = Ok v.
Proof. apply try_none_returns. Qed.

(** X19: [_wrap_create_token] runs the token creation once on the wallet's
    own account.  A falsy result is handed back with the history as it
    was and nothing saved.  A token address is appended to the end of the
    history before the record store is called, so that it stays in the
    history even when saving raises; in that case the exception leaves the
    wrapper, otherwise the wrapper returns the address. *)
Theorem wrap_create_token_records_token (self : Smart.SmartWallet) :
  let c := Auto.activity4_create_stablecoin node cfg (Smart.address_ self)
             (Smart.world self) in
  let o := SmartRecipes.wrap_create_token node cfg save_created_token self in
  exists token, res c = Ok token /\
    (truthy token = false ->
     res o = Ok token /\ events o = events c /\
     post o = Smart.set_world (post c) self) /\
    (truthy token = true ->
     let s := save_created_token (Smart.address_ self) (Auto.address_of token)
                "TUSD-GEN" (post c) in
     Smart.created_tokens (post o) =
       Smart.created_tokens self ++ [Auto.address_of token] /\
     events o = events c ++ events s /\
     res o = match res s with Ok _ => Ok token | Raise e => Raise e end).
Proof.
  intros c o. subst o. unfold SmartRecipes.wrap_create_token.
  rewrite bind_get. cbn [res post events].
  rewrite res_bind, post_bind, events_bind.
  change (res (Smart.lift (Auto.activity4_create_stablecoin node cfg (Smart.address_ self)) self))
    with (res c).
  change (events (Smart.lift (Auto.activity4_create_stablecoin node cfg (Smart.address_ self)) self))
    with (events c).
  change (post (Smart.lift (Auto.activity4_create_stablecoin node cfg (Smart.address_ self)) self))
    with (Smart.set_world (post c) self).
  destruct (create_stablecoin_returns (Smart.address_ self) (Smart.world self))
    as [token Htok].
  fold c in Htok. exists token. split; [exact Htok|]. rewrite Htok.
  split.
  - intros Hfalsy. rewrite Hfalsy. cbn. now rewrite app_nil_r.
  - intros Htruthy. rewrite Htruthy. cbv zeta.
    rewrite bind_get. cbn [res post events].
    unfold bind at 1 2 3. cbn [put res post events app].
    unfold bind, Smart.lift.
    cbn [res post events Smart.world Smart.set_world SmartRecipes.set_created_tokens
         Smart.created_tokens Smart.address_ ret app].
    destruct (res (save_created_token _ _ _ _)); cbn; rewrite ?app_nil_r; auto.
Qed.

End WrapFacts.

(** ** The faucet claim with any number of attempts *)

Section FaucetFacts.
Variable node : Node.
Variable wallet : address.

Lemma range_nonneg (n : Z) : Forall (fun a => 0 <= a) (Auto.range n).
Proof.
  unfold Auto.range. apply Forall_forall. intros a Ha.
  apply list_elem_of_In, in_map_iff in Ha as (k & <- & _). lia.
Qed.

Lemma range_length (n : Z) : length (Auto.range n) = Z.to_nat n.
Proof. unfold Auto.range. now rewrite length_map, length_seq. Qed.

Lemma faucet_loop_spec (max_retries : Z) (attempts : list Z) :
  Forall (fun a => 0 <= a) attempts ->
  forall w,
  let o := Auto.faucet_loop node wallet max_retries attempts w in
  (faucet_requests (events o) <= length attempts)%nat /\
  sent_calls (events o) = [] /\
  (forall s, In s (sleeps (events o)) ->
     s = 2%Q \/ exists k, 1 <= k <= max_retries - 1 /\ s = inject_Z (k * 5)) /\
  ((res o = Ok (Some "faucet") /\
    exists evs, events o = evs ++ [EvFaucet wallet (Ok tt); EvSleep 2] /\
                ~ In (EvFaucet wallet (Ok tt)) evs) \/
   (res o = Ok None /\ ~ In (EvFaucet wallet (Ok tt)) (events o))).
Proof.
  induction 1 as [|attempt rest Hattempt _ IH]; intros w; cbv zeta.
  - cbn. split; [lia|]. split; [reflexivity|]. split; [intros ? []|]. right. auto.
  - destruct (next_fault w) as [e|] eqn:Hf.
    + destruct (Auto.is_retryable e) eqn:Hr; [destruct (Z.lt_ge_cases attempt (max_retries - 1)) as [Hlt|Hge]|].
      * destruct (faucet_loop_retry node wallet max_retries attempt rest w e Hf Hr Hlt)
          as [-> ->].
        destruct (IH (drop_fault w)) as (Hn & Hs & Hsl & Hend). cbv zeta in Hn, Hs, Hsl, Hend.
        cbn [app faucet_requests sent_calls sleeps length].
        split; [lia|]. split; [exact Hs|]. split.
        { intros s [<-|Hin]; [|now apply Hsl].
          right. exists (attempt + 1). split; [lia|reflexivity]. }
        destruct Hend as [(Hres & evs & Hev & Hno)|(Hres & Hno)].
        { left. split; [exact Hres|].
          exists (EvFaucet wallet (Raise e) :: EvSleep (inject_Z ((attempt + 1) * 5)) :: evs).
          split; [now rewrite Hev|].
          intros [Hin|[Hin|Hin]]; [discriminate|discriminate|now apply Hno]. }
        { right. split; [exact Hres|].
          intros [Hin|[Hin|Hin]]; [discriminate|discriminate|now apply Hno]. }
      * rewrite (faucet_loop_abort node wallet max_retries attempt rest w e Hf
                   (or_intror Hge)).
        cbn. split; [lia|]. split; [reflexivity|]. split; [intros ? []|].
        right. split; [reflexivity|]. intros [Hin|[]]. discriminate.
      * rewrite (faucet_loop_abort node wallet max_retries attempt rest w e Hf
                   (or_introl Hr)).
        cbn. split; [lia|]. split; [reflexivity|]. split; [intros ? []|].
        right. split; [reflexivity|]. intros [Hin|[]]. discriminate.
    + destruct (faucet_loop_success node wallet max_retries attempt rest w Hf) as [-> ->].
      cbn. split; [lia|]. split; [reflexivity|].
      split; [intros s [<-|[]]; now left|].
      left. split; [reflexivity|]. exists []. split; [reflexivity|]. intros [].
Qed.

(** X20: for any [max_retries], [activity2_faucet] makes at most
    [max_retries] requests (none at all when it is zero or negative),
    broadcasts no transaction, and sleeps either 2 seconds after a claim or
    [5 * k] seconds with [1 <= k <= max_retries - 1] between attempts: the
    back-off never reaches [5 * max_retries].  It returns ['faucet']
    exactly when a request succeeded; that request is then the last one,
    followed by the sleep of 2 seconds, and no request before it
    succeeded.  Otherwise it returns [None]. *)
Theorem faucet_bounded_for_any_max_retries (max_retries : Z) (w : World) :
  let o := Auto.activity2_faucet node wallet max_retries w in
  (faucet_requests (events o) <= Z.to_nat max_retries)%nat /\
  sent_calls (events o) = [] /\
  (forall s, In s (sleeps (events o)) ->
     s = 2%Q \/ exists k, 1 <= k <= max_retries - 1 /\ s = inject_Z (k * 5)) /\
  ((res o = Ok (Some "faucet") /\
    exists evs, events o = evs ++ [EvFaucet wallet (Ok tt); EvSleep 2] /\
                ~ In (EvFaucet wallet (Ok tt)) evs) \/
   (res o = Ok None /\ ~ In (EvFaucet wallet (Ok tt)) (events o))).
Proof.
  unfold Auto.activity2_faucet. rewrite <- range_length.
  apply faucet_loop_spec, range_nonneg.
Qed.

End FaucetFacts.

(** ** The order of the transactions of a swap *)

Section SwapFacts.
Variable node : Node.
Variable cfg : Config.
Variable wallet : address.

(** [submit] broadcasts its call once, or fails before broadcasting. *)
Lemma submit_sent_shape call gas w :
  let o := Auto.submit node cfg wallet call gas w in
  (sent_calls (events o) = [] /\ exists e, res o = Raise e) \/
  sent_calls (events o) = [call].
Proof.
  destruct w as [c fs rcs rf ri].
  destruct fs as [|[e1|] [|[e2|] [|[e3|] [|[e4|] fs]]]];
    cbv -[String.eqb]; rewrite ?String.eqb_refl; cbv -[String.eqb]; eauto.
Qed.

Lemma ensure_allowance_shape tok spender amount w :
  let o := Auto.ensure_allowance node cfg wallet tok spender amount w in
  sent_calls (events o) = [] \/
  sent_calls (events o) = [Approve tok spender Auto.max_uint256].
Proof.
  cbv zeta. unfold Auto.ensure_allowance. rewrite events_bind.
  destruct (eth_call_cases (Allowance tok wallet spender) w)
    as [(_ & ->)|(e & _ & ->)]; cbn [res post events app sent_calls]; [|now left].
  destruct (_ <? amount); [|now left].
  rewrite events_bind, sent_calls_app.
  destruct (submit_sent_shape (Approve tok spender Auto.max_uint256) 100000 (drop_fault w))
    as [(-> & e & ->)|Hs]; cbv zeta in *; [now left|].
  rewrite Hs. right.
  destruct (res (Auto.submit _ _ _ _ _ _)); reflexivity.
Qed.

(** The approve, quote and swap sequence shared by [activity5_swap] and
    [activity17_batch_operations]. *)
Lemma swap_sequence_shape (name_out : string) (amount : Z) (w : World) :
  let o := try_catch
             (path_usd_address <- Auto.token cfg "PathUSD" ;;
              Auto.ensure_allowance node cfg wallet path_usd_address
                                    (STABLECOIN_DEX cfg) amount ;;;
              out_address <- Auto.token cfg name_out ;;
              quote <- eth_call (QuoteSwapExactAmountIn path_usd_address out_address amount) ;;
              Auto.swap_on_quote node cfg wallet path_usd_address out_address amount quote)
             (fun _ => ret None) w in
  (Auto.assoc "PathUSD" (TOKENS cfg) = None -> o = Outcome (Ok None) w []) /\
  (forall p, Auto.assoc "PathUSD" (TOKENS cfg) = Some p ->
     exists pre swaps,
       sent_calls (events o) = pre ++ swaps /\
       (pre = [] \/ pre = [Approve p (STABLECOIN_DEX cfg) Auto.max_uint256]) /\
       (swaps = [] \/
        exists out m, Auto.assoc name_out (TOKENS cfg) = Some out /\
                      swaps = [SwapExactAmountIn p out amount m]) /\
       (forall h, res o = Ok (Some h) -> swaps <> [])).
Proof.
  intros o. subst o. split.
  - intros Hnone. unfold try_catch, bind, Auto.token. rewrite Hnone. reflexivity.
  - intros p Hp.
    rewrite events_try_catch_ret, res_try_catch_ret.
    rewrite events_bind, res_bind, (token_some cfg "PathUSD" p w Hp).
    cbn [res post events app].
    rewrite events_bind, res_bind.
    exists (sent_calls (events (Auto.ensure_allowance node cfg wallet p
                                  (STABLECOIN_DEX cfg) amount w))).
    pose proof (ensure_allowance_shape p (STABLECOIN_DEX cfg) amount w) as Hpre.
    cbv zeta in Hpre.
    destruct (res (Auto.ensure_allowance node cfg wallet p (STABLECOIN_DEX cfg) amount w))
      as [u|e].
    2:{ exists []. rewrite !app_nil_r. split; [reflexivity|]. split; [exact Hpre|].
        split; [now left|]. discriminate. }
    set (w2 := post _).
    rewrite events_bind, res_bind, events_token, post_token. cbn [app].
    unfold Auto.token. destruct (Auto.assoc name_out (TOKENS cfg)) as [out|] eqn:Hout.
    2:{ exists []. cbn [res raise events]. rewrite !app_nil_r.
        split; [reflexivity|]. split; [exact Hpre|]. split; [now left|]. discriminate. }
    cbn [res ret]. rewrite events_bind, res_bind.
    destruct (eth_call_cases (QuoteSwapExactAmountIn p out amount) w2)
      as [(_ & ->)|(e & _ & ->)]; cbn [res post events].
    2:{ exists []. rewrite sent_calls_app. cbn [sent_calls]. 
        split; [reflexivity|]. split; [exact Hpre|]. split; [now left|]. discriminate. }
    set (q := chain w2 _). unfold Auto.swap_on_quote.
    destruct (0 <? q).
    2:{ exists []. rewrite sent_calls_app. cbn [sent_calls events ret app res].
        split; [reflexivity|]. split; [exact Hpre|]. split; [now left|]. discriminate. }
    rewrite events_bind, res_bind.
    destruct (submit_sent_shape (SwapExactAmountIn p out amount (q * 99 / 100)) 300000
                (drop_fault w2)) as [(Hs & e & He)|Hs]; cbv zeta in Hs.
    + exists []. rewrite He. rewrite sent_calls_app. cbn [sent_calls app].
      rewrite app_nil_r, Hs.
      split; [reflexivity|]. split; [exact Hpre|]. split; [now left|]. discriminate.
    + exists [SwapExactAmountIn p out amount (q * 99 / 100)].
      split.
      { rewrite sent_calls_app. cbn [sent_calls app]. rewrite sent_calls_app, Hs.
        destruct (res (Auto.submit _ _ _ _ _ _)); cbn; reflexivity. }
      split; [exact Hpre|]. split; [right; eauto|]. discriminate.
Qed.

(** X21: in [activity5_swap] (1 PathUSD to AlphaUSD) and in
    [activity17_batch_operations] (half a PathUSD to BetaUSD), whichever
    RPC calls fail, the broadcast transactions are at most one approval of
    [2^256 - 1] to the DEX followed by at most one swap of the fixed
    amount: an approval never follows the swap and neither occurs twice.
    A transaction hash is returned only when the swap was broadcast.  With
    no PathUSD entry in the token table the recipe returns [None] at once
    with nothing read or sent. *)
Theorem swap_recipes_approve_then_swap (w : World) :
  let shape (o : outcome World value) (name_out : string) (amount : Z) :=
    (Auto.assoc "PathUSD" (TOKENS cfg) = None -> o = Outcome (Ok None) w []) /\
    (forall p, Auto.assoc "PathUSD" (TOKENS cfg) = Some p ->
       exists pre swaps,
         sent_calls (events o) = pre ++ swaps /\
         (pre = [] \/ pre = [Approve p (STABLECOIN_DEX cfg) Auto.max_uint256]) /\
         (swaps = [] \/
          exists out m, Auto.assoc name_out (TOKENS cfg) = Some out /\
                        swaps = [SwapExactAmountIn p out amount m]) /\
         (forall h, res o = Ok (Some h) -> swaps <> [])) in
  shape (Auto.activity5_swap node cfg wallet w) "AlphaUSD" (1 * 10 ^ 6) /\
  shape (Auto.activity17_batch_operations node cfg wallet w) "BetaUSD" 500000.
Proof.
  cbv zeta. split.
  - apply (swap_sequence_shape "AlphaUSD" (1 * 10 ^ 6) w).
  - apply (swap_sequence_shape "BetaUSD" 500000 w).
Qed.

End SwapFacts.

(** ** What a refresh without RPC failure caches *)

Section RefreshFacts.
Variable cfg : Config.
Variable f64 : Float64.

Lemma update_token_balances_calm (symbols : list string) :
  NoDup symbols ->
  forall self, calm (Smart.world self) ->
  let o := Smart.update_token_balances cfg f64 symbols self in
  res o = Ok tt /\
  calm (Smart.world (post o)) /\
  (forall symbol tok,
     In symbol symbols ->
     Auto.assoc symbol (TOKENS cfg) = Some tok -> truthy (Some tok) = true ->
     Smart.balances (post o) !! symbol =
       Some (truediv f64 (chain (Smart.world self) (BalanceOf tok (Smart.address_ self)))
                     (10 ^ 6))) /\
  (forall symbol,
     Auto.assoc symbol (TOKENS cfg) = None \/
     (exists tok, Auto.assoc symbol (TOKENS cfg) = Some tok /\ truthy (Some tok) = false) ->
     Smart.balances (post o) !! symbol = Smart.balances self !! symbol).
Proof.
  induction symbols as [|symbol rest IH]; intros Hnd self Hcalm; cbv zeta.
  - split; [reflexivity|]. split; [exact Hcalm|]. split; [intros ? ? []|reflexivity].
  - apply NoDup_cons in Hnd as [Hnotin Hnd].
    cbn [Smart.update_token_balances]. rewrite bind_get. cbn [res post events].
    rewrite res_bind, post_bind.
    match goal with |- context [res (?b self)] => set (block := b) end.
    assert (Hblock :
      res (block self) = Ok tt /\
      calm (Smart.world (post (block self))) /\
      Smart.address_ (post (block self)) = Smart.address_ self /\
      chain (Smart.world (post (block self))) = chain (Smart.world self) /\
      (forall tok, Auto.assoc symbol (TOKENS cfg) = Some tok -> truthy (Some tok) = true ->
         Smart.balances (post (block self)) !! symbol =
           Some (truediv f64 (chain (Smart.world self) (BalanceOf tok (Smart.address_ self)))
                         (10 ^ 6))) /\
      (forall k,
         Auto.assoc k (TOKENS cfg) = None \/
         (exists tok, Auto.assoc k (TOKENS cfg) = Some tok /\ truthy (Some tok) = false) ->
         Smart.balances (post (block self)) !! k = Smart.balances self !! k)).
    { subst block. destruct (Auto.assoc symbol (TOKENS cfg)) as [a|] eqn:Hassoc.
      2:{ cbn [res post events ret].
          split; [reflexivity|]. split; [exact Hcalm|]. split; [reflexivity|].
          split; [reflexivity|]. split; [discriminate|reflexivity]. }
      destruct (truthy (Some a)) eqn:Ha.
      2:{ cbn [res post events ret].
          split; [reflexivity|]. split; [exact Hcalm|]. split; [reflexivity|].
          split; [reflexivity|]. split; [|reflexivity].
          intros tok [= <-] Ht. rewrite Ha in Ht. discriminate. }
      unfold bind, Smart.lift, get, put.
      rewrite (eth_call_calm _ _ Hcalm).
      cbn [res post events Smart.world Smart.set_world Smart.set_balance Smart.address_
           Smart.balances].
      split; [reflexivity|]. split; [exact Hcalm|]. split; [reflexivity|].
      split; [reflexivity|]. split.
      - intros tok [= <-] _. now rewrite lookup_insert_eq.
      - intros k Hk. apply lookup_insert_ne. intros <-.
        destruct Hk as [Hk|(tok & Hk & Ht)]; [congruence|].
        rewrite Hassoc in Hk. injection Hk as <-. rewrite Ha in Ht. discriminate. }
    destruct Hblock as (Hres & Hcalm1 & Haddr & Hchain & Hval & Hstale).
    rewrite Hres.
    destruct (IH Hnd (post (block self)) Hcalm1) as (Hres' & Hcalm' & Hvals & Hstale').
    cbv zeta in Hres', Hcalm', Hvals, Hstale'.
    split; [exact Hres'|]. split; [exact Hcalm'|]. split.
    + intros s tok [<-|Hin] Hs Htok.
      * destruct (update_token_balances_spec cfg f64 rest (post (block self)))
          as (_ & _ & _ & _ & Hkeep).
        cbv zeta in Hkeep. rewrite Hkeep.
        -- now apply Hval.
        -- intros Hin. apply Hnotin. now apply list_elem_of_In.
      * rewrite (Hvals s tok Hin Hs Htok), Hchain, Haddr. reflexivity.
    + intros k Hk. rewrite (Hstale' k Hk). now apply Hstale.
Qed.

(** X22: when no RPC call fails, [update_balances] leaves in the cache the
    native balance divided by [10^18] under ['ETH'] and, for each of
    PathUSD, AlphaUSD, BetaUSD and ThetaUSD that the token table maps to a
    non-empty address, the wallet's own [balanceOf] divided by [10^6]
    (six decimals are assumed for every token); a symbol without such an
    entry keeps the value it had, possibly a stale one. *)
Theorem update_balances_caches_chain_values (self : Smart.SmartWallet) :
  calm (Smart.world self) ->
  let o := Smart.update_balances cfg f64 self in
  let c := chain (Smart.world self) in
  let a := Smart.address_ self in
  res o = Ok tt /\
  Smart.balances (post o) !! "ETH" = Some (truediv f64 (c (GetBalance a)) (10 ^ 18)) /\
  (forall symbol tok,
     In symbol Smart.stable_symbols ->
     Auto.assoc symbol (TOKENS cfg) = Some tok -> truthy (Some tok) = true ->
     Smart.balances (post o) !! symbol = Some (truediv f64 (c (BalanceOf tok a)) (10 ^ 6))) /\
  (forall symbol,
     In symbol Smart.stable_symbols ->
     Auto.assoc symbol (TOKENS cfg) = None \/
     (exists tok, Auto.assoc symbol (TOKENS cfg) = Some tok /\ truthy (Some tok) = false) ->
     Smart.balances (post o) !! symbol = Smart.balances self !! symbol).
Proof.
  intros Hcalm o c a. subst o c a. unfold Smart.update_balances.
  set (s1 := Smart.set_balance "ETH"
               (truediv f64 (chain (Smart.world self) (GetBalance (Smart.address_ self)))
                        (10 ^ 18)) self).
  assert (Hnd : NoDup Smart.stable_symbols).
  { unfold Smart.stable_symbols. repeat (apply NoDup_cons; split);
      [| | | |apply NoDup_nil; exact I]; rewrite list_elem_of_In; cbn;
      intuition discriminate. }
  assert (Hcalm1 : calm (Smart.world s1)) by exact Hcalm.
  destruct (update_token_balances_calm Smart.stable_symbols Hnd s1 Hcalm1)
    as (Hres & _ & Hvals & Hstale).
  cbv zeta in Hres, Hvals, Hstale.
  destruct (update_token_balances_spec cfg f64 Smart.stable_symbols s1)
    as (_ & _ & _ & _ & Hkeep).
  cbv zeta in Hkeep.
  assert (Hbody : forall h,
    let o := try_catch
      (self0 <- get ;;
       eth_balance <- Smart.lift (eth_call (GetBalance (Smart.address_ self0))) ;;
       self' <- get ;;
       put (Smart.set_balance "ETH" (truediv f64 eth_balance (10 ^ 18)) self') ;;;
       Smart.update_token_balances cfg f64 Smart.stable_symbols) h self in
    res o = Ok tt /\
    post o = post (Smart.update_token_balances cfg f64 Smart.stable_symbols s1)).
  { intros h. cbv zeta. rewrite res_try_catch, post_try_catch.
    rewrite bind_get. cbn [res post events].
    rewrite !res_bind, !post_bind.
    assert (Hlift : Smart.lift (eth_call (GetBalance (Smart.address_ self))) self =
                    Outcome (Ok (chain (Smart.world self) (GetBalance (Smart.address_ self))))
                            (Smart.set_world (Smart.world self) self)
                            [EvRead (GetBalance (Smart.address_ self))
                                    (Ok (chain (Smart.world self)
                                           (GetBalance (Smart.address_ self))))]).
    { unfold Smart.lift. now rewrite (eth_call_calm _ _ Hcalm). }
    rewrite Hlift. cbn [res post events].
    rewrite bind_get. cbn [res post events].
    rewrite !res_bind, !post_bind. cbn [put res post events].
    change (Smart.set_balance "ETH" _ (Smart.set_world (Smart.world self) self)) with s1.
    rewrite Hres. auto. }
  destruct (Hbody (fun _ => self0 <- get ;; put (Smart.set_balance "ETH" 0%Q self0)))
    as [Hr Hp].
  cbv zeta in Hr, Hp. rewrite Hr, Hp.
  split; [reflexivity|]. split.
  { rewrite Hkeep.
    - subst s1. cbn. now rewrite lookup_insert_eq.
    - unfold Smart.stable_symbols. cbn. intuition discriminate. }
  split.
  { intros symbol tok Hin Hs Ht. exact (Hvals symbol tok Hin Hs Ht). }
  intros symbol Hin Hs. rewrite (Hstale symbol Hs). subst s1. cbn.
  apply lookup_insert_ne. intros <-. unfold Smart.stable_symbols in Hin. cbn in Hin.
  intuition discriminate.
Qed.

End RefreshFacts.

(** ** Add liquidity *)

Section LiquidityFacts.
Variable node : Node.
Variable cfg : Config.
Variable wallet : address.

(** With no RPC fault the approve-if-needed block broadcasts its approval
    exactly when the allowance read is below the amount. *)
Lemma ensure_allowance_calm_sent tok spender amount w :
  calm w ->
  sent_calls (events (Auto.ensure_allowance node cfg wallet tok spender amount w)) =
    if chain w (Allowance tok wallet spender) <? amount
    then [Approve tok spender Auto.max_uint256] else [].
Proof.
  intros Hc. unfold Auto.ensure_allowance, bind.
  rewrite (eth_call_calm _ _ Hc). cbn [res post events].
  destruct (_ <? amount); [|reflexivity].
  rewrite (submit_calm _ _ _ _ _ _ Hc). cbn. reflexivity.
Qed.

(** X11: with at least two entries in the token table,
    [activity6_add_liquidity] works on the first two entries of the
    shuffled table, so on two different tokens when the table holds no
    address twice, and on the whole number of tokens between 5 and 10 that
    [random.randint] gives.  Whichever RPC calls fail it broadcasts at most
    one approval followed by at most one deposit: the approval is on the
    first of the two tokens (the validator token of the deposit), to the
    fee manager and for [2^256 - 1]; the deposit is of that first token
    against the second, to the wallet.  A hash is returned only when the
    deposit was broadcast.  When no RPC call fails the deposit is always
    broadcast, preceded by the approval exactly when the allowance of the
    first token is below the amount.  With fewer than two tokens
    configured the recipe gives up at once: [None], nothing read, nothing
    sent. *)
Theorem add_liquidity_two_distinct_tokens (w : World) :
  let o := Auto.activity6_add_liquidity node cfg wallet w in
  let shuffled := random_shuffle (TOKENS cfg) w in
  ((length (TOKENS cfg) < 2)%nat -> res o = Ok None /\ events o = []) /\
  ((2 <= length (TOKENS cfg))%nat ->
   exists t1 t2 rest k,
     res shuffled = Ok (t1 :: t2 :: rest) /\
     res (random_randint 5 10 (post shuffled)) = Ok k /\
     In t1 (TOKENS cfg) /\ In t2 (TOKENS cfg) /\
     (NoDup (map snd (TOKENS cfg)) -> snd t1 <> snd t2) /\
     5 <= k <= 10 /\
     let approve := Approve (snd t1) (FEE_MANAGER cfg) Auto.max_uint256 in
     let deposit := MintWithValidatorToken (snd t1) (snd t2) (k * 10 ^ 6) wallet in
     let allowance := chain w (Allowance (snd t1) wallet (FEE_MANAGER cfg)) in
     exists pre deposits,
       sent_calls (events o) = pre ++ deposits /\
       (pre = [] \/ pre = [approve]) /\
       (deposits = [] \/ deposits = [deposit]) /\
       (forall h, res o = Ok (Some h) -> deposits = [deposit]) /\
       (calm w ->
        deposits = [deposit] /\ (exists h, res o = Ok (Some h)) /\
        (allowance < k * 10 ^ 6 -> pre = [approve]) /\
        (k * 10 ^ 6 <= allowance -> pre = []))).
Proof.
  intros o shuffled. subst o shuffled. unfold Auto.activity6_add_liquidity.
  rewrite events_try_catch_ret, res_try_catch_ret, events_bind, res_bind.
  unfold random_shuffle.
  destruct (shuffle_from_spec (length (TOKENS cfg) - 1) (TOKENS cfg) w)
    as (y & Hres & Hy & Hev & Hch & Hfl & _).
  rewrite Hres, Hev. cbn [app].
  set (w1 := post (shuffle_from (length (TOKENS cfg) - 1) (TOKENS cfg) w)) in *.
  rewrite events_bind, res_bind.
  destruct y as [|t1 [|t2 rest]].
  - split; [intros _; split; reflexivity|].
    intros Hlen. apply Permutation_length in Hy. cbn in Hy. lia.
  - split; [intros _; split; reflexivity|].
    intros Hlen. apply Permutation_length in Hy. cbn in Hy. lia.
  - split.
    { intros Hlen. apply Permutation_length in Hy. cbn in Hy. lia. }
    intros _.
    cbn [Auto.first_two res post events ret app fst snd].
    rewrite events_bind, res_bind.
    destruct (random_randint_spec 5 10 w1) as (k & Hk & Hk510 & Hkev & Hkch & Hkfl);
      [lia|].
    rewrite Hk, Hkev. cbn [app].
    set (w2 := post (random_randint 5 10 w1)) in *.
    exists t1, t2, rest, k.
    split; [reflexivity|]. split; [reflexivity|].
    split; [apply (Permutation_in _ Hy); now left|].
    split; [apply (Permutation_in _ Hy); right; now left|].
    split.
    { intros Hnd. apply (Permutation_map snd) in Hy.
      rewrite <- Hy in Hnd. cbn [map] in Hnd.
      apply NoDup_cons in Hnd as [Hnot _]. intros E. apply Hnot. rewrite E. now left. }
    split; [exact Hk510|]. cbv zeta.
    assert (Hchain : chain w2 = chain w) by congruence.
    assert (Hcalm : calm w -> calm w2) by (unfold calm; congruence).
    set (amount := k * 10 ^ 6) in *.
    set (approve := Approve (snd t1) (FEE_MANAGER cfg) Auto.max_uint256).
    set (deposit := MintWithValidatorToken (snd t1) (snd t2) amount wallet).
    rewrite events_bind, res_bind, sent_calls_app.
    exists (sent_calls (events (Auto.ensure_allowance node cfg wallet (snd t1)
                                  (FEE_MANAGER cfg) amount w2))).
    pose proof (ensure_allowance_shape node cfg wallet (snd t1) (FEE_MANAGER cfg) amount w2)
      as Hpre.
    cbv zeta in Hpre. fold approve in Hpre.
    pose proof (ensure_allowance_calm node cfg wallet (snd t1) (FEE_MANAGER cfg) amount w2)
      as Hec.
    pose proof (ensure_allowance_calm_sent (snd t1) (FEE_MANAGER cfg) amount w2) as Hes.
    fold approve in Hes. rewrite Hchain in Hes.
    destruct (res (Auto.ensure_allowance node cfg wallet (snd t1) (FEE_MANAGER cfg) amount w2))
      as [u|e].
    2:{ exists []. split; [reflexivity|]. split; [exact Hpre|]. split; [now left|].
        split; [discriminate|].
        intros Hc. destruct (Hec (Hcalm Hc)) as [Habs _]. discriminate Habs. }
    set (w3 := post (Auto.ensure_allowance node cfg wallet (snd t1) (FEE_MANAGER cfg)
                       amount w2)) in *.
    rewrite events_bind, res_bind, sent_calls_app.
    pose proof (submit_sent_shape node cfg wallet deposit 500000 w3) as Hsub.
    pose proof (submit_calm_sent node cfg wallet deposit 500000 w3) as Hsc.
    cbv zeta in Hsub.
    destruct Hsub as [(Hs & e & He)|Hs].
    + exists []. rewrite Hs, He. cbn [app sent_calls].
      split; [reflexivity|]. split; [exact Hpre|]. split; [now left|].
      split; [discriminate|].
      intros Hc. destruct (Hec (Hcalm Hc)) as [_ Hc3].
      destruct (Hsc Hc3) as [_ [hr Hr]]. rewrite He in Hr. discriminate Hr.
    + exists [deposit]. rewrite Hs.
      split.
      { destruct (res (Auto.submit node cfg wallet deposit 500000 w3)); cbn;
          now rewrite ?app_nil_r. }
      split; [exact Hpre|]. split; [now right|]. split; [reflexivity|].
      intros Hc. split; [reflexivity|].
      destruct (Hec (Hcalm Hc)) as [_ Hc3].
      destruct (Hsc Hc3) as [_ [hr Hr]]. rewrite Hr. cbn [res ret].
      split; [eauto|].
      rewrite (Hes (Hcalm Hc)).
      split; intros Hlt.
      * destruct (Z.ltb_spec (chain w (Allowance (snd t1) wallet (FEE_MANAGER cfg))) amount);
          [reflexivity|lia].
      * destruct (Z.ltb_spec (chain w (Allowance (snd t1) wallet (FEE_MANAGER cfg))) amount);
          [lia|reflexivity].
Qed.

End LiquidityFacts.

(** ** More theorems at work on the test network *)

(** Twenty wallets; out-of-range, reversed and unreadable parts drop out. *)
Lemma parse_wallet_selection_sorted_witness :
  Selection.parse_wallet_selection Samples.int " 1, 5,10-12 ,3-2,99,x, 2" 20 =
    Selection.Parsed [0; 1; 4; 9; 10; 11] /\
  StronglySorted Z.lt [0; 1; 4; 9; 10; 11] /\
  forall i, i ∈ [0; 1; 4; 9; 10; 11] -> 0 <= i < 20.
Proof.
  assert (H : Selection.parse_wallet_selection Samples.int " 1, 5,10-12 ,3-2,99,x, 2" 20 =
              Selection.Parsed [0; 1; 4; 9; 10; 11]) by (vm_compute; reflexivity).
  split; [exact H|].
  exact (parse_wallet_selection_sorted_in_range Samples.int _ 20 _ H).
Defined.

(** Index 10 is there because the part [10-12] names wallet 11. *)
Lemma parse_wallet_selection_membership_witness :
  Selection.parse_wallet_selection Samples.int "10-12,3" 20 = Selection.Parsed [2; 9; 10; 11] /\
  (10 ∈ [2; 9; 10; 11] <->
   exists part, part ∈ Selection.parts_of "10-12,3" /\
                Selection.names Samples.int 20 part (10 + 1)).
Proof.
  assert (H : Selection.parse_wallet_selection Samples.int "10-12,3" 20 =
              Selection.Parsed [2; 9; 10; 11]) by (vm_compute; reflexivity).
  split; [exact H|].
  exact (parse_wallet_selection_membership Samples.int _ 20 _ H 10).
Defined.

(** The selection [1,-5]. *)
Lemma parse_wallet_selection_negative_witness :
  Samples.int "" = None /\
  String "-" "5" ∈ Selection.parts_of "1,-5" /\
  exists e, Selection.parse_wallet_selection Samples.int "1,-5" 20 = Selection.Failed e.
Proof.
  assert (H1 : Samples.int "" = None) by reflexivity.
  assert (H2 : String "-" "5" ∈ Selection.parts_of "1,-5").
  { vm_compute. apply list_elem_of_In. right. left. reflexivity. }
  split; [exact H1|]. split; [exact H2|].
  exact (parse_wallet_selection_negative_number_raises Samples.int "1,-5" 20 "5" H1 H2).
Defined.

(** The selection [all] over three wallets. *)
Lemma selected_indices_valid_witness :
  Selection.selected_indices Samples.int " ALL " 3 = Selection.Parsed [0; 1; 2] /\
  StronglySorted Z.lt [0; 1; 2] /\
  forall i, i ∈ [0; 1; 2] -> 0 <= i < 3.
Proof.
  assert (H : Selection.selected_indices Samples.int " ALL " 3 = Selection.Parsed [0; 1; 2])
    by (vm_compute; reflexivity).
  split; [exact H|].
  exact (selected_indices_valid Samples.int _ 3 _ H).
Defined.

(** The pause role is absent on the test network: one grant is sent. *)
Lemma grant_role_only_when_absent_witness :
  truthy (Some Demo.new_token) = true /\
  sent_calls (events (Auto.activity13_grant_role Demo.node Demo.cfg Demo.alice
                        (Some Demo.new_token) Demo.world0)) =
    [GrantRole Demo.new_token Auto.PAUSE_ROLE Demo.alice].
Proof.
  split; [reflexivity|].
  destruct (grant_role_only_when_absent Demo.node Demo.cfg Demo.alice
              Demo.new_token Demo.world0 eq_refl) as (_ & _ & Habsent).
  destruct Habsent as [Hsent _]; [reflexivity|reflexivity|exact Hsent].
Defined.

(** The issuer role is held: the mint is the only transaction. *)
Lemma mint_grants_issuer_role_first_witness :
  let w := Demo.world_of Samples.chain_issuer [] [] [] in
  truthy (Some Demo.new_token) = true /\
  sent_calls (events (Auto.activity8_mint_tokens Demo.node Demo.cfg Demo.alice
                        (Some Demo.new_token) w)) =
    [Mint Demo.new_token Demo.alice (1000 * 10 ^ 6)].
Proof.
  intros w. split; [reflexivity|].
  destruct (mint_grants_issuer_role_first Demo.node Demo.cfg Demo.alice
              Demo.new_token w eq_refl) as (_ & _ & Hheld & _).
  destruct Hheld as [Hsent _]; [reflexivity|vm_compute; discriminate|exact Hsent].
Defined.

(** Positions of 0.05 LP in every pool. *)
Lemma remove_liquidity_skips_dust_witness :
  let w := Demo.world_of Samples.chain_dust [] [] [] in
  let o := Auto.activity12_remove_liquidity Demo.node Demo.cfg Demo.f64 Demo.alice w in
  (forall pid, chain w (LiquidityBalances pid Demo.alice) < Auto.min_withdraw) /\
  sent_calls (events o) = [] /\
  (res o = Ok (Some "skipped: no lp") \/ res o = Ok (Some "skipped: low balance")).
Proof.
  intros w o.
  assert (H : forall pid, chain w (LiquidityBalances pid Demo.alice) < Auto.min_withdraw)
    by (intros pid; vm_compute; reflexivity).
  split; [exact H|].
  exact (remove_liquidity_skips_dust Demo.node Demo.cfg Demo.f64 Demo.alice w H).
Defined.

(** 1.5 native units and no stablecoins. *)
Lemma low_native_balance_selects_faucet_witness :
  let self := Demo.wallet_of (Demo.world_of Samples.chain_low_native [] [] []) false in
  let refreshed := post (Smart.update_balances Demo.cfg Demo.f64 self) in
  let o := Smart.decide_next_action Demo.cfg Demo.f64 Demo.no_tokens self in
  Smart.should_recover_faucet self = false /\
  (Smart.balance refreshed "ETH" == 3 # 2)%Q /\
  (Smart.balance refreshed "ETH" < Smart.f2_0)%Q /\
  exists act, res o = Ok act /\ Smart.fn act = Smart.FnFaucet /\
              Smart.name act = "Faucet Claim (Low Balance)".
Proof.
  intros self refreshed o.
  assert (H1 : Smart.should_recover_faucet self = false) by reflexivity.
  assert (H2 : (Smart.balance refreshed "ETH" < Smart.f2_0)%Q) by (vm_compute; reflexivity).
  split; [exact H1|]. split; [vm_compute; reflexivity|]. split; [exact H2|].
  destruct (low_native_balance_selects_faucet Demo.cfg Demo.f64 Demo.no_tokens self H1 H2)
    as (Hres & _).
  eexists. split; [exact Hres|]. split; reflexivity.
Defined.

(** The first read times out although the wallet holds 5 native units. *)
Lemma failed_refresh_selects_faucet_witness :
  let self := Demo.wallet_of (Demo.world_of Demo.chain0 [Some "Read timed out."] [] []) false in
  let refreshed := post (Smart.update_balances Demo.cfg Demo.f64 self) in
  In (EvRead (GetBalance Demo.alice) (Raise "Read timed out."))
     (events (Smart.update_balances Demo.cfg Demo.f64 self)) /\
  Smart.balance refreshed "ETH" = 0%Q /\
  exists act, res (Smart.decide_next_action Demo.cfg Demo.f64 Demo.no_tokens self) = Ok act /\
              Smart.fn act = Smart.FnFaucet.
Proof.
  intros self refreshed.
  assert (H : In (EvRead (GetBalance Demo.alice) (Raise "Read timed out."))
                 (events (Smart.update_balances Demo.cfg Demo.f64 self)))
    by (vm_compute; left; reflexivity).
  split; [exact H|].
  destruct (failed_refresh_selects_faucet Demo.cfg Demo.f64 Demo.no_tokens self _ _ H)
    as (Hzero & Hres).
  split; [exact Hzero|].
  eexists. split; [exact (Hres eq_refl)|reflexivity].
Defined.

(** 5 native units, 20 PathUSD, 1 AlphaUSD, 1 BetaUSD and a draw of 0.5:
    the swap, and its guard on the refreshed balances. *)
Lemma decision_respects_rule_guards_witness :
  let self := Demo.wallet_of (Demo.world_of Demo.chain0 [] [(1 # 2)%Q] []) false in
  let refreshed := post (Smart.update_balances Demo.cfg Demo.f64 self) in
  let act := Smart.swap_action (Smart.balance refreshed "PathUSD") in
  Smart.should_recover_faucet self = false /\
  res (Smart.decide_next_action Demo.cfg Demo.f64 Demo.no_tokens self) = Ok act /\
  (10 < Smart.balance refreshed "PathUSD")%Q /\
  ((Smart.balance refreshed "AlphaUSD" < 5)%Q \/ (Smart.balance refreshed "BetaUSD" < 5)%Q).
Proof.
  intros self refreshed act.
  assert (H1 : Smart.should_recover_faucet self = false) by reflexivity.
  assert (H2 : res (Smart.decide_next_action Demo.cfg Demo.f64 Demo.no_tokens self) = Ok act)
    by (vm_compute; reflexivity).
  split; [exact H1|]. split; [exact H2|].
  destruct (decision_respects_rule_guards Demo.cfg Demo.f64 Demo.no_tokens self act H1 H2)
    as [[_ Hfn]|(_ & _ & Hguard)]; [discriminate Hfn|exact Hguard].
Defined.

(** A refresh on the test network: 20 PathUSD are cached. *)
Lemma update_balances_caches_chain_values_witness :
  let self := Demo.wallet_of Demo.world0 false in
  let o := Smart.update_balances Demo.cfg Demo.f64 self in
  calm (Smart.world self) /\
  Smart.balances (post o) !! "PathUSD" = Some (truediv Demo.f64 (20 * 10 ^ 6) (10 ^ 6)) /\
  (Smart.balance (post o) "PathUSD" == 20)%Q.
Proof.
  intros self o.
  assert (H : calm (Smart.world self)) by reflexivity.
  destruct (update_balances_caches_chain_values Demo.cfg Demo.f64 self H)
    as (_ & _ & Hvals & _).
  assert (Hpath : Smart.balances (post o) !! "PathUSD" =
                  Some (truediv Demo.f64 (20 * 10 ^ 6) (10 ^ 6))).
  { apply (Hvals "PathUSD" Demo.path_usd); [now left|reflexivity|reflexivity]. }
  split; [exact H|]. split; [exact Hpath|].
  unfold Smart.balance. rewrite Hpath. vm_compute. reflexivity.
Defined.

(** An empty order book: the quote is 0, nothing is sent and the swap
    recipe returns [None]. *)
Lemma swap_zero_quote_witness :
  let w := Demo.world_of Demo.chain_no_liquidity [] [] [] in
  let o := Auto.activity5_swap Demo.node Demo.cfg Demo.alice w in
  Auto.assoc "PathUSD" (TOKENS Demo.cfg) = Some Demo.path_usd /\
  Auto.assoc "AlphaUSD" (TOKENS Demo.cfg) = Some Demo.alpha_usd /\
  In (EvRead (QuoteSwapExactAmountIn Demo.path_usd Demo.alpha_usd (1 * 10 ^ 6)) (Ok 0))
     (events o) /\
  res o = Ok None /\
  forall tin tout a m, ~ In (SwapExactAmountIn tin tout a m) (sent_calls (events o)).
Proof.
  intros w o.
  assert (H1 : Auto.assoc "PathUSD" (TOKENS Demo.cfg) = Some Demo.path_usd) by reflexivity.
  assert (H2 : Auto.assoc "AlphaUSD" (TOKENS Demo.cfg) = Some Demo.alpha_usd) by reflexivity.
  assert (H3 : In (EvRead (QuoteSwapExactAmountIn Demo.path_usd Demo.alpha_usd (1 * 10 ^ 6))
                          (Ok 0)) (events o))
    by (vm_compute; right; left; reflexivity).
  assert (H4 : 0 <= 0) by lia.
  split; [exact H1|]. split; [exact H2|]. split; [exact H3|].
  destruct (swap_zero_quote_returns_none Demo.node Demo.cfg Demo.alice w
              Demo.path_usd Demo.alpha_usd 0 H1 H4) as [H5 _].
  destruct (H5 H2 H3) as (Hres & _ & Hno & _).
  split; [exact Hres|exact Hno].
Defined.
